(** * Evaluation metrics and scoring functions of ml_algo_lib

    A shallow embedding of [src/core/metrics.py]: the validation layer, the
    pointwise metrics (accuracy, MSE, MAE, R²), the impurity metrics
    (entropy, Gini, misclassification error), the split-quality functions
    (information gain, gain ratio), metric resolution ([get_metric]) and the
    aggregator ([MetricList]).

    Conventions of the embedding.
    - A numpy [float64] is a real number of [R], computed without rounding.
      Two places of the module depend on more than that and are modelled
      apart: [gain_ratio] meets [np.log2] at 0, so its values carry the
      infinities and NaN ([npfloat]); the test [ss_tot == 0] of the R²
      metric is decided by rounding, so its method body is also given over
      binary64 numbers ([Float64.R2Score_call]).  Python's [int] lengths are
      [nat].
    - An array is one-dimensional (the spec's "vector"): its shape is
      [(len,)], so comparing shapes is comparing lengths.
    - Class labels are integers ([Z]); [np.unique] orders them.
    - A Python call either returns or raises: [result A].
    - A Python [dict] with string keys is an insertion-ordered association
      list without duplicate keys ([dict V]). *)

From Stdlib Require Import Reals Lra Lia List String Ascii ZArith Bool Arith.
From Stdlib Require Import DecimalString Permutation Sorted.
From Stdlib Require PrimFloat.
Import ListNotations.

Open Scope string_scope.
Open Scope R_scope.

(** ** Python exceptions and calls that may raise *)

(** The exception classes the module can meet.  All but the last two derive
    from [Exception]; [KeyboardInterrupt] and [SystemExit] derive from
    [BaseException] only. *)
Inductive exn : Type :=
| TypeError (msg : string)
| ValueError (msg : string)
| ZeroDivisionError (msg : string)
| AttributeError (msg : string)
| KeyError (key : string)
| NotImplementedError
| RuntimeError (msg : string)
| KeyboardInterrupt
| SystemExit.

(** [isinstance(e, Exception)]: what [except Exception] catches. *)
Definition is_Exception (e : exn) : bool :=
  match e with
  | KeyboardInterrupt | SystemExit => false
  | _ => true
  end.

Inductive result (A : Type) : Type :=
| Ok (a : A)
| Raise (e : exn).

Arguments Ok {A} & a.
Arguments Raise {A} e.

Definition bind {A B : Type} (c : result A) (k : A -> result B) : result B :=
  match c with
  | Ok a => k a
  | Raise e => Raise e
  end.

Notation "x <- c ;; k" := (bind c (fun x => k))
  (at level 61, c at next level, right associativity).
Notation "' pat <- c ;; k" := (bind c (fun x => match x with pat => k end))
  (at level 61, pat pattern, c at next level, right associativity).

(** ** Python objects handed to the metrics *)

Inductive pyobj : Type :=
| NdArray (data : list R)      (* numpy.ndarray of shape (len data,) *)
| PyList (items : list R)      (* a plain list: not an ndarray *)
| PyFloat (x : R)
| PyInt (n : Z)
| PyNone.

(** [isinstance(o, np.ndarray)] *)
Definition isinstance_ndarray (o : pyobj) : bool :=
  match o with
  | NdArray _ => true
  | _ => false
  end.

(** [repr] of a natural number, and of the shape tuple [(n,)]. *)
Definition repr_nat (n : nat) : string :=
  NilEmpty.string_of_uint (Nat.to_uint n).

Definition repr_shape (n : nat) : string :=
  "(" ++ repr_nat n ++ ",)".

(** ** Python dictionaries keyed by strings *)

Definition dict (V : Type) : Type := list (string * V).

Module PyDict.

  (** [d[k]], [None] standing for the [KeyError]. *)
Fixpoint get {V : Type} (d : dict V) (k : string) : option V :=
    match d with
    | [] => None
    | (k', v) :: d' => if String.eqb k k' then Some v else get d' k
    end.

  (** [d[k] = v]: an existing key keeps its position, a new key goes last. *)
Fixpoint set {V : Type} (d : dict V) (k : string) (v : V) : dict V :=
    match d with
    | [] => [(k, v)]
    | (k', v') :: d' =>
        if String.eqb k k' then (k', v) :: d' else (k', v') :: set d' k v
    end.

Definition keys {V : Type} (d : dict V) : list string := map fst d.

End PyDict.

(** ** numpy reductions and element-wise operations *)

Definition np_sum (a : list R) : R := fold_right Rplus 0 a.

(** [np.mean(a)]: the sum over the number of elements. *)
Definition np_mean (a : list R) : R := np_sum a / INR (List.length a).

(** [a - b] for two arrays of one shape. *)
Definition np_sub (a b : list R) : list R :=
  map (fun p => fst p - snd p) (combine a b).

(** [a - c] for an array and a scalar (broadcast). *)
Definition np_sub_scalar (a : list R) (c : R) : list R :=
  map (fun x => x - c) a.

(** [a ** 2] *)
Definition np_square (a : list R) : list R := map (fun x => x * x) a.

(** [np.abs(a)] *)
Definition np_abs (a : list R) : list R := map Rabs a.

(** [a * b] for two arrays of one shape. *)
Definition np_mul (a b : list R) : list R :=
  map (fun p => fst p * snd p) (combine a b).

(** [a == b] element-wise, [True] counted as 1 and [False] as 0 by
    [np.mean]. *)
Definition np_equal (a b : list R) : list R :=
  map (fun p => if Req_dec_T (fst p) (snd p) then 1 else 0) (combine a b).

(** [np.log2(x)] at a positive [x], the base-2 logarithm.  The entropy
    applies it to the positive proportions only.  At 0, where numpy returns
    [-inf], and below, where it returns NaN, the value is not a real number:
    [npf_log2] gives it, and [gain_ratio], which can reach 0, calls that
    one. *)
Definition np_log2 (x : R) : R := ln x / ln 2.

(** [np.max(a)] of a non-empty array (numpy raises on an empty one; the only
    caller guards the call). *)
Definition np_max (a : list R) : R :=
  match a with
  | [] => 0
  | x :: xs => fold_left Rmax xs x
  end.

(** [a[a > 0]]: boolean-mask selection. *)
Definition np_select_pos (a : list R) : list R :=
  filter (fun p => if Rlt_dec 0 p then true else false) a.

(** [np.unique(y, return_counts=True)]: the array is sorted, then each run of
    equal values gives one class and its count. *)
Fixpoint sort_insert (x : Z) (l : list Z) : list Z :=
  match l with
  | [] => [x]
  | h :: t => if (x <=? h)%Z then x :: l else h :: sort_insert x t
  end.

Definition np_sort (y : list Z) : list Z := fold_right sort_insert [] y.

Fixpoint run_lengths (l : list Z) : list (Z * nat) :=
  match l with
  | [] => []
  | x :: t =>
      match run_lengths t with
      | (k, c) :: r => if (x =? k)%Z then (k, S c) :: r else (x, 1%nat) :: (k, c) :: r
      | [] => [(x, 1%nat)]
      end
  end.

Definition np_unique_counts (y : list Z) : list Z * list nat :=
  let runs := run_lengths (np_sort y) in
  (map fst runs, map snd runs).

(** ** Validation layer *)

(** [_validate_inputs(y_true, y_pred)].  Python returns [None]; the model
    hands back the data of the two checked arrays. *)
Definition _validate_inputs (y_true y_pred : pyobj) : result (list R * list R) :=
  match y_true, y_pred with
  | NdArray a, NdArray b =>
      if negb (List.length a =? List.length b)%nat then
        Raise (ValueError ("Shape mismatch: y_true " ++ repr_shape (List.length a)
                           ++ " != y_pred " ++ repr_shape (List.length b)))
      else if (List.length a =? 0)%nat then
        Raise (ValueError "Empty arrays are not supported")
      else Ok (a, b)
  | _, _ => Raise (TypeError "Inputs must be numpy arrays")
  end.

(** ** Metrics *)

(** A metric object: its [name] attribute and its [__call__]. *)
Record Metric : Type := {
  name : string;
  call : pyobj -> pyobj -> result R
}.

(** The base class: validates, then [raise NotImplementedError]. *)
Definition Metric_base (nm : string) : Metric :=
  {| name := nm;
     call := fun y_true y_pred =>
       _ <- _validate_inputs y_true y_pred ;;
       Raise NotImplementedError |}.

Definition Accuracy : Metric :=
  {| name := "accuracy";
     call := fun y_true y_pred =>
       '(a, b) <- _validate_inputs y_true y_pred ;;
       Ok (np_mean (np_equal a b)) |}.

Definition MSE : Metric :=
  {| name := "mse";
     call := fun y_true y_pred =>
       '(a, b) <- _validate_inputs y_true y_pred ;;
       Ok (np_mean (np_square (np_sub a b))) |}.

Definition MAE : Metric :=
  {| name := "mae";
     call := fun y_true y_pred =>
       '(a, b) <- _validate_inputs y_true y_pred ;;
       Ok (np_mean (np_abs (np_sub a b))) |}.

(** The R² metric over exact reals: [ss_tot == 0] is here the test that the
    exact sum of squares is 0.  The float64 sum the code compares can differ
    from 0 where the exact one does not, through the rounding of the mean;
    [Float64.R2Score_call] follows the same body in float64 arithmetic. *)
Definition R2Score : Metric :=
  {| name := "r2";
     call := fun y_true y_pred =>
       '(a, b) <- _validate_inputs y_true y_pred ;;
       let ss_res := np_sum (np_square (np_sub a b)) in
       let ss_tot := np_sum (np_square (np_sub_scalar a (np_mean a))) in
       if Req_dec_T ss_tot 0 then Ok 0
       else Ok (1 - ss_res / ss_tot) |}.

(** ** The R² metric in float64 arithmetic

    [R2Score.__call__] once more, over IEEE 754 binary64 numbers (the
    primitive floats), operation by operation, so that the branch taken by
    [ss_tot == 0] is the one the rounded sums decide. *)
Module Float64.
Import PrimFloat.

(** [float(n)] for the length of an array, exact below 2^53. *)
Fixpoint float_of_nat (n : nat) : float :=
  match n with
  | O => 0%float
  | S n' => (float_of_nat n' + 1)%float
  end.

(** [np.sum(a)]: numpy adds an array of fewer than eight elements one
    element after the other from the left, starting at 0; longer arrays are
    added in blocks, which this function does not follow. *)
Definition np_sum (a : list float) : float := fold_left add a 0%float.

(** [np.mean(a)]: the sum divided by the number of elements. *)
Definition np_mean (a : list float) : float :=
  (np_sum a / float_of_nat (List.length a))%float.

(** [a - b], [a - c] and [a ** 2], which numpy computes as [a * a]. *)
Definition np_sub (a b : list float) : list float :=
  map (fun p => (fst p - snd p)%float) (combine a b).

Definition np_sub_scalar (a : list float) (c : float) : list float :=
  map (fun x => (x - c)%float) a.

Definition np_square (a : list float) : list float :=
  map (fun x => (x * x)%float) a.

(** The float64 numbers that the literals [0.1] and [0.2] denote. *)
Definition tenth : float := 0x1.999999999999ap-4%float.
Definition fifth : float := 0x1.999999999999ap-3%float.

(** [_validate_inputs] on two arrays. *)
Definition _validate_inputs (a b : list float) : result unit :=
  if negb (List.length a =? List.length b)%nat then
    Raise (ValueError ("Shape mismatch: y_true " ++ repr_shape (List.length a)
                       ++ " != y_pred " ++ repr_shape (List.length b)))
  else if (List.length a =? 0)%nat then
    Raise (ValueError "Empty arrays are not supported")
  else Ok tt.

(** [R2Score.__call__(y_true, y_pred)] on two arrays. *)
Definition R2Score_call (y_true y_pred : list float) : result float :=
  _ <- _validate_inputs y_true y_pred ;;
  let ss_res := np_sum (np_square (np_sub y_true y_pred)) in
  let ss_tot := np_sum (np_square (np_sub_scalar y_true (np_mean y_true))) in
  if (ss_tot =? 0)%float then Ok 0%float
  else Ok (1 - ss_res / ss_tot)%float.

End Float64.

(** ** Impurity metrics *)

(** [ImpurityMetric.compute_proportions(y)] *)
Definition compute_proportions (y : list Z) : list R :=
  if (List.length y =? 0)%nat then []
  else
    let '(classes, counts) := np_unique_counts y in
    map (fun c => INR c / INR (List.length y)) counts.

(** An impurity metric object; its [__call__] looks at the label vector
    only (the optional [y_pred] is ignored).  In Python the class derives
    from [Metric]; the split-quality functions use it as
    [impurity_metric(y)], which is what the record holds.  The three
    impurity metrics of the module return on every label vector. *)
Record ImpurityMetric : Type := {
  imp_name : string;
  imp_call : list Z -> R
}.

Definition Entropy : ImpurityMetric :=
  {| imp_name := "entropy";
     imp_call := fun y =>
       let proportions := compute_proportions y in
       let nonzero_props := np_select_pos proportions in
       - np_sum (np_mul nonzero_props (map np_log2 nonzero_props)) |}.

Definition GiniImpurity : ImpurityMetric :=
  {| imp_name := "gini";
     imp_call := fun y =>
       let proportions := compute_proportions y in
       1 - np_sum (np_square proportions) |}.

Definition MisclassificationError : ImpurityMetric :=
  {| imp_name := "misclassification";
     imp_call := fun y =>
       let proportions := compute_proportions y in
       if (0 <? List.length proportions)%nat then 1 - np_max proportions
       else 0 |}.

(** ** Split-quality functions *)

(** [a / b] on two Python ints: true division, [ZeroDivisionError] when the
    divisor is 0. *)
Definition py_truediv (a b : nat) : result R :=
  if (b =? 0)%nat then Raise (ZeroDivisionError "division by zero")
  else Ok (INR a / INR b).

(** [sum(f(x) for x in xs)]: the terms are produced one at a time and added
    from the left to the running total, which starts at 0; the first term
    that raises ends the sum. *)
Fixpoint py_sum_from {A : Type} (f : A -> result R) (xs : list A) (acc : R)
  : result R :=
  match xs with
  | [] => Ok acc
  | x :: xs' => v <- f x ;; py_sum_from f xs' (acc + v)
  end.

Definition py_sum {A : Type} (f : A -> result R) (xs : list A) : result R :=
  py_sum_from f xs 0.

Definition information_gain (y_parent : list Z) (y_children : list (list Z))
    (impurity_metric : ImpurityMetric) : result R :=
  let parent_impurity := imp_call impurity_metric y_parent in
  let n_parent := List.length y_parent in
  weighted_child_impurity <-
    py_sum (fun child =>
              w <- py_truediv (List.length child) n_parent ;;
              Ok (w * imp_call impurity_metric child))
           y_children ;;
  Ok (parent_impurity - weighted_child_impurity).

(** *** Floats that are not numbers

    [gain_ratio] takes [np.log2] of a child's weight, which is 0 for an empty
    child.  Its values are therefore modelled with the infinities and NaN of
    a [float64] next to the real numbers.  Rounding and the sign of a zero
    are not modelled. *)
Inductive npfloat : Type :=
| Num (x : R)
| PosInf
| NegInf
| NaN.

Coercion Num : R >-> npfloat.

(** [np.log2(x)] on a float: [-inf] at 0 and NaN below 0, each with a
    [RuntimeWarning] and no exception. *)
Definition npf_log2 (x : R) : npfloat :=
  if Req_dec_T x 0 then NegInf
  else if Rlt_dec x 0 then NaN
  else Num (np_log2 x).

(** [a * b]: zero times an infinity is NaN. *)
Definition npf_mul (a b : npfloat) : npfloat :=
  match a, b with
  | NaN, _ | _, NaN => NaN
  | Num x, Num y => Num (x * y)
  | Num x, PosInf | PosInf, Num x =>
      if Req_dec_T x 0 then NaN else if Rlt_dec 0 x then PosInf else NegInf
  | Num x, NegInf | NegInf, Num x =>
      if Req_dec_T x 0 then NaN else if Rlt_dec 0 x then NegInf else PosInf
  | PosInf, PosInf | NegInf, NegInf => PosInf
  | PosInf, NegInf | NegInf, PosInf => NegInf
  end.

(** [a + b]: the sum of the two infinities is NaN. *)
Definition npf_add (a b : npfloat) : npfloat :=
  match a, b with
  | NaN, _ | _, NaN => NaN
  | Num x, Num y => Num (x + y)
  | PosInf, NegInf | NegInf, PosInf => NaN
  | PosInf, _ | _, PosInf => PosInf
  | NegInf, _ | _, NegInf => NegInf
  end.

(** [-a] *)
Definition npf_neg (a : npfloat) : npfloat :=
  match a with
  | Num x => Num (- x)
  | PosInf => NegInf
  | NegInf => PosInf
  | NaN => NaN
  end.

(** [a / b] on numpy floats: no exception.  A zero divisor, taken as
    positive, gives NaN for 0/0 and an infinity otherwise ([gain_ratio]
    divides behind its test [split_info != 0] only). *)
Definition npf_div (a b : npfloat) : npfloat :=
  match a, b with
  | NaN, _ | _, NaN => NaN
  | Num x, Num y =>
      if Req_dec_T y 0 then
        if Req_dec_T x 0 then NaN else if Rlt_dec 0 x then PosInf else NegInf
      else Num (x / y)
  | Num _, PosInf | Num _, NegInf => Num 0
  | PosInf, Num y => if Rlt_dec y 0 then NegInf else PosInf
  | NegInf, Num y => if Rlt_dec y 0 then PosInf else NegInf
  | PosInf, PosInf | PosInf, NegInf | NegInf, PosInf | NegInf, NegInf => NaN
  end.

(** [a != b]: NaN differs from every float, itself included. *)
Definition npf_ne (a b : npfloat) : bool :=
  match a, b with
  | NaN, _ | _, NaN => true
  | Num x, Num y => if Req_dec_T x y then false else true
  | PosInf, PosInf | NegInf, NegInf => false
  | _, _ => true
  end.

(** [sum(f(x) for x in xs)] again, for terms that may be infinite or NaN. *)
Fixpoint npf_sum_from {A : Type} (f : A -> result npfloat) (xs : list A)
    (acc : npfloat) : result npfloat :=
  match xs with
  | [] => Ok acc
  | x :: xs' => v <- f x ;; npf_sum_from f xs' (npf_add acc v)
  end.

Definition npf_sum {A : Type} (f : A -> result npfloat) (xs : list A)
  : result npfloat :=
  npf_sum_from f xs (Num 0).

Definition gain_ratio (y_parent : list Z) (y_children : list (list Z))
    (impurity_metric : ImpurityMetric) : result npfloat :=
  ig <- information_gain y_parent y_children impurity_metric ;;
  let n_parent := List.length y_parent in
  s <- npf_sum (fun child =>
                  w <- py_truediv (List.length child) n_parent ;;
                  w' <- py_truediv (List.length child) n_parent ;;
                  Ok (npf_mul (Num w) (npf_log2 w')))
               y_children ;;
  let split_info := npf_neg s in
  if npf_ne split_info (Num 0) then Ok (npf_div (Num ig) split_info)
  else Ok (Num 0).

(** ** Metric resolution *)

(** A callable that is neither a [Metric] nor a string: its [__name__]
    (absent on some callables) and what calling it does. *)
Record PyCallable : Type := {
  fn_name : option string;
  fn_call : pyobj -> pyobj -> result R
}.

(** A [MetricWrapper] object once [fn.__name__] has been read: its
    [__call__] validates, then delegates to [fn]. *)
Definition MetricWrapper_object (nm : string) (fn : PyCallable) : Metric :=
  {| name := nm;
     call := fun y_true y_pred =>
       _ <- _validate_inputs y_true y_pred ;;
       fn_call fn y_true y_pred |}.

(** [MetricWrapper(fn)]: reading a missing [__name__] raises. *)
Definition MetricWrapper (fn : PyCallable) : result Metric :=
  match fn_name fn with
  | Some nm => Ok (MetricWrapper_object nm fn)
  | None => Raise (AttributeError "__name__")
  end.

(** What [get_metric] can be handed, by the [isinstance]/[callable] test it
    passes. *)
Inductive identifier : Type :=
| IdMetric (m : Metric)
| IdStr (s : string)
| IdCallable (fn : PyCallable)
| IdOther (o : pyobj).

Definition metrics_map : dict Metric :=
  [("accuracy", Accuracy); ("mse", MSE); ("mae", MAE); ("r2", R2Score)].

Definition get_metric (metric : identifier) : result Metric :=
  match metric with
  | IdMetric m => Ok m
  | IdStr s =>
      match PyDict.get metrics_map s with
      | None => Raise (ValueError ("Unknown metric: " ++ s))
      | Some m => Ok m
      end
  | IdCallable fn => MetricWrapper fn
  | IdOther _ =>
      Raise (ValueError "metric must be string, Metric instance or callable")
  end.

(** ** The aggregator *)

Record MetricList : Type := {
  metrics : list Metric;
  history : dict (list R)
}.

(** [[get_metric(m) for m in metrics]]: the first failure ends the
    comprehension. *)
Fixpoint get_metrics (ids : list identifier) : result (list Metric) :=
  match ids with
  | [] => Ok []
  | i :: ids' =>
      m <- get_metric i ;;
      ms <- get_metrics ids' ;;
      Ok (m :: ms)
  end.

(** [{m.name: [] for m in self.metrics}] *)
Definition empty_histories (ms : list Metric) : dict (list R) :=
  fold_left (fun d m => PyDict.set d (name m) []) ms [].

(** [MetricList.__init__] *)
Definition MetricList_init (ids : list identifier) : result MetricList :=
  ms <- get_metrics ids ;;
  Ok {| metrics := ms; history := empty_histories ms |}.

(** The body of the [try] for one metric: evaluate, then append the score to
    the list stored under the metric's name.  It gives the histories after
    the append and the score. *)
Definition try_metric (metric : Metric) (y_true y_pred : pyobj)
    (h : dict (list R)) : result (dict (list R) * R) :=
  score <- call metric y_true y_pred ;;
  match PyDict.get h (name metric) with
  | None => Raise (KeyError (name metric))
  | Some scores => Ok (PyDict.set h (name metric) (scores ++ [score])%list, score)
  end.

(** The [for] loop of [MetricList.__call__] from a given point on: the
    histories and results so far go in, the histories at the end come out
    together with the returned mapping, or with the exception that left the
    loop ([except Exception] lets a non-[Exception] through). *)
Fixpoint MetricList_loop (ms : list Metric) (y_true y_pred : pyobj)
    (h : dict (list R)) (results : dict (option R))
  : dict (list R) * result (dict (option R)) :=
  match ms with
  | [] => (h, Ok results)
  | metric :: ms' =>
      match try_metric metric y_true y_pred h with
      | Ok (h', score) =>
          MetricList_loop ms' y_true y_pred h'
            (PyDict.set results (name metric) (Some score))
      | Raise e =>
          if is_Exception e then
            MetricList_loop ms' y_true y_pred h
              (PyDict.set results (name metric) None)
          else (h, Raise e)
      end
  end.

(** [MetricList.__call__]: the aggregator after the call and what the call
    returns. *)
Definition MetricList_call (self : MetricList) (y_true y_pred : pyobj)
  : MetricList * result (dict (option R)) :=
  let '(h, r) := MetricList_loop (metrics self) y_true y_pred (history self) [] in
  ({| metrics := metrics self; history := h |}, r).

(** The names [get_metric] knows. *)
Definition known_names : list string := ["accuracy"; "mse"; "mae"; "r2"].

(** The four pointwise metrics of the module. *)
Definition pointwise_metrics : list Metric := [Accuracy; MSE; MAE; R2Score].

(** ** The formulas of the specification

    The sums of the specification, written over positions. *)

(** [Sigma n f] is f(0) + ... + f(n-1). *)
Definition Sigma (n : nat) (f : nat -> R) : R :=
  fold_right Rplus 0 (map f (seq 0 n)).

(** mean(y) *)
Definition spec_mean (y : list R) : R :=
  Sigma (List.length y) (fun i => nth i y 0) / INR (List.length y).


(** SS_tot = Σ (y_true - mean(y_true))² *)
Definition SS_tot (y_true : list R) : R :=
  Sigma (List.length y_true) (fun i => (nth i y_true 0 - spec_mean y_true) ^ 2).

(** All the values of a vector are identical. *)
Definition all_identical {A : Type} (y : list A) : Prop :=
  forall x x', In x y -> In x' y -> x = x'.

(** The weighted child impurity, the information gain and the split
    information of the specification, as sums over the children.  In the
    split information a child of weight 0 contributes 0 (the convention
    0·log2 0 = 0, which is what [0 * np_log2 0] is over the reals); the
    code's term for such a child is [split_info_term]'s. *)
Definition spec_weight (y_parent child : list Z) : R :=
  INR (List.length child) / INR (List.length y_parent).

Definition spec_information_gain (impurity : list Z -> R)
    (y_parent : list Z) (y_children : list (list Z)) : R :=
  impurity y_parent
  - Sigma (List.length y_children)
      (fun j => spec_weight y_parent (nth j y_children [])
                * impurity (nth j y_children [])).

Definition spec_split_info (y_parent : list Z) (y_children : list (list Z)) : R :=
  - Sigma (List.length y_children)
      (fun j => spec_weight y_parent (nth j y_children [])
                * np_log2 (spec_weight y_parent (nth j y_children []))).

(** The number of distinct values of a label vector. *)
Definition n_distinct (y : list Z) : nat := List.length (nodup Z.eq_dec y).

(** The classes [np.unique] finds, in its order. *)
Definition classes (y : list Z) : list Z := fst (np_unique_counts y).

(** A proportion lies in (0, 1]. *)
Definition is_proportion (p : R) : Prop := 0 < p <= 1.

(** ** Vocabulary for the aggregator *)

(** The aggregators a program can hold: built by [MetricList_init], then
    called any number of times. *)
Inductive aggregator : MetricList -> Prop :=
| aggregator_init (ids : list identifier) (self : MetricList) :
    MetricList_init ids = Ok self -> aggregator self
| aggregator_call (self : MetricList) (y_true y_pred : pyobj) :
    aggregator self -> aggregator (fst (MetricList_call self y_true y_pred)).

(** The metrics of a list that carry a given name, in list order. *)
Definition named (n : string) (ms : list Metric) : list Metric :=
  filter (fun m => String.eqb (name m) n) ms.

(** What one metric leaves in the returned mapping: its score, or [None]
    when it raised. *)
Definition outcome (y_true y_pred : pyobj) (m : Metric) : option R :=
  match call m y_true y_pred with
  | Ok score => Some score
  | Raise _ => None
  end.

(** The scores of the metrics that return, in list order. *)
Definition scores_of (y_true y_pred : pyobj) (ms : list Metric) : list R :=
  flat_map (fun m => match call m y_true y_pred with
                     | Ok score => [score]
                     | Raise _ => []
                     end) ms.

(** Every exception the metrics raise on these inputs is an error, that is
    an instance of [Exception]. *)
Definition raises_only_errors (ms : list Metric) (y_true y_pred : pyobj) : Prop :=
  forall m e, In m ms -> call m y_true y_pred = Raise e -> is_Exception e = true.

(** The names of the metrics are keys of the histories, each once. *)
Definition well_keyed (ms : list Metric) (h : dict (list R)) : Prop :=
  (forall m, In m ms -> In (name m) (PyDict.keys h))
  /\ NoDup (PyDict.keys h).

(** ** Example aggregators *)

(** A user callable named [broken_metric] that throws. *)
Definition broken_metric : PyCallable :=
  {| fn_name := Some "broken_metric";
     fn_call := fun _ _ => Raise (RuntimeError "boom") |}.

(** Two anonymous functions; Python names both [<lambda>].  The first
    throws, the second returns 1. *)
Definition lambda_raising : PyCallable :=
  {| fn_name := Some "<lambda>";
     fn_call := fun _ _ => Raise (RuntimeError "boom") |}.

Definition lambda_one : PyCallable :=
  {| fn_name := Some "<lambda>";
     fn_call := fun _ _ => Ok 1 |}.

(** [MetricList(["accuracy", broken_metric])] *)
Definition accuracy_and_broken : MetricList :=
  {| metrics := [Accuracy; MetricWrapper_object "broken_metric" broken_metric];
     history := [("accuracy", []); ("broken_metric", [])] |}.

(** [MetricList([lambda ...: raise, lambda ...: 1.0])] *)
Definition two_lambdas : MetricList :=
  {| metrics := [MetricWrapper_object "<lambda>" lambda_raising;
                 MetricWrapper_object "<lambda>" lambda_one];
     history := [("<lambda>", [])] |}.

(** [MetricList(["accuracy", "accuracy"])] *)
Definition accuracy_twice : MetricList :=
  {| metrics := [Accuracy; Accuracy];
     history := [("accuracy", [])] |}.

(** ** Vocabulary for the further properties *)

(** The values of a list without repetition, each at the place of its first
    occurrence: the key order of a Python dict filled from the list. *)
Definition add_key (ks : list string) (k : string) : list string :=
  if in_dec string_dec k ks then ks else (ks ++ [k])%list.

Definition first_occurrences (l : list string) : list string :=
  fold_left add_key l [].

(** Every identifier of the list resolves, to the metric at the same
    position. *)
Definition resolve_to (ids : list identifier) (ms : list Metric) : Prop :=
  Forall2 (fun i m => get_metric i = Ok m) ids ms.

(** The identifier at which resolution of the list stops: all before it
    resolve and it raises [e]. *)
Definition first_failure (ids : list identifier) (e : exn) : Prop :=
  exists pre i post,
    ids = (pre ++ i :: post)%list
    /\ Forall (fun j => exists m, get_metric j = Ok m) pre
    /\ get_metric i = Raise e.

(** Several calls of one aggregator, one after the other; the aggregator
    after the last call. *)
Definition MetricList_calls (self : MetricList) (inputs : list (pyobj * pyobj))
  : MetricList :=
  fold_left (fun s yy => fst (MetricList_call s (fst yy) (snd yy))) inputs self.

(** [old] with something appended. *)
Definition extends {A : Type} (old new : list A) : Prop :=
  exists added, new = (old ++ added)%list.

(** The scores one metric gives on a sequence of inputs, in that order, the
    inputs on which it raises left out. *)
Definition scores_over (m : Metric) (inputs : list (pyobj * pyobj)) : list R :=
  flat_map (fun yy => match call m (fst yy) (snd yy) with
                      | Ok score => [score]
                      | Raise _ => []
                      end) inputs.

(** A user callable interrupted from the keyboard while it runs. *)
Definition interrupted : PyCallable :=
  {| fn_name := Some "interrupted";
     fn_call := fun _ _ => Raise KeyboardInterrupt |}.

(** [MetricList(["accuracy", interrupted])] *)
Definition accuracy_and_interrupted : MetricList :=
  {| metrics := [Accuracy; MetricWrapper_object "interrupted" interrupted];
     history := [("accuracy", []); ("interrupted", [])] |}.

(** The identifier is a name or a callable, not a ready-made [Metric]. *)
Definition by_name_or_callable (i : identifier) : Prop :=
  match i with
  | IdStr _ | IdCallable _ => True
  | IdMetric _ | IdOther _ => False
  end.

(** The three impurity metrics of the module. *)
Definition impurity_metrics : list ImpurityMetric :=
  [Entropy; GiniImpurity; MisclassificationError].

(** Every class of the label vector occurs equally often. *)
Definition balanced (y : list Z) : Prop :=
  forall c c', In c y -> In c' y ->
               count_occ Z.eq_dec y c = count_occ Z.eq_dec y c'.

(** ** Plotting the histories ([src/utils/visualization.py])

    [plot_learning_curves] acts on matplotlib and on the logger only.  The
    model records what it asks of them, in order: the calls of [plt] with
    the arguments the function chooses and the log records.  What a [plt]
    call does is left to the plotting library: [backend], given the calls
    made so far and the new call, says whether the call returns or which
    exception it raises.  Keyword arguments that are constants of the source
    ([linewidth=2], [fontsize=12], [True] for the grid) are not recorded. *)

Inductive plt_call : Type :=
| plt_figure (figsize : nat * nat)
| plt_plot (values : list R) (label : string)
| plt_xlabel (text : string)
| plt_ylabel (text : string)
| plt_title (text : string)
| plt_legend
| plt_grid
| plt_savefig (path : string)
| plt_show.

Inductive event : Type :=
| Call (c : plt_call)
| LogWarning (msg : string)
| LogError (msg : string).

(** [str(e)] *)
Definition str_exn (e : exn) : string :=
  match e with
  | TypeError msg | ValueError msg | ZeroDivisionError msg
  | AttributeError msg | RuntimeError msg => msg
  | KeyError key => "'" ++ key ++ "'"
  | NotImplementedError | KeyboardInterrupt | SystemExit => ""
  end.

(** [s or default] for an optional string: [None] and the empty string are
    false. *)
Definition str_or (s : option string) (default : string) : string :=
  match s with
  | None | Some EmptyString => default
  | Some text => text
  end.

(** A computation that extends the record of events and returns or
    raises. *)
Definition plotting (A : Type) : Type := list event -> list event * result A.

Definition plot_ret {A : Type} (a : A) : plotting A := fun tr => (tr, Ok a).

Definition plot_bind {A B : Type} (c : plotting A) (k : A -> plotting B)
  : plotting B :=
  fun tr =>
    match c tr with
    | (tr', Ok a) => k a tr'
    | (tr', Raise e) => (tr', Raise e)
    end.

Notation "c1 ;;; c2" := (plot_bind c1 (fun _ => c2))
  (at level 62, right associativity).

Definition log_warning (msg : string) : plotting unit :=
  fun tr => ((tr ++ [LogWarning msg])%list, Ok tt).

Section Plotting.

Variable backend : list event -> plt_call -> option exn.

(** One call of [plt]. *)
Definition plt (c : plt_call) : plotting unit :=
  fun tr =>
    ((tr ++ [Call c])%list,
     match backend tr c with
     | None => Ok tt
     | Some e => Raise e
     end).

(** The [for] loop over [history.items()]. *)
Fixpoint plot_series (items : dict (list R)) : plotting unit :=
  match items with
  | [] => plot_ret tt
  | (metric_name, values) :: rest =>
      match values with
      | [] =>
          log_warning ("Empty values for metric " ++ metric_name) ;;;
          plot_series rest
      | _ :: _ =>
          plt (plt_plot values metric_name) ;;;
          plot_series rest
      end
  end.

(** The body of the [try]. *)
Definition plot_learning_curves_body (history : dict (list R))
    (title : option string) (figsize : nat * nat) (save_path : option string)
  : plotting unit :=
  plt (plt_figure figsize) ;;;
  plot_series history ;;;
  plt (plt_xlabel "Iteration") ;;;
  plt (plt_ylabel "Value") ;;;
  plt (plt_title (str_or title "Learning Curves")) ;;;
  plt plt_legend ;;;
  plt plt_grid ;;;
  match save_path with
  | None | Some EmptyString => plot_ret tt
  | Some path => plt (plt_savefig path)
  end ;;;
  plt plt_show.

(** [plot_learning_curves(history, title, figsize, save_path)]: the events
    it causes and how it ends. *)
Definition plot_learning_curves (history : dict (list R))
    (title : option string) (figsize : nat * nat) (save_path : option string)
  : list event * result unit :=
  match history with
  | [] => ([], Raise (ValueError "History dictionary cannot be empty"))
  | _ :: _ =>
      match plot_learning_curves_body history title figsize save_path [] with
      | (tr, Ok tt) => (tr, Ok tt)
      | (tr, Raise e) =>
          if is_Exception e then
            ((tr ++ [LogError ("Error plotting learning curves: " ++ str_exn e)])%list,
             Raise e)
          else (tr, Raise e)
      end
  end.

End Plotting.

(** A plotting library whose calls all return. *)
Definition backend_ok : list event -> plt_call -> option exn :=
  fun _ _ => None.

(** The curves a record of events shows, and the warnings it holds. *)
Definition curves_of (tr : list event) : list (string * list R) :=
  flat_map (fun ev => match ev with
                      | Call (plt_plot values label) => [(label, values)]
                      | _ => []
                      end) tr.

Definition warnings_of (tr : list event) : list string :=
  flat_map (fun ev => match ev with
                      | LogWarning msg => [msg]
                      | _ => []
                      end) tr.

Definition saved_to (tr : list event) : list string :=
  flat_map (fun ev => match ev with
                      | Call (plt_savefig path) => [path]
                      | _ => []
                      end) tr.

(** The series of a dictionary that hold a value, and the names of those
    that hold none. *)
Definition nonempty_series (history : dict (list R)) : dict (list R) :=
  filter (fun kv => match snd kv with [] => false | _ :: _ => true end) history.

Definition empty_series_names (history : dict (list R)) : list string :=
  map fst (filter (fun kv => match snd kv with [] => true | _ :: _ => false end)
             history).

(** The events of the loop over the series when every call returns. *)
Definition series_events (items : dict (list R)) : list event :=
  map (fun kv => match snd kv with
                 | [] => LogWarning ("Empty values for metric " ++ fst kv)
                 | _ :: _ => Call (plt_plot (snd kv) (fst kv))
                 end) items.

(** What [save_path] makes of [plt.savefig]: nothing for [None] and the
    empty string. *)
Definition save_events (save_path : option string) : list event :=
  match save_path with
  | None | Some EmptyString => []
  | Some path => [Call (plt_savefig path)]
  end.

(** The record of [plot_learning_curves] when every call returns. *)
Definition full_record (history : dict (list R)) (title : option string)
    (figsize : nat * nat) (save_path : option string) : list event :=
  (Call (plt_figure figsize) :: series_events history
   ++ [Call (plt_xlabel "Iteration"); Call (plt_ylabel "Value");
       Call (plt_title (str_or title "Learning Curves"));
       Call plt_legend; Call plt_grid]
   ++ save_events save_path ++ [Call plt_show])%list.

(** A step of a plotting computation never drops an event, never logs an
    error, and raises only what the plotting library raised at the call
    that is then the last event. *)
Definition faithful (backend : list event -> plt_call -> option exn)
    (c : plotting unit) : Prop :=
  forall tr tr' r,
    c tr = (tr', r) ->
    (exists added,
        tr' = (tr ++ added)%list
        /\ forall msg, ~ In (LogError msg) added)
    /\ (forall e, r = Raise e ->
                  exists tr0 c0,
                    tr' = (tr0 ++ [Call c0])%list /\ backend tr0 c0 = Some e).

(** A plotting library that cannot write files: [savefig] raises, every
    other call returns. *)
Definition backend_read_only : list event -> plt_call -> option exn :=
  fun _ c =>
    match c with
    | plt_savefig _ => Some (RuntimeError "read-only file system")
    | _ => None
    end.

(** * Properties *)

(** ** The error monad *)

Lemma bind_Raise {A B : Type} (c : result A) (k : A -> result B) (e : exn) :
  c = Raise e -> bind c k = Raise e.
Proof. intros ->. reflexivity. Qed.

Lemma bind_Ok {A B : Type} (c : result A) (k : A -> result B) (a : A) :
  c = Ok a -> bind c k = k a.
Proof. intros ->. reflexivity. Qed.

(** ** Validation *)

Lemma validate_not_ndarray (y_true y_pred : pyobj) :
  isinstance_ndarray y_true = false \/ isinstance_ndarray y_pred = false ->
  _validate_inputs y_true y_pred = Raise (TypeError "Inputs must be numpy arrays").
Proof.
  intros [H | H]; destruct y_true, y_pred; simpl in *; congruence.
Qed.

Lemma validate_shape_mismatch (a b : list R) :
  List.length a <> List.length b ->
  _validate_inputs (NdArray a) (NdArray b) =
  Raise (ValueError ("Shape mismatch: y_true " ++ repr_shape (List.length a)
                     ++ " != y_pred " ++ repr_shape (List.length b))).
Proof.
  intros H. unfold _validate_inputs.
  apply Nat.eqb_neq in H. rewrite H. reflexivity.
Qed.

Lemma validate_empty :
  _validate_inputs (NdArray []) (NdArray []) =
  Raise (ValueError "Empty arrays are not supported").
Proof. reflexivity. Qed.

Lemma validate_ok (a b : list R) :
  List.length a = List.length b -> a <> [] ->
  _validate_inputs (NdArray a) (NdArray b) = Ok (a, b).
Proof.
  intros Hlen Hne. unfold _validate_inputs.
  apply Nat.eqb_eq in Hlen. rewrite Hlen. simpl.
  destruct a; [congruence | reflexivity].
Qed.

(** Every pointwise metric starts with the validation: what the validation
    raises, the metric raises. *)
Lemma pointwise_validates_first (m : Metric) (y_true y_pred : pyobj) (e : exn) :
  In m pointwise_metrics ->
  _validate_inputs y_true y_pred = Raise e ->
  call m y_true y_pred = Raise e.
Proof.
  intros Hin Hv.
  repeat (destruct Hin as [<- | Hin]; [simpl; rewrite Hv; reflexivity |]).
  destruct Hin.
Qed.

(** C7: each of accuracy, MSE, MAE and R² validates its inputs before
    computing.  Whatever the validation raises, the metric raises; an
    argument that is not an ndarray gives [TypeError]; two arrays of
    different lengths give the shape-mismatch [ValueError] (the spec's
    ShapeMismatchError); two empty arrays give the empty-input [ValueError]
    (the spec's EmptyInputError). *)
Theorem pointwise_metric_validation (m : Metric) :
  In m pointwise_metrics ->
  (forall y_true y_pred e,
      _validate_inputs y_true y_pred = Raise e ->
      call m y_true y_pred = Raise e)
  /\ (forall y_true y_pred,
         isinstance_ndarray y_true = false \/ isinstance_ndarray y_pred = false ->
         call m y_true y_pred = Raise (TypeError "Inputs must be numpy arrays"))
  /\ (forall a b,
         List.length a <> List.length b ->
         call m (NdArray a) (NdArray b) =
         Raise (ValueError ("Shape mismatch: y_true " ++ repr_shape (List.length a)
                            ++ " != y_pred " ++ repr_shape (List.length b))))
  /\ call m (NdArray []) (NdArray []) =
     Raise (ValueError "Empty arrays are not supported").
Proof.
  intros Hin. repeat split.
  - intros; now apply pointwise_validates_first.
  - intros y_true y_pred H.
    apply pointwise_validates_first; [assumption |].
    now apply validate_not_ndarray.
  - intros a b H.
    apply pointwise_validates_first; [assumption |].
    now apply validate_shape_mismatch.
  - apply pointwise_validates_first; [assumption |]. apply validate_empty.
Qed.

(** Lengths 3 and 4 handed to the MSE. *)
Lemma pointwise_metric_validation_witness :
  In MSE pointwise_metrics
  /\ call MSE (NdArray [1; 2; 3]) (NdArray [1; 2; 3; 4]) =
     Raise (ValueError "Shape mismatch: y_true (3,) != y_pred (4,)")
  /\ call MSE (NdArray []) (NdArray []) =
     Raise (ValueError "Empty arrays are not supported")
  /\ call MSE (PyList [1; 2; 3]) (NdArray [1; 2; 3]) =
     Raise (TypeError "Inputs must be numpy arrays").
Proof.
  assert (Hin : In MSE pointwise_metrics) by (simpl; auto).
  destruct (pointwise_metric_validation MSE Hin) as (_ & Hty & Hshape & Hempty).
  split; [exact Hin |]. split; [| split].
  - apply (Hshape [1; 2; 3] [1; 2; 3; 4]). simpl. lia.
  - exact Hempty.
  - apply Hty. left. reflexivity.
Defined.

(** ** Metric resolution *)

Lemma metrics_map_unknown (s : string) :
  ~ In s known_names -> PyDict.get metrics_map s = None.
Proof.
  intros H. unfold metrics_map. simpl.
  repeat match goal with
         | |- context [String.eqb s ?k] =>
             destruct (String.eqb_spec s k);
             [exfalso; apply H; subst; simpl; tauto |]
         end.
  reflexivity.
Qed.

(** C6: [get_metric] returns a [Metric] instance as it is; the four known
    names give the corresponding metric; any other string raises the
    unknown-metric [ValueError] (the spec's UnknownMetricError); anything
    that is neither a metric, a string nor a callable raises the
    invalid-specification [ValueError] (the spec's InvalidMetricSpecError),
    the integer 42 among them. *)
Theorem get_metric_resolution :
  (forall m, get_metric (IdMetric m) = Ok m)
  /\ get_metric (IdStr "accuracy") = Ok Accuracy
  /\ get_metric (IdStr "mse") = Ok MSE
  /\ get_metric (IdStr "mae") = Ok MAE
  /\ get_metric (IdStr "r2") = Ok R2Score
  /\ (forall s, ~ In s known_names ->
                get_metric (IdStr s) = Raise (ValueError ("Unknown metric: " ++ s)))
  /\ (forall o, get_metric (IdOther o) =
                Raise (ValueError "metric must be string, Metric instance or callable"))
  /\ get_metric (IdOther (PyInt 42)) =
     Raise (ValueError "metric must be string, Metric instance or callable").
Proof.
  repeat split.
  intros s H. unfold get_metric. now rewrite metrics_map_unknown.
Qed.

(** The name [unknown_metric] is not one of the four. *)
Lemma get_metric_resolution_witness :
  ~ In "unknown_metric" known_names
  /\ get_metric (IdStr "unknown_metric") =
     Raise (ValueError "Unknown metric: unknown_metric").
Proof.
  assert (H : ~ In "unknown_metric" known_names).
  { simpl. intros [H | [H | [H | [H | []]]]]; discriminate H. }
  split; [exact H |].
  destruct get_metric_resolution as (_ & _ & _ & _ & _ & Hunk & _).
  exact (Hunk "unknown_metric" H).
Defined.

(** ** Sums over positions and numpy reductions *)

Lemma Sigma_S (n : nat) (f : nat -> R) :
  Sigma (S n) f = f O + Sigma n (fun i => f (S i)).
Proof.
  unfold Sigma. simpl. rewrite <- seq_shift, map_map. reflexivity.
Qed.

Lemma Sigma_ext (n : nat) (f g : nat -> R) :
  (forall i, (i < n)%nat -> f i = g i) -> Sigma n f = Sigma n g.
Proof.
  revert f g. induction n as [| n IH]; intros f g H; [reflexivity |].
  rewrite !Sigma_S. rewrite (H O) by lia. f_equal.
  apply IH. intros i Hi. apply H. lia.
Qed.

Lemma sum_map_Sigma {A : Type} (d : A) (g : A -> R) (l : list A) :
  np_sum (map g l) = Sigma (List.length l) (fun i => g (nth i l d)).
Proof.
  induction l as [| x l IH]; [reflexivity |].
  simpl List.length. rewrite Sigma_S. simpl. now rewrite IH.
Qed.

Lemma np_sum_Sigma (a : list R) :
  np_sum a = Sigma (List.length a) (fun i => nth i a 0).
Proof.
  rewrite <- (map_id a) at 1. apply (sum_map_Sigma 0 (fun x => x)).
Qed.


Lemma np_mean_spec (a : list R) : np_mean a = spec_mean a.
Proof. unfold np_mean, spec_mean. now rewrite np_sum_Sigma. Qed.


Lemma ss_tot_spec (a : list R) :
  np_sum (np_square (np_sub_scalar a (np_mean a))) = SS_tot a.
Proof.
  unfold np_square, np_sub_scalar, SS_tot. rewrite map_map.
  rewrite (sum_map_Sigma 0 (fun x => (x - np_mean a) * (x - np_mean a))).
  rewrite np_mean_spec. apply Sigma_ext. intros i _. ring.
Qed.

(** A sum of squares is zero exactly when every term is. *)
Lemma sum_squares_zero (c : R) (a : list R) :
  np_sum (np_square (np_sub_scalar a c)) = 0 <-> (forall x, In x a -> x = c).
Proof.
  assert (Hnn : forall l, 0 <= np_sum (np_square (np_sub_scalar l c))).
  { induction l as [| x l IH]; simpl; [lra |].
    pose proof (Rle_0_sqr (x - c)) as H. unfold Rsqr in H. lra. }
  induction a as [| x a IH]; simpl.
  - split; [intros _ y [] | reflexivity].
  - pose proof (Hnn a) as Ha.
    pose proof (Rle_0_sqr (x - c)) as Hx. unfold Rsqr in Hx.
    split.
    + intros H y [<- | Hy].
      * assert (Hz : (x - c) * (x - c) = 0) by lra.
        apply Rmult_integral in Hz. lra.
      * apply IH; [lra | assumption].
    + intros H. rewrite (H x) by now left.
      assert (Hr : np_sum (np_square (np_sub_scalar a c)) = 0).
      { apply IH. intros y Hy. apply H. now right. }
      simpl in Hr. rewrite Hr. ring.
Qed.

Lemma np_sum_constant (c : R) (a : list R) :
  (forall x, In x a -> x = c) -> np_sum a = INR (List.length a) * c.
Proof.
  induction a as [| x a IH]; intros H.
  - simpl. ring.
  - assert (Hx : x = c) by (apply H; now left). subst x.
    change (np_sum (c :: a)) with (c + np_sum a).
    rewrite IH by (intros y Hy; apply H; now right).
    change (List.length (c :: a)) with (S (List.length a)).
    rewrite S_INR. ring.
Qed.

Lemma np_mean_constant (c : R) (a : list R) :
  a <> [] -> (forall x, In x a -> x = c) -> np_mean a = c.
Proof.
  intros Hne H. unfold np_mean. rewrite (np_sum_constant c) by assumption.
  assert (Hn : INR (List.length a) <> 0).
  { apply not_0_INR. destruct a; [congruence | discriminate]. }
  field. exact Hn.
Qed.

(** Over the reals the total sum of squares vanishes exactly on constant
    vectors; the float64 sum that [Float64.R2Score_call] computes need
    not. *)
Lemma SS_tot_zero_iff (a : list R) :
  a <> [] -> (SS_tot a = 0 <-> all_identical a).
Proof.
  intros Hne. rewrite <- ss_tot_spec, sum_squares_zero. split.
  - intros H x x' Hx Hx'. rewrite (H x), (H x'); auto.
  - intros H.
    destruct a as [| c a]; [congruence |].
    assert (Hc : forall x, In x (c :: a) -> x = c).
    { intros x Hx. apply H; [assumption | now left]. }
    intros x Hx. rewrite (np_mean_constant c); auto.
Qed.

(** ** R² on a constant target, in float64 arithmetic *)

Section R2Float64.
Import PrimFloat.

(** C2: the true values [0.1, 0.1, 0.1] are all identical, and yet the
    zero-variance branch is not taken.  Their float64 mean is
    0.10000000000000002 (0x1.999999999999bp-4, one unit in the last place
    above 0.1), every deviation from it is -2^-56, and the computed total sum
    of squares is 3·2^-112, about 5.78e-34, which [ss_tot == 0] finds
    different from 0.  The metric then returns 1 - ss_res/ss_tot, which is
    -5.1922968585348286e+31 (-0x1.47ae147ae147cp+105) against the prediction
    [0.2, 0.2, 0.2], and 1 against the truth itself.  On the true values
    [1, 1, 1], whose mean is exact, it returns 0. *)
Theorem r2_constant_truth_float64 :
  Float64.np_mean [Float64.tenth; Float64.tenth; Float64.tenth]
  = 0x1.999999999999bp-4%float
  /\ Float64.np_sum
       (Float64.np_square
          (Float64.np_sub_scalar
             [Float64.tenth; Float64.tenth; Float64.tenth]
             (Float64.np_mean [Float64.tenth; Float64.tenth; Float64.tenth])))
     = 0x1.8p-111%float
  /\ Float64.R2Score_call [Float64.tenth; Float64.tenth; Float64.tenth]
                          [Float64.fifth; Float64.fifth; Float64.fifth]
     = Ok (-0x1.47ae147ae147cp+105)%float
  /\ Float64.R2Score_call [Float64.tenth; Float64.tenth; Float64.tenth]
                          [Float64.tenth; Float64.tenth; Float64.tenth]
     = Ok 1%float
  /\ Float64.R2Score_call [1; 1; 1]%float [2; 3; 4]%float = Ok 0%float.
Proof.
  repeat split; vm_compute; reflexivity.
Qed.

End R2Float64.

(** ** Split-quality functions *)

(** A generator whose terms all return sums like [np_sum]. *)
Lemma py_sum_from_Ok {A : Type} (f : A -> result R) (g : A -> R)
    (xs : list A) (acc : R) :
  (forall x, In x xs -> f x = Ok (g x)) ->
  py_sum_from f xs acc = Ok (acc + np_sum (map g xs)).
Proof.
  revert acc. induction xs as [| x xs IH]; intros acc H; simpl.
  - f_equal. ring.
  - rewrite (H x) by now left. cbn [bind].
    rewrite IH by (intros y Hy; apply H; now right).
    f_equal. ring.
Qed.

Lemma py_sum_Ok {A : Type} (f : A -> result R) (g : A -> R) (xs : list A) :
  (forall x, In x xs -> f x = Ok (g x)) ->
  py_sum f xs = Ok (np_sum (map g xs)).
Proof.
  intros H. unfold py_sum. rewrite (py_sum_from_Ok f g) by assumption.
  f_equal. ring.
Qed.

(** A generator whose first term raises: the sum raises the same. *)
Lemma py_sum_first_raises {A : Type} (f : A -> result R) (x : A)
    (xs : list A) (e : exn) :
  f x = Raise e -> py_sum f (x :: xs) = Raise e.
Proof. intros H. unfold py_sum. simpl. now rewrite H. Qed.

Lemma py_truediv_zero (a : nat) :
  py_truediv a 0 = Raise (ZeroDivisionError "division by zero").
Proof. reflexivity. Qed.

Lemma py_truediv_pos (a b : nat) :
  b <> O -> py_truediv a b = Ok (INR a / INR b).
Proof.
  intros H. unfold py_truediv. apply Nat.eqb_neq in H. now rewrite H.
Qed.

Lemma length_nonempty {A : Type} (l : list A) : l <> [] -> List.length l <> O.
Proof. destruct l; [congruence | discriminate]. Qed.

Lemma information_gain_spec (imp : ImpurityMetric) (y_parent : list Z)
    (y_children : list (list Z)) :
  y_parent <> [] ->
  information_gain y_parent y_children imp =
  Ok (spec_information_gain (imp_call imp) y_parent y_children).
Proof.
  intros Hne. apply length_nonempty in Hne.
  unfold information_gain, spec_information_gain.
  rewrite (py_sum_Ok _ (fun child => spec_weight y_parent child
                                     * imp_call imp child)).
  - cbn [bind]. now rewrite (sum_map_Sigma []).
  - intros c _. now rewrite py_truediv_pos.
Qed.

Lemma np_log2_1 : np_log2 1 = 0.
Proof. unfold np_log2. rewrite ln_1. unfold Rdiv. apply Rmult_0_l. Qed.

Lemma spec_weight_self (y : list Z) : y <> [] -> spec_weight y y = 1.
Proof.
  intros Hne. unfold spec_weight. field.
  apply not_0_INR. now apply length_nonempty.
Qed.

Lemma spec_split_info_single (y : list Z) :
  y <> [] -> spec_split_info y [y] = 0.
Proof.
  intros Hne. unfold spec_split_info, Sigma. simpl.
  rewrite spec_weight_self by assumption. rewrite np_log2_1. ring.
Qed.

(** C4, as the code has it: with an empty parent the first child's weight
    divides by zero and [information_gain] raises [ZeroDivisionError],
    nothing guards it; with an empty parent and no child at all no weight
    is computed and the parent's impurity is returned. *)
Theorem information_gain_empty_parent (imp : ImpurityMetric)
    (y_children : list (list Z)) :
  information_gain [] y_children imp =
  match y_children with
  | [] => Ok (imp_call imp [])
  | _ :: _ => Raise (ZeroDivisionError "division by zero")
  end.
Proof.
  destruct y_children as [| c cs]; unfold information_gain.
  - unfold py_sum. simpl. f_equal. ring.
  - rewrite (py_sum_first_raises _ c cs (ZeroDivisionError "division by zero"));
      reflexivity.
Qed.

(** C4 as stated fails on a call without children: the parent is empty,
    no weight is computed, nothing divides by zero and the call returns. *)
Lemma information_gain_empty_parent_no_children :
  information_gain [] [] Entropy = Ok 0
  /\ information_gain [] [] Entropy <> Raise (ZeroDivisionError "division by zero").
Proof.
  assert (H : information_gain [] [] Entropy = Ok 0).
  { unfold information_gain, py_sum. simpl. f_equal. ring. }
  split; [exact H |]. rewrite H. discriminate.
Qed.

(** C9: for a non-empty label vector and any impurity metric, the split
    into a single child equal to the parent has information gain 0. *)
Theorem information_gain_single_child (imp : ImpurityMetric) (y : list Z) :
  y <> [] -> information_gain y [y] imp = Ok 0.
Proof.
  intros Hne. rewrite information_gain_spec by assumption.
  unfold spec_information_gain, Sigma. simpl.
  rewrite spec_weight_self by assumption. f_equal. ring.
Qed.

Lemma information_gain_single_child_witness :
  [0; 1; 0; 1]%Z <> []
  /\ information_gain [0; 1; 0; 1]%Z [[0; 1; 0; 1]%Z] GiniImpurity = Ok 0.
Proof.
  assert (Hne : [0; 1; 0; 1]%Z <> []) by discriminate.
  split; [exact Hne |].
  exact (information_gain_single_child GiniImpurity [0; 1; 0; 1]%Z Hne).
Defined.

(** *** The split information *)

Lemma npf_add_NaN_r (a : npfloat) : npf_add a NaN = NaN.
Proof. destruct a; reflexivity. Qed.

(** A generator whose terms are all numbers sums like [np_sum]. *)
Lemma npf_sum_from_Num {A : Type} (f : A -> result npfloat) (g : A -> R)
    (xs : list A) (acc : R) :
  (forall x, In x xs -> f x = Ok (Num (g x))) ->
  npf_sum_from f xs (Num acc) = Ok (Num (acc + np_sum (map g xs))).
Proof.
  revert acc. induction xs as [| x xs IH]; intros acc H; simpl.
  - do 2 f_equal. ring.
  - rewrite (H x) by now left. cbn [bind npf_add].
    rewrite IH by (intros y Hy; apply H; now right).
    do 2 f_equal. ring.
Qed.

Lemma npf_sum_Num {A : Type} (f : A -> result npfloat) (g : A -> R)
    (xs : list A) :
  (forall x, In x xs -> f x = Ok (Num (g x))) ->
  npf_sum f xs = Ok (Num (np_sum (map g xs))).
Proof.
  intros H. unfold npf_sum. rewrite (npf_sum_from_Num f g) by assumption.
  do 2 f_equal. ring.
Qed.

(** NaN is absorbing: once the running total is NaN it stays NaN, and one
    NaN term among terms that all return makes the sum NaN. *)
Lemma npf_sum_from_NaN {A : Type} (f : A -> result npfloat) (xs : list A) :
  (forall x, In x xs -> exists v, f x = Ok v) ->
  npf_sum_from f xs NaN = Ok NaN.
Proof.
  induction xs as [| x xs IH]; intros H; simpl; [reflexivity |].
  destruct (H x (or_introl eq_refl)) as [v ->]. cbn [bind npf_add].
  apply IH. intros y Hy. apply H. now right.
Qed.

Lemma npf_sum_from_with_NaN {A : Type} (f : A -> result npfloat)
    (xs : list A) (acc : npfloat) :
  (forall x, In x xs -> exists v, f x = Ok v) ->
  (exists x, In x xs /\ f x = Ok NaN) ->
  npf_sum_from f xs acc = Ok NaN.
Proof.
  revert acc. induction xs as [| x xs IH]; intros acc Hall (z & Hz & Hnan).
  - destruct Hz.
  - simpl. destruct Hz as [-> | Hz].
    + rewrite Hnan. cbn [bind]. rewrite npf_add_NaN_r.
      apply npf_sum_from_NaN. intros y Hy. apply Hall. now right.
    + destruct (Hall x (or_introl eq_refl)) as [v ->]. cbn [bind].
      apply IH; [intros y Hy; apply Hall; now right | now exists z].
Qed.

(** The term of the split information for one child of a non-empty parent:
    the number w·log2(w) for a non-empty child, and 0·(-inf) = NaN for an
    empty one. *)
Lemma split_info_term (y_parent child : list Z) :
  y_parent <> [] ->
  (w <- py_truediv (List.length child) (List.length y_parent) ;;
   w' <- py_truediv (List.length child) (List.length y_parent) ;;
   Ok (npf_mul (Num w) (npf_log2 w'))) =
  Ok (match child with
      | [] => NaN
      | _ :: _ => Num (spec_weight y_parent child
                       * np_log2 (spec_weight y_parent child))
      end).
Proof.
  intros Hne.
  assert (Hn : 0 < INR (List.length y_parent)).
  { apply lt_0_INR. apply length_nonempty in Hne. lia. }
  rewrite py_truediv_pos by now apply length_nonempty. cbn [bind].
  fold (spec_weight y_parent child).
  destruct child as [| c child].
  - assert (Hw : spec_weight y_parent [] = 0).
    { unfold spec_weight. simpl. unfold Rdiv. apply Rmult_0_l. }
    rewrite Hw. unfold npf_log2, npf_mul.
    destruct (Req_dec_T 0 0) as [_ | Hn0]; [reflexivity | contradiction].
  - assert (Hw : 0 < spec_weight y_parent (c :: child)).
    { unfold spec_weight. apply Rdiv_lt_0_compat; [| assumption].
      apply lt_0_INR. simpl. lia. }
    unfold npf_log2.
    destruct (Req_dec_T (spec_weight y_parent (c :: child)) 0); [lra |].
    destruct (Rlt_dec (spec_weight y_parent (c :: child)) 0); [lra |].
    reflexivity.
Qed.

(** For a non-empty parent whose children are all non-empty, [gain_ratio]
    returns the information gain divided by the split information
    -Σ w·log2(w), w = len(c)/len(y_parent), and 0 when the split
    information is 0. *)
Lemma gain_ratio_value (imp : ImpurityMetric) (y_parent : list Z)
    (y_children : list (list Z)) :
  y_parent <> [] ->
  (forall c, In c y_children -> c <> []) ->
  gain_ratio y_parent y_children imp =
  Ok (if Req_dec_T (spec_split_info y_parent y_children) 0 then 0
      else spec_information_gain (imp_call imp) y_parent y_children
           / spec_split_info y_parent y_children).
Proof.
  intros Hne Hcs. unfold gain_ratio.
  rewrite information_gain_spec by assumption. cbn [bind].
  rewrite (npf_sum_Num _ (fun child => spec_weight y_parent child
                                       * np_log2 (spec_weight y_parent child))).
  - cbn [bind npf_neg npf_ne]. rewrite (sum_map_Sigma []).
    fold (spec_split_info y_parent y_children).
    destruct (Req_dec_T (spec_split_info y_parent y_children) 0) as [H0 | Hn0];
      [reflexivity |].
    unfold npf_div.
    destruct (Req_dec_T (spec_split_info y_parent y_children) 0);
      [contradiction | reflexivity].
  - intros c Hc. rewrite split_info_term by assumption.
    destruct c; [now destruct (Hcs [] Hc) | reflexivity].
Qed.

(** The split into the single child equal to the parent has no split
    information, and its gain ratio is 0. *)
Lemma gain_ratio_single_child (imp : ImpurityMetric) (y_parent : list Z) :
  y_parent <> [] -> gain_ratio y_parent [y_parent] imp = Ok 0.
Proof.
  intros Hne. rewrite gain_ratio_value.
  - destruct (Req_dec_T (spec_split_info y_parent [y_parent]) 0) as [_ | Hn];
      [reflexivity |].
    exfalso. apply Hn. now apply spec_split_info_single.
  - assumption.
  - intros c [<- | []]. assumption.
Qed.

(** C5: with a non-empty parent and an empty child among the children,
    [gain_ratio] returns NaN, neither 0 nor a quotient of two numbers: the
    weight of the empty child is 0, [np.log2] of it is -inf, their product
    is NaN, the sum of the terms and the split information are NaN,
    [split_info != 0] holds of NaN, and the information gain divided by NaN
    is NaN.  No exception is raised. *)
Theorem gain_ratio_empty_child (imp : ImpurityMetric) (y_parent : list Z)
    (y_children : list (list Z)) :
  y_parent <> [] ->
  In [] y_children ->
  gain_ratio y_parent y_children imp = Ok NaN
  /\ gain_ratio y_parent y_children imp <> Ok (Num 0).
Proof.
  intros Hne Hin.
  assert (H : gain_ratio y_parent y_children imp = Ok NaN).
  { unfold gain_ratio.
    rewrite information_gain_spec by assumption. cbn [bind].
    unfold npf_sum. rewrite npf_sum_from_with_NaN.
    - reflexivity.
    - intros c _. rewrite split_info_term by assumption. now eexists.
    - exists []. split; [assumption |]. now rewrite split_info_term. }
  split; [exact H |]. rewrite H. discriminate.
Qed.

(** The parent [0, 1] split into the child [0, 1] and an empty child. *)
Lemma gain_ratio_empty_child_witness :
  [0; 1]%Z <> []
  /\ In [] [[0; 1]%Z; []]
  /\ gain_ratio [0; 1]%Z [[0; 1]%Z; []] Entropy = Ok NaN.
Proof.
  assert (Hne : [0; 1]%Z <> []) by discriminate.
  assert (Hin : In [] [[0; 1]%Z; []]) by (right; left; reflexivity).
  split; [exact Hne |]. split; [exact Hin |].
  exact (proj1 (gain_ratio_empty_child Entropy [0; 1]%Z [[0; 1]%Z; []]
                  Hne Hin)).
Defined.

(** ** [np.unique]: sorting and run lengths *)

Lemma sort_insert_perm (x : Z) (l : list Z) :
  Permutation (sort_insert x l) (x :: l).
Proof.
  induction l as [| h t IH]; simpl; [apply Permutation_refl |].
  destruct (x <=? h)%Z; [apply Permutation_refl |].
  eapply perm_trans; [apply perm_skip, IH | apply perm_swap].
Qed.

Lemma np_sort_perm (y : list Z) : Permutation (np_sort y) y.
Proof.
  induction y as [| x y IH]; simpl; [constructor |].
  eapply perm_trans; [apply sort_insert_perm | now apply perm_skip].
Qed.

Lemma sort_insert_sorted (x : Z) (l : list Z) :
  StronglySorted Z.le l -> StronglySorted Z.le (sort_insert x l).
Proof.
  induction 1 as [| h t Hs IH Hall]; simpl.
  - repeat constructor.
  - destruct (Z.leb_spec x h) as [Hle | Hgt].
    + constructor; [now constructor |].
      constructor; [assumption |].
      eapply Forall_impl; [| exact Hall]. intros z Hz. simpl in Hz. lia.
    + constructor; [assumption |].
      rewrite Forall_forall in *. intros z Hz.
      apply (Permutation_in _ (sort_insert_perm x t)) in Hz.
      destruct Hz as [<- | Hz]; [lia | now apply Hall].
Qed.

Lemma np_sort_sorted (y : list Z) : StronglySorted Z.le (np_sort y).
Proof.
  induction y as [| x y IH]; simpl; [constructor |].
  now apply sort_insert_sorted.
Qed.

(** The counts of the runs add up to the length. *)
Lemma run_lengths_total (l : list Z) :
  fold_right Nat.add O (map snd (run_lengths l)) = List.length l.
Proof.
  induction l as [| x t IH]; [reflexivity |].
  simpl. destruct (run_lengths t) as [| [k c] r]; simpl in *.
  - now rewrite <- IH.
  - destruct (x =? k)%Z; simpl; lia.
Qed.

(** The first run starts with the first element. *)
Lemma run_lengths_head (l : list Z) :
  match run_lengths l with
  | [] => l = []
  | (k, _) :: _ => exists t, l = k :: t
  end.
Proof.
  destruct l as [| x t]; [reflexivity |].
  simpl. destruct (run_lengths t) as [| [k c] r].
  - now exists t.
  - destruct (Z.eqb_spec x k) as [-> | _]; now exists t.
Qed.

Lemma run_lengths_keys_complete (l : list Z) (k : Z) :
  In k l -> In k (map fst (run_lengths l)).
Proof.
  induction l as [| x t IH]; [intros [] |].
  intros Hin. simpl.
  destruct (run_lengths t) as [| [k' c] r] eqn:E.
  - destruct Hin as [<- | Hin]; [now left | destruct (IH Hin)].
  - destruct (Z.eqb_spec x k') as [-> | Hne].
    + destruct Hin as [<- | Hin]; [now left | exact (IH Hin)].
    + destruct Hin as [<- | Hin]; [now left | right; exact (IH Hin)].
Qed.

(** On a sorted array the classes come out strictly increasing and each
    count is the number of occurrences of its class. *)
Lemma run_lengths_sorted (l : list Z) :
  StronglySorted Z.le l ->
  StronglySorted Z.lt (map fst (run_lengths l))
  /\ (forall k c, In (k, c) (run_lengths l) ->
                  In k l /\ c = count_occ Z.eq_dec l k).
Proof.
  induction 1 as [| x t Hs [IHs IHc] Hall].
  - split; [constructor | intros k c []].
  - pose proof (run_lengths_head t) as Hhead.
    cbn [run_lengths]. destruct (run_lengths t) as [| [k c] r] eqn:E.
    + subst t. split; [repeat constructor |].
      intros k c [[= <- <-] | []]. split; [now left |].
      symmetry. now apply count_occ_cons_eq.
    + destruct Hhead as [t' ->].
      assert (Hxk : (x <= k)%Z) by now inversion Hall.
      assert (Hkt : Forall (Z.le k) (k :: t')).
      { inversion Hs; subst. constructor; [lia | assumption]. }
      simpl in IHs. inversion IHs as [| ? ? Hsr Hkr]; subst.
      destruct (Z.eqb_spec x k) as [-> | Hne].
      * cbn [map fst]. split; [exact IHs |].
        intros k' c' [[= <- <-] | Hin].
        -- split; [now left |].
           destruct (IHc k c (or_introl eq_refl)) as [_ ->].
           symmetry. now apply count_occ_cons_eq.
        -- destruct (IHc k' c' (or_intror Hin)) as [Hk' ->].
           split; [now right |].
           symmetry. apply count_occ_cons_neq.
           rewrite Forall_forall in Hkr.
           assert (k < k')%Z by (apply Hkr; apply in_map_iff; now exists (k', count_occ Z.eq_dec (k :: t') k')).
           lia.
      * assert (Hlt : (x < k)%Z) by lia.
        split.
        -- cbn [map fst]. constructor; [exact IHs |].
           constructor; [exact Hlt |].
           eapply Forall_impl; [| exact Hkr]. intros z Hz. simpl in Hz. lia.
        -- intros k' c' [[= <- <-] | Hin].
           ++ split; [now left |].
              rewrite count_occ_cons_eq by reflexivity. f_equal.
              symmetry. apply count_occ_not_In. intros Hx.
              rewrite Forall_forall in Hkt. apply Hkt in Hx. lia.
           ++ destruct (IHc k' c' Hin) as [Hk' ->].
              split; [now right |].
              symmetry. apply count_occ_cons_neq.
              rewrite Forall_forall in Hkt. apply Hkt in Hk'. lia.
Qed.

Lemma StronglySorted_lt_NoDup (l : list Z) : StronglySorted Z.lt l -> NoDup l.
Proof.
  induction 1 as [| x t Hs IH Hall]; constructor; [| assumption].
  intros Hin. rewrite Forall_forall in Hall. apply Hall in Hin. lia.
Qed.

Lemma classes_NoDup (y : list Z) : NoDup (classes y).
Proof.
  unfold classes, np_unique_counts. simpl.
  apply StronglySorted_lt_NoDup.
  apply run_lengths_sorted, np_sort_sorted.
Qed.

Lemma classes_In (y : list Z) (k : Z) : In k (classes y) <-> In k y.
Proof.
  unfold classes, np_unique_counts. simpl. split.
  - intros Hin. apply in_map_iff in Hin. destruct Hin as [[k' c] [<- Hin]].
    apply (run_lengths_sorted _ (np_sort_sorted y)) in Hin.
    destruct Hin as [Hin _].
    exact (Permutation_in _ (np_sort_perm y) Hin).
  - intros Hin. apply run_lengths_keys_complete.
    exact (Permutation_in _ (Permutation_sym (np_sort_perm y)) Hin).
Qed.

Lemma classes_length (y : list Z) : List.length (classes y) = n_distinct y.
Proof.
  unfold n_distinct. apply Permutation_length.
  apply NoDup_Permutation.
  - apply classes_NoDup.
  - apply NoDup_nodup.
  - intros k. rewrite classes_In, nodup_In. reflexivity.
Qed.

(** The counts [np.unique] returns are the occurrence counts of its
    classes. *)
Lemma counts_spec (y : list Z) :
  snd (np_unique_counts y) = map (count_occ Z.eq_dec y) (classes y).
Proof.
  unfold classes, np_unique_counts. simpl. rewrite map_map.
  apply map_ext_in. intros [k c] Hin. simpl.
  apply (run_lengths_sorted _ (np_sort_sorted y)) in Hin.
  destruct Hin as [_ ->].
  apply Permutation_count_occ, np_sort_perm.
Qed.

Lemma counts_total (y : list Z) :
  fold_right Nat.add O (snd (np_unique_counts y)) = List.length y.
Proof.
  unfold np_unique_counts. simpl. rewrite run_lengths_total.
  apply Permutation_length, np_sort_perm.
Qed.

Lemma n_distinct_nonempty (y : list Z) : y <> [] -> (1 <= n_distinct y)%nat.
Proof.
  destruct y as [| x y]; [congruence |]. intros _. unfold n_distinct.
  assert (Hin : In x (nodup Z.eq_dec (x :: y))) by (apply nodup_In; now left).
  destruct (nodup Z.eq_dec (x :: y)); [destruct Hin | simpl; lia].
Qed.

(** ** Class proportions *)

Lemma compute_proportions_empty : compute_proportions [] = [].
Proof. reflexivity. Qed.

Lemma compute_proportions_counts (y : list Z) :
  y <> [] ->
  compute_proportions y =
  map (fun c => INR c / INR (List.length y)) (snd (np_unique_counts y)).
Proof.
  intros Hne. unfold compute_proportions.
  destruct y as [| x y]; [congruence |].
  cbn [List.length Nat.eqb]. destruct (np_unique_counts (x :: y)). reflexivity.
Qed.

Lemma compute_proportions_classes (y : list Z) :
  y <> [] ->
  compute_proportions y =
  map (fun k => INR (count_occ Z.eq_dec y k) / INR (List.length y)) (classes y).
Proof.
  intros Hne. rewrite compute_proportions_counts by assumption.
  rewrite counts_spec, map_map. reflexivity.
Qed.

Lemma np_sum_scaled_counts (n : R) (counts : list nat) :
  np_sum (map (fun c => INR c / n) counts) =
  INR (fold_right Nat.add O counts) / n.
Proof.
  induction counts as [| c cs IH]; simpl.
  - unfold Rdiv. now rewrite Rmult_0_l.
  - rewrite IH, plus_INR. unfold Rdiv. ring.
Qed.

Lemma compute_proportions_facts (y : list Z) :
  y <> [] ->
  List.length (compute_proportions y) = n_distinct y
  /\ Forall is_proportion (compute_proportions y)
  /\ np_sum (compute_proportions y) = 1.
Proof.
  intros Hne.
  assert (Hn : 0 < INR (List.length y)).
  { apply lt_0_INR. apply length_nonempty in Hne. lia. }
  split; [| split].
  - rewrite compute_proportions_classes by assumption.
    rewrite length_map. apply classes_length.
  - rewrite compute_proportions_classes by assumption.
    apply Forall_forall. intros p Hp. apply in_map_iff in Hp.
    destruct Hp as [k [<- Hk]]. apply (proj1 (classes_In y k)) in Hk.
    assert (Hpos : (0 < count_occ Z.eq_dec y k)%nat)
      by exact (proj1 (count_occ_In Z.eq_dec y k) Hk).
    pose proof (count_occ_bound Z.eq_dec k y) as Hle.
    apply lt_INR in Hpos. apply le_INR in Hle. simpl in Hpos.
    unfold is_proportion. split.
    + apply Rdiv_lt_0_compat; assumption.
    + apply (Rmult_le_reg_r (INR (List.length y))); [assumption |].
      unfold Rdiv. rewrite Rmult_assoc, Rinv_l by lra. lra.
  - rewrite compute_proportions_counts by assumption.
    rewrite np_sum_scaled_counts, counts_total. field. lra.
Qed.

(** C8: for a non-empty label vector with [n_distinct y] distinct values,
    [compute_proportions] returns that many entries, one per distinct value
    k (its count over the length, the values taken without repetition), each
    in (0, 1], so none is zero, and together they sum to 1; for the empty
    vector it returns the empty vector. *)
Theorem class_proportions (y : list Z) :
  y <> [] ->
  List.length (compute_proportions y) = n_distinct y
  /\ compute_proportions y =
     map (fun k => INR (count_occ Z.eq_dec y k) / INR (List.length y)) (classes y)
  /\ NoDup (classes y)
  /\ (forall k, In k (classes y) <-> In k y)
  /\ Forall is_proportion (compute_proportions y)
  /\ np_sum (compute_proportions y) = 1
  /\ compute_proportions [] = [].
Proof.
  intros Hne.
  destruct (compute_proportions_facts y Hne) as (Hlen & Hprop & Hsum).
  repeat split; try assumption.
  - now apply compute_proportions_classes.
  - apply classes_NoDup.
  - apply classes_In.
  - apply classes_In.
Qed.

(** Labels [2,1,2,2]: two classes, proportions 1/4 and 3/4. *)
Lemma class_proportions_witness :
  [2; 1; 2; 2]%Z <> []
  /\ List.length (compute_proportions [2; 1; 2; 2]%Z) = 2%nat
  /\ np_sum (compute_proportions [2; 1; 2; 2]%Z) = 1.
Proof.
  assert (Hne : [2; 1; 2; 2]%Z <> []) by discriminate.
  destruct (class_proportions [2; 1; 2; 2]%Z Hne)
    as (Hlen & _ & _ & _ & _ & Hsum & _).
  split; [exact Hne |]. split; [exact Hlen | exact Hsum].
Defined.

(** ** Vectors of proportions *)

Lemma np_sum_pos_bound (l : list R) (p : R) :
  Forall (fun x => 0 < x) l -> In p l -> p <= np_sum l.
Proof.
  induction 1 as [| x t Hx Ht IH]; intros Hin; [destruct Hin |].
  assert (Hsum : 0 <= np_sum t).
  { clear - Ht. induction Ht as [| z t Hz _ IH]; simpl; lra. }
  simpl. destruct Hin as [<- | Hin]; [lra | specialize (IH Hin); lra].
Qed.

(** Two or more positive numbers: each is below the sum. *)
Lemma np_sum_pos_strict (l : list R) (p : R) :
  Forall (fun x => 0 < x) l -> (2 <= List.length l)%nat -> In p l ->
  p < np_sum l.
Proof.
  intros Hall Hlen Hin.
  destruct l as [| x [| x' t]]; simpl in Hlen; try lia.
  inversion Hall as [| ? ? Hx Ht]; subst.
  inversion Ht as [| ? ? Hx' Ht']; subst.
  change (np_sum (x :: x' :: t)) with (x + np_sum (x' :: t)).
  pose proof (np_sum_pos_bound (x' :: t) x' Ht (or_introl eq_refl)) as Hb.
  destruct Hin as [<- | Hin]; [lra |].
  pose proof (np_sum_pos_bound (x' :: t) p Ht Hin). lra.
Qed.

Lemma proportions_positive (ps : list R) :
  Forall is_proportion ps -> Forall (fun x => 0 < x) ps.
Proof. apply Forall_impl. intros p [Hp _]. exact Hp. Qed.

(** One proportion that sums to 1 is 1. *)
Lemma proportions_single (ps : list R) :
  List.length ps = 1%nat -> np_sum ps = 1 -> ps = [1].
Proof.
  destruct ps as [| p [| q t]]; simpl; intros Hlen Hsum; try discriminate.
  f_equal. lra.
Qed.

(** Two or more proportions that sum to 1 are all below 1. *)
Lemma proportions_several (ps : list R) :
  Forall is_proportion ps -> np_sum ps = 1 -> (2 <= List.length ps)%nat ->
  Forall (fun p => 0 < p < 1) ps.
Proof.
  intros Hall Hsum Hlen. apply Forall_forall. intros p Hin.
  split.
  - rewrite Forall_forall in Hall. now apply Hall.
  - rewrite <- Hsum. apply np_sum_pos_strict; auto using proportions_positive.
Qed.

Lemma np_sum_map_le (g h : R -> R) (P : R -> Prop) (l : list R) :
  (forall x, P x -> g x <= h x) -> Forall P l ->
  np_sum (map g l) <= np_sum (map h l).
Proof.
  intros Hgh. induction 1 as [| x t Hx _ IH]; simpl; [lra |].
  specialize (Hgh x Hx). lra.
Qed.

Lemma np_sum_map_lt (g h : R -> R) (P : R -> Prop) (l : list R) :
  (forall x, P x -> g x < h x) -> Forall P l -> l <> [] ->
  np_sum (map g l) < np_sum (map h l).
Proof.
  intros Hgh Hall Hne.
  destruct Hall as [| x t Hx Ht]; [congruence |].
  simpl. pose proof (Hgh x Hx).
  assert (np_sum (map g t) <= np_sum (map h t)).
  { apply (np_sum_map_le g h P); [| assumption].
    intros z Hz. apply Rlt_le. now apply Hgh. }
  lra.
Qed.

Lemma np_max_In (x : R) (xs : list R) : In (np_max (x :: xs)) (x :: xs).
Proof.
  simpl. revert x. induction xs as [| z xs IH]; intros x; simpl; [now left |].
  destruct (IH (Rmax x z)) as [H | H].
  - rewrite <- H. unfold Rmax. destruct (Rle_dec x z); auto.
  - auto.
Qed.

Lemma select_pos_all (ps : list R) :
  Forall (fun x => 0 < x) ps -> np_select_pos ps = ps.
Proof.
  induction 1 as [| p t Hp _ IH]; [reflexivity |].
  unfold np_select_pos in *. simpl.
  destruct (Rlt_dec 0 p); [now rewrite IH | contradiction].
Qed.

Lemma np_mul_map (g : R -> R) (l : list R) :
  np_mul l (map g l) = map (fun x => x * g x) l.
Proof.
  unfold np_mul. induction l as [| x t IH]; simpl; [reflexivity |].
  now rewrite IH.
Qed.

Lemma ln_2_pos : 0 < ln 2.
Proof. pose proof ln_lt_2. lra. Qed.

Lemma plogp_nonpos (p : R) : is_proportion p -> p * np_log2 p <= 0.
Proof.
  intros [Hp Hle]. unfold np_log2.
  assert (Hln : ln p <= 0).
  { destruct Hle as [Hlt | ->]; [| rewrite ln_1; lra].
    pose proof (ln_increasing p 1 Hp Hlt) as H. rewrite ln_1 in H. lra. }
  pose proof ln_2_pos as H2.
  assert (Hq : ln p / ln 2 <= 0).
  { unfold Rdiv. pose proof (Rinv_0_lt_compat _ H2). nra. }
  nra.
Qed.

Lemma plogp_neg (p : R) : 0 < p < 1 -> p * np_log2 p < 0.
Proof.
  intros [Hp Hlt]. unfold np_log2.
  pose proof (ln_increasing p 1 Hp Hlt) as Hln. rewrite ln_1 in Hln.
  pose proof ln_2_pos as H2.
  assert (Hq : ln p / ln 2 < 0).
  { unfold Rdiv. pose proof (Rinv_0_lt_compat _ H2). nra. }
  nra.
Qed.

(** ** Impurity of a vector of proportions *)

Section Proportions.

Variable ps : list R.
Hypothesis Hall : Forall is_proportion ps.
Hypothesis Hsum : np_sum ps = 1.

Lemma proportions_cases :
    ps = [1] \/ ((2 <= List.length ps)%nat /\ Forall (fun p => 0 < p < 1) ps).
  Proof.
    destruct ps as [| p [| q t]] eqn:E.
    - simpl in Hsum. lra.
    - left. apply proportions_single; [reflexivity | assumption].
    - right. assert (Hlen : (2 <= List.length (p :: q :: t))%nat) by (simpl; lia).
      split; [exact Hlen |]. now apply proportions_several.
  Qed.

Lemma entropy_of_proportions :
    let h := - np_sum (np_mul (np_select_pos ps) (map np_log2 (np_select_pos ps))) in
    0 <= h /\ (h = 0 <-> List.length ps = 1%nat).
  Proof.
    rewrite (select_pos_all ps) by now apply proportions_positive.
    rewrite np_mul_map. cbv zeta.
    assert (Hle : np_sum (map (fun p => p * np_log2 p) ps) <= 0).
    { replace 0 with (np_sum (map (fun _ : R => 0) ps)).
      - apply (np_sum_map_le _ _ is_proportion); [| assumption].
        intros p Hp. now apply plogp_nonpos.
      - clear. induction ps as [| x t IH]; simpl; [reflexivity | lra]. }
    split; [lra |].
    destruct proportions_cases as [-> | [Hlen Hlt]].
    - simpl. rewrite np_log2_1. split; [reflexivity | intros _; ring].
    - split; [| intros H1; lia].
      intros H0. exfalso.
      assert (Hneg : np_sum (map (fun p => p * np_log2 p) ps)
                     < np_sum (map (fun _ : R => 0) ps)).
      { apply (np_sum_map_lt _ _ (fun p => 0 < p < 1)); [| assumption |].
        - intros p Hp. now apply plogp_neg.
        - intros ->. simpl in Hlen. lia. }
      assert (Hz : np_sum (map (fun _ : R => 0) ps) = 0).
      { clear. induction ps as [| x t IH]; simpl; [reflexivity | lra]. }
      lra.
  Qed.

Lemma gini_of_proportions :
    let g := 1 - np_sum (np_square ps) in
    0 <= g /\ (g = 0 <-> List.length ps = 1%nat).
  Proof.
    cbv zeta. unfold np_square.
    assert (Hid : np_sum (map (fun x => x) ps) = 1) by now rewrite map_id.
    assert (Hle : np_sum (map (fun x => x * x) ps) <= 1).
    { rewrite <- Hid. apply (np_sum_map_le _ _ is_proportion); [| assumption].
      intros p [Hp Hp1]. nra. }
    split; [lra |].
    destruct proportions_cases as [-> | [Hlen Hlt]].
    - simpl. split; [reflexivity | intros _; ring].
    - split; [| intros H1; lia].
      intros H0. exfalso.
      assert (Hs : np_sum (map (fun x => x * x) ps) < np_sum (map (fun x => x) ps)).
      { apply (np_sum_map_lt _ _ (fun p => 0 < p < 1)); [| assumption |].
        - intros p [Hp Hp1]. nra.
        - intros ->. simpl in Hlen. lia. }
      lra.
  Qed.

Lemma misclassification_of_proportions :
    let m := if (0 <? List.length ps)%nat then 1 - np_max ps else 0 in
    0 <= m /\ (m = 0 <-> List.length ps = 1%nat).
  Proof.
    cbv zeta.
    destruct proportions_cases as [-> | [Hlen Hlt]].
    - simpl. split; [lra |]. split; [reflexivity | intros _; ring].
    - destruct ps as [| p t] eqn:E; [simpl in Hlen; lia |].
      cbn [List.length Nat.ltb Nat.leb].
      pose proof (np_max_In p t) as Hin.
      rewrite Forall_forall in Hlt. apply Hlt in Hin.
      split; [lra |]. split; [intros H0; lra | intros H1; simpl in *; lia].
  Qed.

End Proportions.

(** ** Impurity metrics *)

Lemma n_distinct_empty : n_distinct [] = O.
Proof. reflexivity. Qed.

Lemma single_class_iff (y : list Z) :
  y <> [] ->
  (List.length (compute_proportions y) = 1%nat <-> (n_distinct y <= 1)%nat).
Proof.
  intros Hne. destruct (compute_proportions_facts y Hne) as (-> & _ & _).
  pose proof (n_distinct_nonempty y Hne). lia.
Qed.

(** At most one distinct value: any two labels of the vector are equal. *)
Lemma n_distinct_le_1 (y : list Z) :
  (n_distinct y <= 1)%nat <-> all_identical y.
Proof.
  unfold n_distinct, all_identical. split.
  - intros Hlen x x' Hx Hx'.
    apply (nodup_In Z.eq_dec) in Hx. apply (nodup_In Z.eq_dec) in Hx'.
    destruct (nodup Z.eq_dec y) as [| a [| b t]]; simpl in *;
      lia || contradiction.
  - intros Hsame.
    pose proof (NoDup_nodup Z.eq_dec y) as Hnd.
    destruct (nodup Z.eq_dec y) as [| a [| b t]] eqn:E; simpl; try lia.
    exfalso.
    assert (Ha : In a y) by (apply (nodup_In Z.eq_dec); rewrite E; simpl; auto).
    assert (Hb : In b y) by (apply (nodup_In Z.eq_dec); rewrite E; simpl; auto).
    rewrite (Hsame a b Ha Hb) in Hnd.
    inversion Hnd as [| ? ? Hnot _]; subst. apply Hnot. now left.
Qed.

Lemma entropy_empty : imp_call Entropy [] = 0.
Proof. simpl. ring. Qed.

Lemma misclassification_empty : imp_call MisclassificationError [] = 0.
Proof. reflexivity. Qed.

(** Entropy is never negative, and is 0 exactly on the empty and the
    single-class label vectors. *)
Lemma entropy_impurity (y : list Z) :
  0 <= imp_call Entropy y
  /\ (imp_call Entropy y = 0 <-> (n_distinct y <= 1)%nat).
Proof.
  destruct y as [| x y'] eqn:E.
  - rewrite entropy_empty, n_distinct_empty. split; [lra |].
    split; [lia | reflexivity].
  - rewrite <- E. assert (Hne : y <> []) by (rewrite E; discriminate).
    destruct (compute_proportions_facts y Hne) as (_ & Hall & Hsum).
    rewrite <- (single_class_iff y Hne).
    exact (entropy_of_proportions _ Hall Hsum).
Qed.

(** The misclassification error is never negative, and is 0 exactly on the
    empty and the single-class label vectors. *)
Lemma misclassification_impurity (y : list Z) :
  0 <= imp_call MisclassificationError y
  /\ (imp_call MisclassificationError y = 0 <-> (n_distinct y <= 1)%nat).
Proof.
  destruct y as [| x y'] eqn:E.
  - rewrite misclassification_empty, n_distinct_empty. split; [lra |].
    split; [lia | reflexivity].
  - rewrite <- E. assert (Hne : y <> []) by (rewrite E; discriminate).
    destruct (compute_proportions_facts y Hne) as (_ & Hall & Hsum).
    rewrite <- (single_class_iff y Hne).
    exact (misclassification_of_proportions _ Hall Hsum).
Qed.

(** On a non-empty label vector the Gini impurity is never negative and is
    0 exactly when the vector has a single class. *)
Lemma gini_impurity_nonempty (y : list Z) :
  y <> [] ->
  0 <= imp_call GiniImpurity y
  /\ (imp_call GiniImpurity y = 0 <-> (n_distinct y <= 1)%nat).
Proof.
  intros Hne.
  destruct (compute_proportions_facts y Hne) as (_ & Hall & Hsum).
  rewrite <- (single_class_iff y Hne).
  exact (gini_of_proportions _ Hall Hsum).
Qed.

(** C3 at the empty label vector: the proportions are empty, so the Gini
    impurity is 1 - 0 = 1 and not 0, while the entropy and the
    misclassification error (which has a branch for this case) are 0 there. *)
Theorem gini_impurity_empty :
  imp_call GiniImpurity [] = 1
  /\ imp_call GiniImpurity [] <> 0
  /\ n_distinct [] = O
  /\ imp_call Entropy [] = 0
  /\ imp_call MisclassificationError [] = 0.
Proof.
  assert (Hg : imp_call GiniImpurity [] = 1) by (simpl; ring).
  split; [exact Hg |]. split; [rewrite Hg; lra |].
  split; [reflexivity |].
  split; [apply entropy_empty | apply misclassification_empty].
Qed.

(** ** Dictionaries *)

Section DictLemmas.

Context {V : Type}.
Implicit Types (d : dict V) (k : string) (v : V).

Lemma get_set_eq d k v : PyDict.get (PyDict.set d k v) k = Some v.
  Proof.
    induction d as [| [k' v'] d IH]; simpl.
    - now rewrite String.eqb_refl.
    - destruct (String.eqb k k') eqn:E; simpl; rewrite E; [reflexivity | exact IH].
  Qed.

Lemma get_set_neq d k k' v :
    k <> k' -> PyDict.get (PyDict.set d k v) k' = PyDict.get d k'.
  Proof.
    intros Hne. induction d as [| [k0 v0] d IH]; simpl.
    - destruct (String.eqb_spec k' k); [congruence | reflexivity].
    - destruct (String.eqb_spec k k0) as [-> | Hk]; simpl.
      + destruct (String.eqb_spec k' k0); [congruence | reflexivity].
      + now rewrite IH.
  Qed.

Lemma get_Some_In d k v : PyDict.get d k = Some v -> In k (PyDict.keys d).
  Proof.
    induction d as [| [k' v'] d IH]; simpl; [discriminate |].
    destruct (String.eqb_spec k k') as [-> | _]; [now left |].
    intros H. right. now apply IH.
  Qed.

Lemma In_get_Some d k : In k (PyDict.keys d) -> exists v, PyDict.get d k = Some v.
  Proof.
    induction d as [| [k' v'] d IH]; simpl; [intros [] |].
    destruct (String.eqb_spec k k') as [-> | Hne].
    - intros _. now exists v'.
    - intros [H | H]; [congruence | now apply IH].
  Qed.

  (** Storing under a key the dictionary has keeps the keys as they are. *)
Lemma keys_set_present d k v :
    In k (PyDict.keys d) -> PyDict.keys (PyDict.set d k v) = PyDict.keys d.
  Proof.
    induction d as [| [k' v'] d IH]; simpl; [intros [] |].
    destruct (String.eqb_spec k k') as [-> | Hne]; [reflexivity |].
    intros [H | H]; [congruence |]. simpl. f_equal. now apply IH.
  Qed.

  (** Storing under a new key puts it last. *)
Lemma keys_set_absent d k v :
    ~ In k (PyDict.keys d) ->
    PyDict.keys (PyDict.set d k v) = (PyDict.keys d ++ [k])%list.
  Proof.
    induction d as [| [k' v'] d IH]; simpl; [reflexivity |].
    intros Hnot. destruct (String.eqb_spec k k') as [-> | Hne].
    - exfalso. apply Hnot. now left.
    - simpl. f_equal. apply IH. intros H. apply Hnot. now right.
  Qed.

Lemma keys_set_In d k v k' :
    In k' (PyDict.keys (PyDict.set d k v)) <-> k' = k \/ In k' (PyDict.keys d).
  Proof.
    destruct (in_dec string_dec k (PyDict.keys d)) as [Hin | Hnot].
    - rewrite keys_set_present by assumption.
      split; [now right | intros [-> | H]; assumption].
    - rewrite keys_set_absent by assumption. rewrite in_app_iff. simpl.
      split; [intros [H | [H | []]]; auto | intros [-> | H]; auto].
  Qed.

Lemma keys_set_NoDup d k v :
    NoDup (PyDict.keys d) -> NoDup (PyDict.keys (PyDict.set d k v)).
  Proof.
    intros Hnd. destruct (in_dec string_dec k (PyDict.keys d)) as [Hin | Hnot].
    - now rewrite keys_set_present.
    - rewrite keys_set_absent by assumption.
      apply NoDup_app; [assumption | repeat constructor; intros [] |].
      intros x Hx [<- | []]. contradiction.
  Qed.

End DictLemmas.

(** ** The aggregator *)

Lemma empty_histories_keys (ms : list Metric) (d : dict (list R)) (k : string) :
  In k (PyDict.keys (fold_left (fun d m => PyDict.set d (name m) []) ms d))
  <-> In k (PyDict.keys d) \/ In k (map name ms).
Proof.
  revert d. induction ms as [| m ms IH]; intros d; simpl; [tauto |].
  rewrite IH, keys_set_In. intuition auto.
Qed.

Lemma empty_histories_NoDup (ms : list Metric) (d : dict (list R)) :
  NoDup (PyDict.keys d) ->
  NoDup (PyDict.keys (fold_left (fun d m => PyDict.set d (name m) []) ms d)).
Proof.
  revert d. induction ms as [| m ms IH]; intros d Hnd; simpl; [assumption |].
  apply IH. now apply keys_set_NoDup.
Qed.

Lemma init_well_keyed (ids : list identifier) (self : MetricList) :
  MetricList_init ids = Ok self -> well_keyed (metrics self) (history self).
Proof.
  unfold MetricList_init. destruct (get_metrics ids) as [ms | e]; simpl;
    [| discriminate].
  intros [= <-]. simpl. split.
  - intros m Hm. apply empty_histories_keys. right. now apply in_map.
  - apply empty_histories_NoDup. constructor.
Qed.

Section OneCall.

Variables y_true y_pred : pyobj.

Lemma try_metric_returns (m : Metric) (h : dict (list R)) (s : R)
      (old : list R) :
    call m y_true y_pred = Ok s ->
    PyDict.get h (name m) = Some old ->
    try_metric m y_true y_pred h =
    Ok (PyDict.set h (name m) (old ++ [s])%list, s).
  Proof. intros Hc Hg. unfold try_metric. now rewrite Hc, Hg. Qed.

Lemma try_metric_raises (m : Metric) (h : dict (list R)) (e : exn) :
    call m y_true y_pred = Raise e ->
    try_metric m y_true y_pred h = Raise e.
  Proof. intros Hc. unfold try_metric. now rewrite Hc. Qed.

Lemma try_metric_keys (m : Metric) (h h' : dict (list R)) (s : R) :
    try_metric m y_true y_pred h = Ok (h', s) ->
    PyDict.keys h' = PyDict.keys h.
  Proof.
    unfold try_metric. destruct (call m y_true y_pred) as [s' | e]; simpl;
      [| discriminate].
    destruct (PyDict.get h (name m)) as [old |] eqn:Hg; [| discriminate].
    intros [= <- _]. apply keys_set_present. eapply get_Some_In, Hg.
  Qed.

  (** A call never adds, drops or reorders the keys of the histories. *)
Lemma loop_keys (ms : list Metric) (h : dict (list R))
      (results : dict (option R)) :
    PyDict.keys (fst (MetricList_loop ms y_true y_pred h results)) =
    PyDict.keys h.
  Proof.
    revert h results. induction ms as [| m ms IH]; intros h results; simpl;
      [reflexivity |].
    destruct (try_metric m y_true y_pred h) as [[h' s] | e] eqn:Ht.
    - rewrite IH. eapply try_metric_keys, Ht.
    - destruct (is_Exception e); [apply IH | reflexivity].
  Qed.

Lemma named_cons_same (m : Metric) (ms : list Metric) :
    named (name m) (m :: ms) = m :: named (name m) ms.
  Proof. unfold named. simpl. now rewrite String.eqb_refl. Qed.

Lemma named_cons_other (n : string) (m : Metric) (ms : list Metric) :
    name m <> n -> named n (m :: ms) = named n ms.
  Proof.
    intros Hne. unfold named. simpl.
    destruct (String.eqb_spec (name m) n); [contradiction | reflexivity].
  Qed.

Lemma last_cons_default {A : Type} (l : list A) (a d : A) :
    last (a :: l) d = last l a.
  Proof.
    revert a d. induction l as [| b l IH]; intros a d; [reflexivity |].
    change (last (a :: b :: l) d) with (last (b :: l) d).
    now rewrite !IH.
  Qed.

  (** One more metric in front: what the returned mapping holds under a
    name once the rest of the loop has run. *)
Lemma results_step (results results' : dict (option R)) (m : Metric)
    (ms : list Metric) (n : string) :
  PyDict.get results' n =
    match named n ms with
    | [] => PyDict.get (PyDict.set results (name m) (outcome y_true y_pred m)) n
    | m0 :: l => Some (outcome y_true y_pred (last l m0))
    end ->
  PyDict.get results' n =
    match named n (m :: ms) with
    | [] => PyDict.get results n
    | m0 :: l => Some (outcome y_true y_pred (last l m0))
    end.
Proof.
  intros ->. destruct (string_dec (name m) n) as [<- | Hne].
  - rewrite named_cons_same.
    destruct (named (name m) ms) as [| m1 l]; cbv iota.
    + now rewrite get_set_eq.
    + now rewrite last_cons_default.
  - rewrite named_cons_other by assumption. now rewrite get_set_neq.
Qed.

(** What the loop leaves behind, name by name: under each name the scores
      of the metrics of that name that returned are appended in list order,
      and the returned mapping holds what the last metric of that name
      gave. *)
Lemma loop_spec (ms : list Metric) :
    raises_only_errors ms y_true y_pred ->
    forall (h : dict (list R)) (results : dict (option R)),
      (forall m, In m ms -> In (name m) (PyDict.keys h)) ->
      exists h' results',
        MetricList_loop ms y_true y_pred h results = (h', Ok results')
        /\ (forall n,
               PyDict.get h' n =
               option_map
                 (fun old => (old ++ scores_of y_true y_pred (named n ms))%list)
                 (PyDict.get h n))
        /\ (forall n,
               PyDict.get results' n =
               match named n ms with
               | [] => PyDict.get results n
               | m0 :: l => Some (outcome y_true y_pred (last l m0))
               end)
        /\ (NoDup (PyDict.keys results) -> NoDup (PyDict.keys results')).
  Proof.
    induction ms as [| m ms IH]; intros Herr h results Hkeys.
    - exists h, results. simpl. repeat split; [| auto].
      intros n. destruct (PyDict.get h n); simpl; [| reflexivity].
      now rewrite app_nil_r.
    - assert (Herr' : raises_only_errors ms y_true y_pred).
      { intros m' e Hm'. apply Herr. now right. }
      destruct (In_get_Some h (name m) (Hkeys m (or_introl eq_refl)))
        as [old Hold].
      simpl MetricList_loop.
      destruct (call m y_true y_pred) as [s | e] eqn:Hcall.
      + rewrite (try_metric_returns m h s old Hcall Hold).
        set (h1 := PyDict.set h (name m) (old ++ [s])%list).
        set (r1 := PyDict.set results (name m) (Some s)).
        destruct (IH Herr' h1 r1) as (h' & results' & Hloop & Hh & Hr & Hnd).
        { intros m' Hm'. unfold h1. rewrite keys_set_present.
          - apply Hkeys. now right.
          - eapply get_Some_In, Hold. }
        exists h', results'. split; [exact Hloop |]. split; [| split].
        * intros n. rewrite Hh. destruct (string_dec (name m) n) as [<- | Hne].
          -- unfold h1. rewrite get_set_eq, Hold, named_cons_same. simpl.
             rewrite Hcall. now rewrite <- app_assoc.
          -- unfold h1. rewrite get_set_neq by assumption.
             now rewrite named_cons_other.
        * intros n. apply results_step. rewrite Hr. unfold r1, outcome.
          now rewrite Hcall.
        * intros H. apply Hnd. unfold r1. now apply keys_set_NoDup.
      + rewrite (try_metric_raises m h e Hcall).
        rewrite (Herr m e (or_introl eq_refl) Hcall).
        set (r1 := PyDict.set results (name m) None).
        destruct (IH Herr' h r1) as (h' & results' & Hloop & Hh & Hr & Hnd).
        { intros m' Hm'. apply Hkeys. now right. }
        exists h', results'. split; [exact Hloop |]. split; [| split].
        * intros n. rewrite Hh. destruct (string_dec (name m) n) as [<- | Hne].
          -- rewrite named_cons_same. simpl. now rewrite Hcall.
          -- now rewrite named_cons_other.
        * intros n. apply results_step. rewrite Hr. unfold r1, outcome.
          now rewrite Hcall.
        * intros H. apply Hnd. unfold r1. now apply keys_set_NoDup.
  Qed.

End OneCall.

Lemma MetricList_call_unfold (self : MetricList) (y_true y_pred : pyobj) :
  MetricList_call self y_true y_pred =
  ({| metrics := metrics self;
      history := fst (MetricList_loop (metrics self) y_true y_pred
                        (history self) []) |},
   snd (MetricList_loop (metrics self) y_true y_pred (history self) [])).
Proof.
  unfold MetricList_call.
  now destruct (MetricList_loop (metrics self) y_true y_pred (history self) []).
Qed.

(** Every aggregator keeps one history per metric name. *)
Lemma aggregator_well_keyed (self : MetricList) :
  aggregator self -> well_keyed (metrics self) (history self).
Proof.
  induction 1 as [ids self Hinit | self y_true y_pred _ [Hkeys Hnd]].
  - now apply (init_well_keyed ids).
  - rewrite MetricList_call_unfold. cbn [fst metrics history].
    unfold well_keyed. rewrite loop_keys. now split.
Qed.

Lemma named_absent (n : string) (ms : list Metric) :
  ~ In n (map name ms) -> named n ms = [].
Proof.
  induction ms as [| m ms IH]; intros Hnot; [reflexivity |].
  rewrite named_cons_other.
  - apply IH. intros H. apply Hnot. now right.
  - intros H. apply Hnot. now left.
Qed.

Lemma named_alone (pre post : list Metric) (m : Metric) :
  ~ In (name m) (map name (pre ++ post)) ->
  named (name m) (pre ++ m :: post) = [m].
Proof.
  intros Hnot. rewrite map_app, in_app_iff in Hnot.
  unfold named. rewrite filter_app. fold (named (name m) pre).
  change (filter (fun m0 => String.eqb (name m0) (name m)) (m :: post))
    with (named (name m) (m :: post)).
  rewrite named_cons_same, !named_absent by tauto. reflexivity.
Qed.

Lemma named_In (n : string) (ms : list Metric) (m : Metric) :
  In m (named n ms) <-> In m ms /\ name m = n.
Proof.
  unfold named. rewrite filter_In.
  now destruct (String.eqb_spec (name m) n).
Qed.

Lemma scores_of_all_return (y_true y_pred : pyobj) (ms : list Metric) :
  (forall m, In m ms -> exists s, call m y_true y_pred = Ok s) ->
  List.length (scores_of y_true y_pred ms) = List.length ms.
Proof.
  induction ms as [| m ms IH]; intros H; [reflexivity |].
  simpl. destruct (H m (or_introl eq_refl)) as [s ->]. simpl. f_equal.
  apply IH. intros m' Hm'. apply H. now right.
Qed.

(** C1, for metrics whose name no other metric of the list bears: when the
    exceptions the metrics raise are errors ([Exception] instances), a call
    of an aggregator returns a mapping and does not raise; a metric that
    raised has [None] under its name and its history is as before; a metric
    that returned has its score under its name and exactly that one score
    appended to its history; this holds for every metric of the list,
    whatever the metrics before it did. *)
Theorem aggregator_isolation (self : MetricList) (y_true y_pred : pyobj) :
  aggregator self ->
  raises_only_errors (metrics self) y_true y_pred ->
  exists self' results,
    MetricList_call self y_true y_pred = (self', Ok results)
    /\ metrics self' = metrics self
    /\ forall pre m post,
        metrics self = (pre ++ m :: post)%list ->
        ~ In (name m) (map name (pre ++ post)) ->
        match call m y_true y_pred with
        | Raise _ =>
            PyDict.get results (name m) = Some None
            /\ PyDict.get (history self') (name m) =
               PyDict.get (history self) (name m)
        | Ok score =>
            PyDict.get results (name m) = Some (Some score)
            /\ exists old,
                PyDict.get (history self) (name m) = Some old
                /\ PyDict.get (history self') (name m) =
                   Some (old ++ [score])%list
        end.
Proof.
  intros Hagg Herr.
  destruct (aggregator_well_keyed self Hagg) as [Hkeys _].
  destruct (loop_spec y_true y_pred (metrics self) Herr (history self) [] Hkeys)
    as (h' & results & Hloop & Hh & Hr & _).
  exists {| metrics := metrics self; history := h' |}, results.
  split; [unfold MetricList_call; now rewrite Hloop |].
  split; [reflexivity |].
  intros pre m post Hms Hname.
  assert (Hin : In m (metrics self)).
  { rewrite Hms. apply in_elt. }
  destruct (In_get_Some _ _ (Hkeys m Hin)) as [old Hold].
  specialize (Hh (name m)). specialize (Hr (name m)).
  rewrite Hms, named_alone in Hh, Hr by assumption.
  cbn [last] in Hr. unfold outcome in Hr.
  unfold scores_of in Hh. cbn [flat_map] in Hh. rewrite Hold in Hh.
  cbn [option_map history] in *.
  destruct (call m y_true y_pred) as [score | e].
  - split; [exact Hr |]. exists old. split; [exact Hold |].
    rewrite Hh. now rewrite app_nil_r.
  - split; [exact Hr |]. rewrite Hh, Hold. simpl. now rewrite app_nil_r.
Qed.

Lemma accuracy_and_broken_init :
  MetricList_init [IdStr "accuracy"; IdCallable broken_metric] =
  Ok accuracy_and_broken.
Proof. reflexivity. Qed.

Lemma two_lambdas_init :
  MetricList_init [IdCallable lambda_raising; IdCallable lambda_one] =
  Ok two_lambdas.
Proof. reflexivity. Qed.

Lemma accuracy_twice_init :
  MetricList_init [IdStr "accuracy"; IdStr "accuracy"] = Ok accuracy_twice.
Proof. reflexivity. Qed.

(** The aggregator of accuracy and a callable that throws, on three labels
    of which two are predicted right. *)
Lemma aggregator_isolation_witness :
  aggregator accuracy_and_broken
  /\ raises_only_errors (metrics accuracy_and_broken)
       (NdArray [1; 0; 1]) (NdArray [1; 0; 0])
  /\ exists self' results score,
      MetricList_call accuracy_and_broken
        (NdArray [1; 0; 1]) (NdArray [1; 0; 0]) = (self', Ok results)
      /\ PyDict.get results "broken_metric" = Some None
      /\ PyDict.get (history self') "broken_metric" = Some []
      /\ PyDict.get results "accuracy" = Some (Some score)
      /\ PyDict.get (history self') "accuracy" = Some [score].
Proof.
  assert (Hagg : aggregator accuracy_and_broken).
  { exact (aggregator_init _ _ accuracy_and_broken_init). }
  assert (Herr : raises_only_errors (metrics accuracy_and_broken)
                   (NdArray [1; 0; 1]) (NdArray [1; 0; 0])).
  { intros m e [<- | [<- | []]] H; simpl in H.
    - discriminate H.
    - injection H as <-. reflexivity. }
  split; [exact Hagg |]. split; [exact Herr |].
  destruct (aggregator_isolation accuracy_and_broken
              (NdArray [1; 0; 1]) (NdArray [1; 0; 0]) Hagg Herr)
    as (self' & results & Hcall & _ & Heach).
  pose proof (Heach [Accuracy]
                (MetricWrapper_object "broken_metric" broken_metric) []
                eq_refl) as Hbroken.
  pose proof (Heach [] Accuracy
                [MetricWrapper_object "broken_metric" broken_metric]
                eq_refl) as Hacc.
  simpl in Hbroken, Hacc.
  destruct Hbroken as [Hb1 Hb2].
  { intros [H | []]. discriminate H. }
  destruct Hacc as [Ha1 (old & Hold & Ha2)].
  { intros [H | []]. discriminate H. }
  injection Hold as <-.
  exists self', results. eexists.
  split; [exact Hcall |]. split; [exact Hb1 |]. split; [exact Hb2 |].
  split; [exact Ha1 | exact Ha2].
Defined.

(** C1 as stated fails when two metrics bear one name: the first
    [<lambda>] raises an error, yet the returned mapping holds the second
    one's score under that name and the history under that name has
    grown. *)
Lemma aggregator_isolation_shared_name :
  exists self self' results m e,
    MetricList_init [IdCallable lambda_raising; IdCallable lambda_one] = Ok self
    /\ MetricList_call self (NdArray [1]) (NdArray [1]) = (self', Ok results)
    /\ In m (metrics self)
    /\ call m (NdArray [1]) (NdArray [1]) = Raise e
    /\ is_Exception e = true
    /\ PyDict.get results (name m) = Some (Some 1)
    /\ PyDict.get results (name m) <> Some None
    /\ PyDict.get (history self) (name m) = Some []
    /\ PyDict.get (history self') (name m) = Some [1].
Proof.
  exists two_lambdas.
  exists {| metrics := metrics two_lambdas; history := [("<lambda>", [1])] |}.
  exists [("<lambda>", Some 1)].
  exists (MetricWrapper_object "<lambda>" lambda_raising).
  exists (RuntimeError "boom").
  repeat split; try reflexivity.
  - simpl. now left.
  - simpl. discriminate.
Qed.

(** C10: when two or more metrics of an aggregator bear the name [n], the
    histories hold one list under [n]; on a call where these metrics all
    return, the score of each of them is appended to that list in list
    order, so the list grows by their number, and the returned mapping has
    one entry for [n], the score of the last of them. *)
Theorem aggregator_shared_history (self : MetricList) (y_true y_pred : pyobj)
    (n : string) :
  aggregator self ->
  raises_only_errors (metrics self) y_true y_pred ->
  (2 <= List.length (named n (metrics self)))%nat ->
  (forall m, In m (named n (metrics self)) ->
             exists score, call m y_true y_pred = Ok score) ->
  count_occ string_dec (PyDict.keys (history self)) n = 1%nat
  /\ exists self' results old front m_last score_last,
      MetricList_call self y_true y_pred = (self', Ok results)
      /\ PyDict.get (history self) n = Some old
      /\ PyDict.get (history self') n =
         Some (old ++ scores_of y_true y_pred (named n (metrics self)))%list
      /\ List.length (scores_of y_true y_pred (named n (metrics self))) =
         List.length (named n (metrics self))
      /\ count_occ string_dec (PyDict.keys results) n = 1%nat
      /\ named n (metrics self) = (front ++ [m_last])%list
      /\ call m_last y_true y_pred = Ok score_last
      /\ PyDict.get results n = Some (Some score_last).
Proof.
  intros Hagg Herr Htwo Hret.
  destruct (aggregator_well_keyed self Hagg) as [Hkeys Hnd].
  destruct (loop_spec y_true y_pred (metrics self) Herr (history self) [] Hkeys)
    as (h' & results & Hloop & Hh & Hr & Hrnd).
  specialize (Hh n). specialize (Hr n).
  assert (Hne : named n (metrics self) <> []).
  { intros E. rewrite E in Htwo. simpl in Htwo. lia. }
  destruct (exists_last Hne) as (front & m_last & Hlast).
  assert (Hin_last : In m_last (named n (metrics self))).
  { rewrite Hlast. apply in_elt. }
  destruct (Hret m_last Hin_last) as [score_last Hscore].
  apply named_In in Hin_last. destruct Hin_last as [Hin_ms Hname].
  assert (Hkey : In n (PyDict.keys (history self))).
  { rewrite <- Hname. now apply Hkeys. }
  destruct (In_get_Some _ _ Hkey) as [old Hold].
  rewrite Hold in Hh. cbn [option_map] in Hh.
  assert (Hres : PyDict.get results n = Some (Some score_last)).
  { rewrite Hr. destruct (named n (metrics self)) as [| m0 l] eqn:E;
      [congruence |].
    rewrite <- (last_cons_default l m0 m0), Hlast, last_last.
    unfold outcome. now rewrite Hscore. }
  split.
  - apply NoDup_count_occ'; assumption.
  - exists {| metrics := metrics self; history := h' |}, results, old,
      front, m_last, score_last.
    split; [unfold MetricList_call; now rewrite Hloop |].
    split; [exact Hold |]. split; [exact Hh |].
    split; [now apply scores_of_all_return |].
    split.
    + apply NoDup_count_occ'.
      * apply Hrnd. constructor.
      * eapply get_Some_In, Hres.
    + repeat split; assumption.
Qed.

(** The name "accuracy" given twice: one history list, which takes two
    scores in one call. *)
Lemma aggregator_shared_history_witness :
  aggregator accuracy_twice
  /\ raises_only_errors (metrics accuracy_twice) (NdArray [1]) (NdArray [1])
  /\ (2 <= List.length (named "accuracy" (metrics accuracy_twice)))%nat
  /\ (forall m, In m (named "accuracy" (metrics accuracy_twice)) ->
                exists score, call m (NdArray [1]) (NdArray [1]) = Ok score)
  /\ count_occ string_dec (PyDict.keys (history accuracy_twice)) "accuracy" = 1%nat
  /\ exists self' results s1 s2,
      MetricList_call accuracy_twice (NdArray [1]) (NdArray [1]) =
      (self', Ok results)
      /\ PyDict.get (history self') "accuracy" = Some [s1; s2]
      /\ PyDict.get results "accuracy" = Some (Some s2).
Proof.
  assert (Hagg : aggregator accuracy_twice).
  { exact (aggregator_init _ _ accuracy_twice_init). }
  assert (Hret : forall m, In m (named "accuracy" (metrics accuracy_twice)) ->
                           exists score, call m (NdArray [1]) (NdArray [1]) = Ok score).
  { intros m [<- | [<- | []]]; eexists; reflexivity. }
  assert (Herr : raises_only_errors (metrics accuracy_twice)
                   (NdArray [1]) (NdArray [1])).
  { intros m e [<- | [<- | []]] H; discriminate H. }
  assert (Htwo : (2 <= List.length (named "accuracy" (metrics accuracy_twice)))%nat).
  { simpl. lia. }
  destruct (aggregator_shared_history accuracy_twice (NdArray [1]) (NdArray [1])
              "accuracy" Hagg Herr Htwo Hret)
    as (Hone & self' & results & old & front & m_last & score_last
        & Hcall & Hold & Hnew & _ & _ & Hfront & Hlast & Hres).
  split; [exact Hagg |]. split; [exact Herr |]. split; [exact Htwo |].
  split; [exact Hret |]. split; [exact Hone |].
  injection Hold as <-.
  assert (Hm : m_last = Accuracy).
  { change (named "accuracy" (metrics accuracy_twice)) with [Accuracy; Accuracy]
      in Hfront.
    destruct front as [| a [| b [| c t]]]; simpl in Hfront;
      try discriminate Hfront.
    now injection Hfront as _ <-. }
  subst m_last.
  exists self', results.
  exists (np_mean (np_equal [1] [1])), score_last.
  split; [exact Hcall |]. split; [| exact Hres].
  rewrite Hnew. simpl. simpl in Hlast. injection Hlast as <-. reflexivity.
Defined.

(** A [KeyboardInterrupt] inside a metric is not an [Exception]: it leaves
    the loop and the call, which is why the isolation is stated for
    errors. *)
Lemma keyboard_interrupt_escapes (self : MetricList) (m : Metric)
    (ms : list Metric) (y_true y_pred : pyobj) :
  metrics self = m :: ms ->
  call m y_true y_pred = Raise KeyboardInterrupt ->
  MetricList_call self y_true y_pred = (self, Raise KeyboardInterrupt).
Proof.
  intros Hms Hcall. unfold MetricList_call. rewrite Hms. simpl.
  rewrite (try_metric_raises y_true y_pred m (history self) _ Hcall). simpl.
  destruct self as [ms0 h]. simpl in *. now subst ms0.
Qed.

(** ** The specification's worked examples *)

Lemma np_log2_half : np_log2 (1 / 2) = -1.
Proof.
  unfold np_log2. replace (1 / 2) with (/ 2) by lra.
  rewrite ln_Rinv by lra. field. pose proof ln_2_pos. lra.
Qed.

(** entropy([0,1,0,1]) == 1.0 *)
Example entropy_balanced : imp_call Entropy [0; 1; 0; 1]%Z = 1.
Proof.
  cbn -[np_log2 Rlt_dec INR Rdiv].
  replace (INR 2 / INR 4) with (1 / 2) by (simpl; lra).
  destruct (Rlt_dec 0 (1 / 2)) as [_ | H]; [| exfalso; lra].
  cbn -[np_log2 Rdiv]. rewrite np_log2_half. lra.
Qed.

(** gini([0,1,0,1]) == 0.5 and misclassification([0,0,1]) == 1/3 *)
Example gini_balanced : imp_call GiniImpurity [0; 1; 0; 1]%Z = 1 / 2.
Proof. simpl. lra. Qed.

Example misclassification_two_to_one :
  imp_call MisclassificationError [0; 0; 1]%Z = 1 / 3.
Proof.
  simpl. unfold Rmax.
  destruct (Rle_dec ((1 + 1) / (1 + 1 + 1)) (1 / (1 + 1 + 1))); lra.
Qed.

(** A perfect split: the weighted child impurity is 0 and the information
    gain is the entropy of the parent. *)
Example information_gain_perfect_split :
  information_gain [0; 0; 0; 1; 1; 1]%Z [[0; 0; 0]%Z; [1; 1; 1]%Z] Entropy =
  Ok (imp_call Entropy [0; 0; 0; 1; 1; 1]%Z).
Proof.
  assert (H0 : imp_call Entropy [0; 0; 0]%Z = 0).
  { apply entropy_impurity. vm_compute. lia. }
  assert (H1 : imp_call Entropy [1; 1; 1]%Z = 0).
  { apply entropy_impurity. vm_compute. lia. }
  rewrite information_gain_spec by discriminate.
  unfold spec_information_gain, Sigma.
  cbn [List.length seq map fold_right nth].
  rewrite H0, H1. f_equal. ring.
Qed.

(** accuracy(y, y) == 1.0, MSE(y, y) == 0.0 on a sample vector *)
Example accuracy_self : call Accuracy (NdArray [1; 0; 1]) (NdArray [1; 0; 1]) = Ok 1.
Proof.
  simpl. unfold np_mean, np_equal. simpl.
  repeat match goal with
         | |- context [Req_dec_T ?a ?b] =>
             destruct (Req_dec_T a b); [| exfalso; lra]
         end.
  f_equal. simpl. lra.
Qed.

Example mse_self : call MSE (NdArray [1; 0; 1]) (NdArray [1; 0; 1]) = Ok 0.
Proof. simpl. unfold np_mean. simpl. f_equal. lra. Qed.

(** * Further properties of the module *)

(** ** Pointwise metrics: when they return and what they return *)

Lemma validate_Ok_inv (y_true y_pred : pyobj) (a b : list R) :
  _validate_inputs y_true y_pred = Ok (a, b) ->
  y_true = NdArray a /\ y_pred = NdArray b
  /\ List.length a = List.length b /\ a <> [].
Proof.
  unfold _validate_inputs.
  destruct y_true as [a0 | | | |], y_pred as [b0 | | | |]; try discriminate.
  destruct (Nat.eqb_spec (List.length a0) (List.length b0)) as [Hlen | _];
    simpl; [| discriminate].
  destruct a0 as [| x a0]; simpl; [discriminate |].
  intros [= <- <-]. repeat split; [assumption | discriminate].
Qed.

(** A pointwise metric returns a score exactly on two arrays of one
    non-zero length; on anything else it raises. *)
Theorem pointwise_metric_returns_iff (m : Metric) (y_true y_pred : pyobj) :
  In m pointwise_metrics ->
  ((exists score, call m y_true y_pred = Ok score)
   <-> exists a b, y_true = NdArray a /\ y_pred = NdArray b
                   /\ List.length a = List.length b /\ a <> []).
Proof.
  intros Hin. split.
  - intros [score Hcall].
    destruct (_validate_inputs y_true y_pred) as [[a b] | e] eqn:Hv.
    + exists a, b. now apply validate_Ok_inv.
    + rewrite (pointwise_validates_first m _ _ e Hin Hv) in Hcall.
      discriminate.
  - intros (a & b & -> & -> & Hlen & Hne).
    pose proof (validate_ok a b Hlen Hne) as Hv.
    destruct Hin as [<- | [<- | [<- | [<- | []]]]];
      cbn [call Accuracy MSE MAE R2Score]; rewrite Hv;
      cbn [bind]; try (eexists; reflexivity).
    match goal with
    | |- context [Req_dec_T ?x 0] => destruct (Req_dec_T x 0)
    end; eexists; reflexivity.
Qed.

Lemma pointwise_metric_returns_iff_witness :
  In MAE pointwise_metrics
  /\ ((exists score, call MAE (NdArray [1; 2]) (NdArray [3; 4]) = Ok score)
      <-> exists a b, NdArray [1; 2] = NdArray a /\ NdArray [3; 4] = NdArray b
                      /\ List.length a = List.length b /\ a <> []).
Proof.
  assert (Hin : In MAE pointwise_metrics) by (simpl; auto).
  split; [exact Hin |].
  exact (pointwise_metric_returns_iff MAE (NdArray [1; 2]) (NdArray [3; 4]) Hin).
Defined.

Lemma length_pos_INR {A : Type} (l : list A) : l <> [] -> 0 < INR (List.length l).
Proof. intros H. apply lt_0_INR. apply length_nonempty in H. lia. Qed.

(** Two arrays of one length are equal when they agree position by
    position. *)
Lemma combine_agree (a b : list R) :
  List.length a = List.length b ->
  (Forall (fun p => fst p = snd p) (combine a b) <-> a = b).
Proof.
  revert b. induction a as [| x a IH]; intros [| y b] Hlen;
    simpl in Hlen; try discriminate.
  - split; [reflexivity | constructor].
  - simpl. split.
    + intros H. inversion H as [| ? ? Hxy Hrest]; subst. simpl in Hxy.
      f_equal; [assumption |]. apply IH; [lia | assumption].
    + intros [= -> ->]. constructor; [reflexivity |].
      apply IH; [lia | reflexivity].
Qed.

Lemma np_sum_nonneg (l : list R) :
  Forall (fun x => 0 <= x) l -> 0 <= np_sum l.
Proof. induction 1 as [| x t Hx _ IH]; simpl; lra. Qed.

(** A sum of non-negative numbers is 0 exactly when each of them is. *)
Lemma np_sum_zero_iff (l : list R) :
  Forall (fun x => 0 <= x) l ->
  (np_sum l = 0 <-> Forall (fun x => x = 0) l).
Proof.
  induction 1 as [| x t Hx Ht IH]; simpl.
  - split; [constructor | reflexivity].
  - pose proof (np_sum_nonneg t Ht). split.
    + intros H0. constructor; [lra |]. apply IH. lra.
    + intros H0. inversion H0 as [| ? ? Hx0 Ht0]; subst.
      apply IH in Ht0. lra.
Qed.

Lemma np_mean_combine_nonneg (g : R * R -> R) (a b : list R) :
  (forall p, 0 <= g p) -> 0 <= np_mean (map g (combine a b)).
Proof.
  intros Hg. unfold np_mean.
  assert (Hs : 0 <= np_sum (map g (combine a b))).
  { apply np_sum_nonneg, Forall_forall. intros x Hx.
    apply in_map_iff in Hx. destruct Hx as [p [<- _]]. apply Hg. }
  destruct (List.length (map g (combine a b))) as [| n] eqn:E.
  - simpl. unfold Rdiv. rewrite Rinv_0. lra.
  - apply Rmult_le_pos; [assumption |].
    apply Rlt_le, Rinv_0_lt_compat, lt_0_INR. lia.
Qed.

(** The mean of per-position penalties that vanish only on agreement is 0
    exactly when the two arrays are equal. *)
Lemma np_mean_combine_zero_iff (g : R * R -> R) (a b : list R) :
  (forall p, 0 <= g p) -> (forall p, g p = 0 <-> fst p = snd p) ->
  List.length a = List.length b -> a <> [] ->
  (np_mean (map g (combine a b)) = 0 <-> a = b).
Proof.
  intros Hg Hz Hlen Hne. unfold np_mean.
  assert (Hn : 0 < INR (List.length (map g (combine a b)))).
  { rewrite length_map, length_combine, <- Hlen, Nat.min_id.
    now apply length_pos_INR. }
  rewrite <- (combine_agree a b Hlen).
  assert (Hall : Forall (fun x => 0 <= x) (map g (combine a b))).
  { apply Forall_forall. intros x Hx. apply in_map_iff in Hx.
    destruct Hx as [p [<- _]]. apply Hg. }
  split.
  - intros H0.
    assert (Hs : np_sum (map g (combine a b)) = 0).
    { apply (Rmult_eq_reg_r (/ INR (List.length (map g (combine a b))))).
      - unfold Rdiv in H0. lra.
      - apply Rinv_neq_0_compat. lra. }
    apply np_sum_zero_iff in Hs; [| assumption].
    rewrite Forall_map in Hs. eapply Forall_impl; [| exact Hs].
    intros p Hp. now apply Hz.
  - intros Hagree.
    assert (Hs : np_sum (map g (combine a b)) = 0).
    { apply np_sum_zero_iff; [assumption |]. rewrite Forall_map.
      eapply Forall_impl; [| exact Hagree]. intros p Hp. now apply Hz. }
    rewrite Hs. unfold Rdiv. ring.
Qed.

Lemma combine_swap (f : R -> R -> R) (a b : list R) :
  (forall x y, f x y = f y x) ->
  map (fun p => f (fst p) (snd p)) (combine a b) =
  map (fun p => f (fst p) (snd p)) (combine b a).
Proof.
  intros Hf. revert b. induction a as [| x a IH]; intros [| y b]; simpl;
    try reflexivity.
  now rewrite Hf, IH.
Qed.

Lemma np_mean_complement (g : R * R -> R) (l : list (R * R)) :
  l <> [] ->
  np_mean (map (fun p => 1 - g p) l) = 1 - np_mean (map g l).
Proof.
  intros Hne. unfold np_mean. rewrite !length_map.
  assert (Hs : np_sum (map (fun p => 1 - g p) l) =
               INR (List.length l) - np_sum (map g l)).
  { clear Hne. induction l as [| p l IH]; [simpl; ring |].
    change (List.length (p :: l)) with (S (List.length l)).
    rewrite S_INR. simpl. rewrite IH. ring. }
  rewrite Hs. field. apply Rgt_not_eq. now apply length_pos_INR.
Qed.

(** The accuracy of two arrays of one non-zero length lies between 0 and 1,
    and is 1 exactly when the prediction equals the truth everywhere. *)
Theorem accuracy_range (y_true y_pred : list R) :
  List.length y_true = List.length y_pred ->
  y_true <> [] ->
  exists acc,
    call Accuracy (NdArray y_true) (NdArray y_pred) = Ok acc
    /\ 0 <= acc <= 1
    /\ (acc = 1 <-> y_true = y_pred).
Proof.
  intros Hlen Hne.
  exists (np_mean (np_equal y_true y_pred)).
  split; [cbn [call Accuracy]; now rewrite (validate_ok _ _ Hlen Hne) |].
  set (g := fun p : R * R => if Req_dec_T (fst p) (snd p) then 1 else 0).
  assert (Hg : forall p, 0 <= g p <= 1).
  { intros p. unfold g. destruct (Req_dec_T (fst p) (snd p)); lra. }
  assert (Hc : combine y_true y_pred <> []).
  { destruct y_true, y_pred; simpl in *; congruence. }
  pose proof (np_mean_complement g _ Hc) as Hcompl.
  pose proof (np_mean_combine_nonneg (fun p => 1 - g p) y_true y_pred) as Hpen.
  pose proof (np_mean_combine_zero_iff (fun p => 1 - g p) y_true y_pred) as Hzero.
  fold (np_equal y_true y_pred) in Hcompl. unfold np_equal at 1. fold g.
  assert (H0 : 0 <= np_mean (map g (combine y_true y_pred))).
  { apply np_mean_combine_nonneg. intros p. apply Hg. }
  assert (H1 : 0 <= np_mean (map (fun p => 1 - g p) (combine y_true y_pred))).
  { apply Hpen. intros p. specialize (Hg p). lra. }
  change (np_equal y_true y_pred) with (map g (combine y_true y_pred)) in *.
  split; [lra |].
  rewrite <- Hzero; try assumption.
  - lra.
  - intros p. specialize (Hg p). lra.
  - intros p. unfold g. destruct (Req_dec_T (fst p) (snd p)); split; intros;
      lra || assumption || contradiction.
Qed.

Lemma accuracy_range_witness :
  List.length [1; 0; 1] = List.length [1; 0; 1]
  /\ [1; 0; 1] <> []
  /\ exists acc,
      call Accuracy (NdArray [1; 0; 1]) (NdArray [1; 0; 1]) = Ok acc
      /\ 0 <= acc <= 1
      /\ (acc = 1 <-> [1; 0; 1] = [1; 0; 1]).
Proof.
  assert (Hlen : List.length [1; 0; 1] = List.length [1; 0; 1]) by reflexivity.
  assert (Hne : [1; 0; 1] <> []) by discriminate.
  split; [exact Hlen |]. split; [exact Hne |].
  exact (accuracy_range [1; 0; 1] [1; 0; 1] Hlen Hne).
Defined.

Lemma np_square_sub (a b : list R) :
  np_square (np_sub a b) =
  map (fun p => (fst p - snd p) * (fst p - snd p)) (combine a b).
Proof. unfold np_square, np_sub. now rewrite map_map. Qed.

Lemma np_abs_sub (a b : list R) :
  np_abs (np_sub a b) = map (fun p => Rabs (fst p - snd p)) (combine a b).
Proof. unfold np_abs, np_sub. now rewrite map_map. Qed.

(** The mean squared error is never negative, is 0 exactly when the two
    arrays are equal, and does not change when they are swapped. *)
Theorem mse_properties (y_true y_pred : list R) :
  List.length y_true = List.length y_pred ->
  y_true <> [] ->
  exists err,
    call MSE (NdArray y_true) (NdArray y_pred) = Ok err
    /\ call MSE (NdArray y_pred) (NdArray y_true) = Ok err
    /\ 0 <= err
    /\ (err = 0 <-> y_true = y_pred).
Proof.
  intros Hlen Hne.
  assert (Hne' : y_pred <> []).
  { destruct y_true, y_pred; simpl in *; congruence. }
  exists (np_mean (np_square (np_sub y_true y_pred))).
  split; [cbn [call MSE]; now rewrite (validate_ok _ _ Hlen Hne) |].
  split.
  { cbn [call MSE]. rewrite (validate_ok _ _ (eq_sym Hlen) Hne'). cbn [bind].
    rewrite !np_square_sub.
    rewrite (combine_swap (fun x y => (x - y) * (x - y)) y_pred y_true);
      [reflexivity | intros; ring]. }
  rewrite np_square_sub. split.
  - apply np_mean_combine_nonneg. intros p.
    pose proof (Rle_0_sqr (fst p - snd p)) as H. exact H.
  - apply np_mean_combine_zero_iff; try assumption.
    + intros p. pose proof (Rle_0_sqr (fst p - snd p)) as H. exact H.
    + intros p. split; [intros H; apply Rmult_integral in H | intros ->; ring].
      lra.
Qed.

Lemma mse_properties_witness :
  List.length [1; 2] = List.length [3; 5]
  /\ [1; 2] <> []
  /\ exists err,
      call MSE (NdArray [1; 2]) (NdArray [3; 5]) = Ok err
      /\ call MSE (NdArray [3; 5]) (NdArray [1; 2]) = Ok err
      /\ 0 <= err
      /\ (err = 0 <-> [1; 2] = [3; 5]).
Proof.
  assert (Hlen : List.length [1; 2] = List.length [3; 5]) by reflexivity.
  assert (Hne : [1; 2] <> []) by discriminate.
  split; [exact Hlen |]. split; [exact Hne |].
  exact (mse_properties [1; 2] [3; 5] Hlen Hne).
Defined.

(** The mean absolute error is never negative, is 0 exactly when the two
    arrays are equal, and does not change when they are swapped. *)
Theorem mae_properties (y_true y_pred : list R) :
  List.length y_true = List.length y_pred ->
  y_true <> [] ->
  exists err,
    call MAE (NdArray y_true) (NdArray y_pred) = Ok err
    /\ call MAE (NdArray y_pred) (NdArray y_true) = Ok err
    /\ 0 <= err
    /\ (err = 0 <-> y_true = y_pred).
Proof.
  intros Hlen Hne.
  assert (Hne' : y_pred <> []).
  { destruct y_true, y_pred; simpl in *; congruence. }
  exists (np_mean (np_abs (np_sub y_true y_pred))).
  split; [cbn [call MAE]; now rewrite (validate_ok _ _ Hlen Hne) |].
  split.
  { cbn [call MAE]. rewrite (validate_ok _ _ (eq_sym Hlen) Hne'). cbn [bind].
    rewrite !np_abs_sub.
    rewrite (combine_swap (fun x y => Rabs (x - y)) y_pred y_true);
      [reflexivity | intros; apply Rabs_minus_sym]. }
  rewrite np_abs_sub. split.
  - apply np_mean_combine_nonneg. intros p. apply Rabs_pos.
  - apply np_mean_combine_zero_iff; try assumption.
    + intros p. apply Rabs_pos.
    + intros p. split.
      * intros H. destruct (Req_dec (fst p - snd p) 0) as [H0 | H0]; [lra |].
        apply Rabs_no_R0 in H0. contradiction.
      * intros ->. rewrite Rminus_diag. apply Rabs_R0.
Qed.

Lemma mae_properties_witness :
  List.length [1; 2] = List.length [3; 5]
  /\ [1; 2] <> []
  /\ exists err,
      call MAE (NdArray [1; 2]) (NdArray [3; 5]) = Ok err
      /\ call MAE (NdArray [3; 5]) (NdArray [1; 2]) = Ok err
      /\ 0 <= err
      /\ (err = 0 <-> [1; 2] = [3; 5]).
Proof.
  assert (Hlen : List.length [1; 2] = List.length [3; 5]) by reflexivity.
  assert (Hne : [1; 2] <> []) by discriminate.
  split; [exact Hlen |]. split; [exact Hne |].
  exact (mae_properties [1; 2] [3; 5] Hlen Hne).
Defined.

(** The sum of the squared deviations from any number is not negative. *)
Lemma sum_sq_deviation (c : R) (l : list R) :
  0 <= np_sum (map (fun x => x * x) l) - 2 * c * np_sum l
       + INR (List.length l) * (c * c).
Proof.
  induction l as [| x l IH].
  - simpl. lra.
  - change (List.length (x :: l)) with (S (List.length l)).
    rewrite S_INR. simpl. pose proof (Rle_0_sqr (x - c)) as H.
    unfold Rsqr in H. lra.
Qed.

(** (x1 + ... + xn)² <= n (x1² + ... + xn²) *)
Lemma sum_sq_mean (l : list R) :
  np_sum l * np_sum l <= INR (List.length l) * np_sum (map (fun x => x * x) l).
Proof.
  destruct l as [| x0 l0] eqn:E; [simpl; lra |]. rewrite <- E.
  assert (Hn : 0 < INR (List.length l)).
  { apply length_pos_INR. rewrite E. discriminate. }
  pose proof (sum_sq_deviation (np_sum l / INR (List.length l)) l) as H.
  apply (Rmult_le_compat_l (INR (List.length l))) in H; [| lra].
  replace (INR (List.length l) *
           (np_sum (map (fun x => x * x) l)
            - 2 * (np_sum l / INR (List.length l)) * np_sum l
            + INR (List.length l)
              * (np_sum l / INR (List.length l) * (np_sum l / INR (List.length l)))))
    with (INR (List.length l) * np_sum (map (fun x => x * x) l)
          - np_sum l * np_sum l) in H by (field; lra).
  lra.
Qed.

(** The square of the mean absolute error never exceeds the mean squared
    error of the same two arrays. *)
Theorem mae_squared_le_mse (y_true y_pred : list R) :
  List.length y_true = List.length y_pred ->
  y_true <> [] ->
  exists mae mse,
    call MAE (NdArray y_true) (NdArray y_pred) = Ok mae
    /\ call MSE (NdArray y_true) (NdArray y_pred) = Ok mse
    /\ mae * mae <= mse.
Proof.
  intros Hlen Hne.
  exists (np_mean (np_abs (np_sub y_true y_pred))),
    (np_mean (np_square (np_sub y_true y_pred))).
  split; [cbn [call MAE]; now rewrite (validate_ok _ _ Hlen Hne) |].
  split; [cbn [call MSE]; now rewrite (validate_ok _ _ Hlen Hne) |].
  set (d := np_sub y_true y_pred).
  assert (Hn : 0 < INR (List.length d)).
  { unfold d, np_sub. rewrite length_map, length_combine, <- Hlen, Nat.min_id.
    now apply length_pos_INR. }
  pose proof (sum_sq_mean (np_abs d)) as H.
  assert (Hsq : map (fun x => x * x) (np_abs d) = np_square d).
  { unfold np_abs, np_square. rewrite map_map. apply map_ext.
    intros x. fold (Rsqr (Rabs x)). rewrite <- Rsqr_abs. reflexivity. }
  assert (La : List.length (np_abs d) = List.length d)
    by (unfold np_abs; apply length_map).
  assert (Ls : List.length (np_square d) = List.length d)
    by (unfold np_square; apply length_map).
  rewrite Hsq, La in H. unfold np_mean. rewrite La, Ls.
  set (n := INR (List.length d)) in *.
  set (s := np_sum (np_abs d)) in *.
  set (q := np_sum (np_square d)) in *.
  assert (Hinv : 0 < / n) by now apply Rinv_0_lt_compat.
  unfold Rdiv.
  replace (s * / n * (s * / n)) with (s * s * (/ n * / n)) by ring.
  replace (q * / n) with (n * q * (/ n * / n)) by (field; lra).
  apply Rmult_le_compat_r; [nra | exact H].
Qed.

Lemma mae_squared_le_mse_witness :
  List.length [1; 2] = List.length [3; 5]
  /\ [1; 2] <> []
  /\ exists mae mse,
      call MAE (NdArray [1; 2]) (NdArray [3; 5]) = Ok mae
      /\ call MSE (NdArray [1; 2]) (NdArray [3; 5]) = Ok mse
      /\ mae * mae <= mse.
Proof.
  assert (Hlen : List.length [1; 2] = List.length [3; 5]) by reflexivity.
  assert (Hne : [1; 2] <> []) by discriminate.
  split; [exact Hlen |]. split; [exact Hne |].
  exact (mae_squared_le_mse [1; 2] [3; 5] Hlen Hne).
Defined.

(** ** R² beyond its formula *)







Lemma np_sub_constant (a : list R) (c : R) :
  np_sub a (map (fun _ => c) a) = np_sub_scalar a c.
Proof.
  unfold np_sub, np_sub_scalar. induction a as [| x a IH]; simpl;
    [reflexivity | now rewrite IH].
Qed.

(** Predicting the mean of the truth at every position scores 0. *)
Theorem r2_mean_prediction (y_true : list R) :
  y_true <> [] ->
  call R2Score (NdArray y_true)
    (NdArray (map (fun _ => np_mean y_true) y_true)) = Ok 0.
Proof.
  intros Hne. unfold R2Score, call.
  rewrite validate_ok by (rewrite ?length_map; auto).
  cbn [bind]. rewrite np_sub_constant.
  destruct (Req_dec_T _ 0) as [_ | Hn0]; [reflexivity |].
  f_equal. field. exact Hn0.
Qed.

Lemma r2_mean_prediction_witness :
  [1; 2; 6] <> []
  /\ call R2Score (NdArray [1; 2; 6])
       (NdArray (map (fun _ => np_mean [1; 2; 6]) [1; 2; 6])) = Ok 0.
Proof.
  assert (Hne : [1; 2; 6] <> []) by discriminate.
  split; [exact Hne |]. exact (r2_mean_prediction [1; 2; 6] Hne).
Defined.

(** ** Resolution of callables and the names of resolved metrics *)

(** A callable resolves to a metric that bears the callable's name,
    validates its inputs before anything else (on inputs the validation
    refuses the callable has no say) and otherwise returns or raises what
    the callable does; a callable without [__name__] cannot be resolved. *)
Theorem get_metric_callable (fn : PyCallable) :
  match fn_name fn with
  | None => get_metric (IdCallable fn) = Raise (AttributeError "__name__")
  | Some nm =>
      exists m,
        get_metric (IdCallable fn) = Ok m
        /\ name m = nm
        /\ (forall y_true y_pred e,
               _validate_inputs y_true y_pred = Raise e ->
               call m y_true y_pred = Raise e)
        /\ (forall a b,
               List.length a = List.length b -> a <> [] ->
               call m (NdArray a) (NdArray b) =
               fn_call fn (NdArray a) (NdArray b))
  end.
Proof.
  unfold get_metric, MetricWrapper. destruct (fn_name fn) as [nm |];
    [| reflexivity].
  exists (MetricWrapper_object nm fn). repeat split.
  - intros y_true y_pred e Hv. cbn [call MetricWrapper_object].
    now rewrite Hv.
  - intros a b Hlen Hne. cbn [call MetricWrapper_object].
    now rewrite (validate_ok a b Hlen Hne).
Qed.

(** Whatever [get_metric] resolves keeps its name: a string resolves to a
    metric of that name, a callable to a metric of the callable's name, and
    a resolved metric resolves to itself. *)
Theorem get_metric_name (i : identifier) (m : Metric) :
  get_metric i = Ok m ->
  match i with
  | IdMetric m0 => m = m0
  | IdStr s => name m = s /\ In m pointwise_metrics
  | IdCallable fn => fn_name fn = Some (name m)
  | IdOther _ => False
  end
  /\ get_metric (IdMetric m) = Ok m.
Proof.
  intros H. split; [| reflexivity].
  destruct i as [m0 | s | fn | o]; simpl in H.
  - now injection H.
  - repeat match type of H with
           | context [String.eqb s ?k] =>
               destruct (String.eqb_spec s k);
               [subst s; injection H as <-; simpl; tauto |]
           end.
    discriminate H.
  - unfold MetricWrapper in H. destruct (fn_name fn) as [nm |];
      [| discriminate]. now injection H as <-.
  - discriminate H.
Qed.

Lemma get_metric_name_witness :
  get_metric (IdStr "mae") = Ok MAE
  /\ name MAE = "mae" /\ In MAE pointwise_metrics.
Proof.
  assert (H : get_metric (IdStr "mae") = Ok MAE) by reflexivity.
  split; [exact H |].
  exact (proj1 (get_metric_name (IdStr "mae") MAE H)).
Defined.

(** ** Construction of an aggregator *)

Lemma get_metrics_Ok_iff (ids : list identifier) (ms : list Metric) :
  get_metrics ids = Ok ms <-> resolve_to ids ms.
Proof.
  unfold resolve_to. revert ms. induction ids as [| i ids IH]; intros ms; simpl.
  - split; [intros [= <-]; constructor | intros H; now inversion H].
  - destruct (get_metric i) as [m | e] eqn:Hi; simpl.
    + destruct (get_metrics ids) as [ms' | e'] eqn:Hids; simpl.
      * split.
        -- intros [= <-]. constructor; [assumption | now apply IH].
        -- intros H. inversion H as [| ? m' ? ms'' Hm Hrest]; subst.
           apply IH in Hrest. congruence.
      * split; [discriminate |].
        intros H. inversion H as [| ? m' ? ms'' Hm Hrest]; subst.
        apply IH in Hrest. discriminate.
    + split; [discriminate |].
      intros H. inversion H; subst. congruence.
Qed.

Lemma get_metrics_Raise_iff (ids : list identifier) (e : exn) :
  get_metrics ids = Raise e <-> first_failure ids e.
Proof.
  unfold first_failure. induction ids as [| i ids IH]; simpl.
  - split; [discriminate |].
    intros (pre & j & post & H & _). destruct pre; discriminate.
  - destruct (get_metric i) as [m | e0] eqn:Hi; simpl.
    + destruct (get_metrics ids) as [ms' | e'] eqn:Hids; simpl.
      * split; [discriminate |].
        intros (pre & j & post & Heq & Hpre & Hj).
        destruct pre as [| p pre]; simpl in Heq; injection Heq as -> ->.
        -- congruence.
        -- inversion Hpre; subst.
           assert (Habs : Ok ms' = Raise e)
             by (apply (proj2 IH); exists pre, j, post; auto).
           discriminate.
      * split.
        -- intros [= ->]. destruct (proj1 IH eq_refl)
             as (pre & j & post & -> & Hpre & Hj).
           exists (i :: pre), j, post. repeat split; [| assumption].
           constructor; [now exists m | assumption].
        -- intros (pre & j & post & Heq & Hpre & Hj).
           destruct pre as [| p pre]; simpl in Heq; injection Heq as -> ->.
           ++ congruence.
           ++ inversion Hpre; subst. f_equal.
              assert (Hee : Raise (A:=list Metric) e' = Raise e)
                by (apply (proj2 IH); exists pre, j, post; auto).
              now injection Hee.
    + split.
      * intros [= ->]. exists [], i, ids. repeat split; [constructor | assumption].
      * intros (pre & j & post & Heq & Hpre & Hj).
        destruct pre as [| p pre]; simpl in Heq; injection Heq as -> ->.
        -- congruence.
        -- inversion Hpre as [| ? ? [m Hm] _]; subst. congruence.
Qed.

Lemma add_key_present (ks : list string) (k : string) :
  In k ks -> add_key ks k = ks.
Proof.
  intros H. unfold add_key.
  destruct (in_dec string_dec k ks); [reflexivity | contradiction].
Qed.

Lemma add_key_absent (ks : list string) (k : string) :
  ~ In k ks -> add_key ks k = (ks ++ [k])%list.
Proof.
  intros H. unfold add_key.
  destruct (in_dec string_dec k ks); [contradiction | reflexivity].
Qed.

Lemma set_empty_history (ks : list string) (k : string) :
  PyDict.set (map (fun k0 => (k0, @nil R)) ks) k [] =
  map (fun k0 => (k0, @nil R)) (add_key ks k).
Proof.
  induction ks as [| k1 ks IH].
  - now rewrite add_key_absent by (intros []).
  - cbn [map PyDict.set]. destruct (String.eqb_spec k k1) as [-> | Hne].
    + now rewrite add_key_present by (now left).
    + rewrite IH. destruct (in_dec string_dec k ks) as [Hin | Hnot].
      * rewrite !add_key_present; [reflexivity | now right | assumption].
      * rewrite !add_key_absent; [reflexivity | | assumption].
        intros [H | H]; [now apply Hne | contradiction].
Qed.

Lemma empty_histories_from (ms : list Metric) (ks : list string) :
  fold_left (fun d m => PyDict.set d (name m) []) ms
    (map (fun k => (k, @nil R)) ks) =
  map (fun k => (k, @nil R)) (fold_left add_key (map name ms) ks).
Proof.
  revert ks. induction ms as [| m ms IH]; intros ks; simpl; [reflexivity |].
  now rewrite set_empty_history, IH.
Qed.

(** Building an aggregator either stops at the first identifier that does
    not resolve, with that identifier's exception, or resolves every
    identifier in order and starts with one empty history per distinct
    metric name, in the order in which the names first occur. *)
Theorem metric_list_init (ids : list identifier) :
  (forall e, MetricList_init ids = Raise e <-> first_failure ids e)
  /\ (forall self,
         MetricList_init ids = Ok self <->
         resolve_to ids (metrics self)
         /\ history self =
            map (fun k => (k, [])) (first_occurrences (map name (metrics self)))).
Proof.
  split.
  - intros e. rewrite <- get_metrics_Raise_iff. unfold MetricList_init.
    destruct (get_metrics ids); simpl; split; congruence.
  - intros self. unfold MetricList_init.
    destruct (get_metrics ids) as [ms | e] eqn:Hids; simpl.
    + pose proof (empty_histories_from ms []) as Hh. simpl in Hh.
      fold (empty_histories ms) in Hh. fold (first_occurrences (map name ms)) in Hh.
      split.
      * intros [= <-]. simpl. split; [now apply get_metrics_Ok_iff | exact Hh].
      * intros [Hres Hhist]. apply get_metrics_Ok_iff in Hres.
        rewrite Hids in Hres. injection Hres as Hms.
        destruct self as [ms0 h0]. simpl in *. subst ms0. now rewrite Hhist, Hh.
    + split; [discriminate |]. intros [Hres _].
      apply get_metrics_Ok_iff in Hres. congruence.
Qed.

(** ** What calls do to an aggregator over its lifetime *)

Lemma extends_refl {A : Type} (l : list A) : extends l l.
Proof. exists []. now rewrite app_nil_r. Qed.

Lemma extends_trans {A : Type} (l1 l2 l3 : list A) :
  extends l1 l2 -> extends l2 l3 -> extends l1 l3.
Proof.
  intros [a ->] [b ->]. exists (a ++ b)%list. now rewrite app_assoc.
Qed.

Lemma loop_extends (y_true y_pred : pyobj) (ms : list Metric) :
  forall (h : dict (list R)) (results : dict (option R)) (n : string)
         (old : list R),
    PyDict.get h n = Some old ->
    exists new,
      PyDict.get (fst (MetricList_loop ms y_true y_pred h results)) n = Some new
      /\ extends old new.
Proof.
  induction ms as [| m ms IH]; intros h results n old Hold; simpl.
  - exists old. split; [assumption | apply extends_refl].
  - destruct (try_metric m y_true y_pred h) as [[h1 s] | e] eqn:Ht.
    + unfold try_metric in Ht.
      destruct (call m y_true y_pred) as [s' | e']; simpl in Ht;
        [| discriminate].
      destruct (PyDict.get h (name m)) as [old_m |] eqn:Hm; [| discriminate].
      injection Ht as <- <-.
      destruct (string_dec (name m) n) as [Heq | Hne].
      * subst n. rewrite Hm in Hold. injection Hold as ->.
        destruct (IH (PyDict.set h (name m) (old ++ [s'])%list)
                     (PyDict.set results (name m) (Some s')) (name m)
                     (old ++ [s'])%list (get_set_eq _ _ _))
          as (new & Hnew & Hext).
        exists new. split; [assumption |].
        eapply extends_trans; [| exact Hext]. now exists [s'].
      * apply IH. now rewrite get_set_neq.
    + destruct (is_Exception e); [now apply IH |].
      exists old. split; [assumption | apply extends_refl].
Qed.

(** Histories are append-only: whatever calls are made and however they
    end, an aggregator keeps its metrics and the keys of its histories, and
    each history keeps what it held, with the new scores after it. *)
Theorem history_append_only (self : MetricList)
    (inputs : list (pyobj * pyobj)) :
  metrics (MetricList_calls self inputs) = metrics self
  /\ PyDict.keys (history (MetricList_calls self inputs)) =
     PyDict.keys (history self)
  /\ forall n old,
      PyDict.get (history self) n = Some old ->
      exists new,
        PyDict.get (history (MetricList_calls self inputs)) n = Some new
        /\ extends old new.
Proof.
  unfold MetricList_calls. revert self.
  induction inputs as [| [y_true y_pred] inputs IH]; intros self.
  - simpl. repeat split. intros n old H. exists old.
    split; [assumption | apply extends_refl].
  - cbn [fold_left fst snd].
    destruct (IH (fst (MetricList_call self y_true y_pred)))
      as (Hms & Hkeys & Hext).
    rewrite MetricList_call_unfold in *. cbn [fst metrics history] in *.
    split; [exact Hms |]. split; [now rewrite Hkeys, loop_keys |].
    intros n old Hold.
    destruct (loop_extends y_true y_pred (metrics self) (history self) [] n old Hold)
      as (mid & Hmid & Hext1).
    destruct (Hext n mid Hmid) as (new & Hnew & Hext2).
    exists new. split; [assumption | now apply (extends_trans old mid new)].
Qed.

Lemma keys_set_add_key {V : Type} (d : dict V) (k : string) (v : V) :
  PyDict.keys (PyDict.set d k v) = add_key (PyDict.keys d) k.
Proof.
  destruct (in_dec string_dec k (PyDict.keys d)) as [Hin | Hnot].
  - now rewrite keys_set_present, add_key_present.
  - now rewrite keys_set_absent, add_key_absent.
Qed.

Lemma loop_results_keys (y_true y_pred : pyobj) (ms : list Metric) :
  forall (h h' : dict (list R)) (results results' : dict (option R)),
    MetricList_loop ms y_true y_pred h results = (h', Ok results') ->
    PyDict.keys results' = fold_left add_key (map name ms) (PyDict.keys results).
Proof.
  induction ms as [| m ms IH]; intros h h' results results' Hloop;
    simpl in Hloop.
  - now injection Hloop as _ <-.
  - simpl. rewrite <- keys_set_add_key with (v := @None R).
    destruct (try_metric m y_true y_pred h) as [[h1 s] | e].
    + rewrite (IH _ _ _ _ Hloop). now rewrite !keys_set_add_key.
    + destruct (is_Exception e); [| discriminate].
      now rewrite (IH _ _ _ _ Hloop).
Qed.

Lemma aggregator_keys (self : MetricList) :
  aggregator self ->
  PyDict.keys (history self) = first_occurrences (map name (metrics self)).
Proof.
  induction 1 as [ids self Hinit | self y_true y_pred _ IH].
  - unfold MetricList_init in Hinit.
    destruct (get_metrics ids) as [ms | e]; simpl in Hinit; [| discriminate].
    injection Hinit as <-. cbn [history metrics]. unfold empty_histories.
    pose proof (empty_histories_from ms []) as Hh. simpl in Hh. rewrite Hh.
    unfold PyDict.keys. rewrite map_map. simpl. now rewrite map_id.
  - rewrite MetricList_call_unfold. cbn [fst metrics history].
    now rewrite loop_keys.
Qed.

(** The mapping a call returns has one entry per distinct metric name, in
    the order of the histories, which is the order in which the names first
    occur in the list of metrics. *)
Theorem results_in_history_order (self : MetricList) (y_true y_pred : pyobj)
    (self' : MetricList) (results : dict (option R)) :
  aggregator self ->
  MetricList_call self y_true y_pred = (self', Ok results) ->
  PyDict.keys results = PyDict.keys (history self)
  /\ PyDict.keys results = first_occurrences (map name (metrics self))
  /\ NoDup (PyDict.keys results).
Proof.
  intros Hagg Hcall. rewrite MetricList_call_unfold in Hcall.
  injection Hcall as _ Hres.
  destruct (MetricList_loop (metrics self) y_true y_pred (history self) [])
    as [h' r] eqn:Hloop. simpl in Hres. subst r.
  pose proof (loop_results_keys _ _ _ _ _ _ _ Hloop) as Hk. simpl in Hk.
  fold (first_occurrences (map name (metrics self))) in Hk.
  pose proof (aggregator_keys self Hagg) as Hh.
  split; [congruence |]. split; [assumption |].
  rewrite Hk, <- Hh. now apply aggregator_well_keyed.
Qed.

Lemma results_in_history_order_witness :
  aggregator accuracy_twice
  /\ MetricList_call accuracy_twice (PyList [1]) (PyList [1]) =
     (accuracy_twice, Ok [("accuracy", None)])
  /\ PyDict.keys [("accuracy", @None R)] = PyDict.keys (history accuracy_twice).
Proof.
  assert (Hagg : aggregator accuracy_twice).
  { exact (aggregator_init _ _ accuracy_twice_init). }
  assert (Hcall : MetricList_call accuracy_twice (PyList [1]) (PyList [1]) =
                  (accuracy_twice, Ok [("accuracy", None)])) by reflexivity.
  split; [exact Hagg |]. split; [exact Hcall |].
  exact (proj1 (results_in_history_order accuracy_twice (PyList [1]) (PyList [1])
                  accuracy_twice [("accuracy", None)] Hagg Hcall)).
Defined.

Lemma call_history_alone (self : MetricList) (y_true y_pred : pyobj)
    (pre post : list Metric) (m : Metric) :
  aggregator self ->
  raises_only_errors (metrics self) y_true y_pred ->
  metrics self = (pre ++ m :: post)%list ->
  ~ In (name m) (map name (pre ++ post)) ->
  PyDict.get (history (fst (MetricList_call self y_true y_pred))) (name m) =
  option_map (fun old => (old ++ scores_over m [(y_true, y_pred)])%list)
             (PyDict.get (history self) (name m)).
Proof.
  intros Hagg Herr Hms Hname.
  destruct (aggregator_well_keyed self Hagg) as [Hkeys _].
  destruct (loop_spec y_true y_pred (metrics self) Herr (history self) [] Hkeys)
    as (h' & results & Hloop & Hh & _).
  rewrite MetricList_call_unfold, Hloop. cbn [fst history].
  rewrite Hh, Hms, named_alone by assumption. reflexivity.
Qed.

Lemma history_after_calls (inputs : list (pyobj * pyobj))
    (self : MetricList) (pre post : list Metric) (m : Metric) :
  aggregator self ->
  metrics self = (pre ++ m :: post)%list ->
  ~ In (name m) (map name (pre ++ post)) ->
  (forall yy, In yy inputs ->
              raises_only_errors (metrics self) (fst yy) (snd yy)) ->
  PyDict.get (history (MetricList_calls self inputs)) (name m) =
  option_map (fun old => (old ++ scores_over m inputs)%list)
             (PyDict.get (history self) (name m)).
Proof.
  revert self. induction inputs as [| [y_true y_pred] inputs IH];
    intros self Hagg Hms Hname Herr.
  - simpl. destruct (PyDict.get (history self) (name m)); simpl;
      [now rewrite app_nil_r | reflexivity].
  - assert (Herr1 : raises_only_errors (metrics self) y_true y_pred).
    { apply (Herr (y_true, y_pred)). now left. }
    pose proof (call_history_alone self y_true y_pred pre post m
                  Hagg Herr1 Hms Hname) as Hstep.
    set (self1 := fst (MetricList_call self y_true y_pred)) in *.
    assert (Hms1 : metrics self1 = metrics self).
    { unfold self1. now rewrite MetricList_call_unfold. }
    change (MetricList_calls self ((y_true, y_pred) :: inputs))
      with (MetricList_calls self1 inputs).
    rewrite (IH self1).
    + rewrite Hstep. destruct (PyDict.get (history self) (name m)); simpl;
        [| reflexivity].
      f_equal. unfold scores_over. cbn [flat_map fst snd].
      now rewrite app_nil_r, <- app_assoc.
    + now apply aggregator_call.
    + now rewrite Hms1.
    + exact Hname.
    + intros yy Hyy. rewrite Hms1. apply Herr. now right.
Qed.

(** Calls accumulate in call order: after a sequence of calls, the history
    of a metric whose name no other metric bears is what it was before,
    followed by the metric's scores on the inputs, in the order of the
    calls, the calls in which it raised leaving no entry. *)
Theorem calls_accumulate_in_order (inputs : list (pyobj * pyobj))
    (self : MetricList) (pre post : list Metric) (m : Metric) :
  aggregator self ->
  metrics self = (pre ++ m :: post)%list ->
  ~ In (name m) (map name (pre ++ post)) ->
  (forall yy, In yy inputs ->
              raises_only_errors (metrics self) (fst yy) (snd yy)) ->
  exists old,
    PyDict.get (history self) (name m) = Some old
    /\ PyDict.get (history (MetricList_calls self inputs)) (name m) =
       Some (old ++ scores_over m inputs)%list.
Proof.
  intros Hagg Hms Hname Herr.
  destruct (aggregator_well_keyed self Hagg) as [Hkeys _].
  assert (Hin : In m (metrics self)) by (rewrite Hms; apply in_elt).
  destruct (In_get_Some _ _ (Hkeys m Hin)) as [old Hold].
  exists old. split; [exact Hold |].
  rewrite (history_after_calls inputs self pre post m Hagg Hms Hname Herr).
  now rewrite Hold.
Qed.

(** Accuracy evaluated twice next to a callable that throws. *)
Lemma calls_accumulate_in_order_witness :
  aggregator accuracy_and_broken
  /\ metrics accuracy_and_broken =
     ([] ++ Accuracy :: [MetricWrapper_object "broken_metric" broken_metric])%list
  /\ exists old,
      PyDict.get (history accuracy_and_broken) "accuracy" = Some old
      /\ PyDict.get
           (history (MetricList_calls accuracy_and_broken
                       [(NdArray [1], NdArray [1]); (NdArray [0], NdArray [0])]))
           "accuracy" =
         Some (old ++ scores_over Accuracy
                        [(NdArray [1], NdArray [1]); (NdArray [0], NdArray [0])])%list.
Proof.
  assert (Hagg : aggregator accuracy_and_broken).
  { exact (aggregator_init _ _ accuracy_and_broken_init). }
  split; [exact Hagg |]. split; [reflexivity |].
  apply (calls_accumulate_in_order _ accuracy_and_broken []
           [MetricWrapper_object "broken_metric" broken_metric] Accuracy Hagg
           eq_refl).
  - simpl. intros [H | []]. discriminate H.
  - intros yy [<- | [<- | []]] m e [<- | [<- | []]] H; simpl in H;
      try discriminate H; injection H as <-; reflexivity.
Defined.

Lemma loop_app (y_true y_pred : pyobj) (pre rest : list Metric) :
  forall (h h1 : dict (list R)) (results r1 : dict (option R)),
    MetricList_loop pre y_true y_pred h results = (h1, Ok r1) ->
    MetricList_loop (pre ++ rest) y_true y_pred h results =
    MetricList_loop rest y_true y_pred h1 r1.
Proof.
  induction pre as [| m pre IH]; intros h h1 results r1 Hloop; simpl in *.
  - now injection Hloop as <- <-.
  - destruct (try_metric m y_true y_pred h) as [[h2 s] | e].
    + now apply IH.
    + destruct (is_Exception e); [now apply IH | discriminate].
Qed.

(** An exception that is not an [Exception] ends the call where it is
    raised: it comes out of the call, the histories keep the scores of the
    metrics before the one that raised it, nothing is undone, and the
    metrics after it leave no trace. *)
Theorem non_exception_ends_call (self : MetricList) (y_true y_pred : pyobj)
    (pre post : list Metric) (m : Metric) (e : exn) :
  aggregator self ->
  metrics self = (pre ++ m :: post)%list ->
  raises_only_errors pre y_true y_pred ->
  call m y_true y_pred = Raise e ->
  is_Exception e = false ->
  exists self',
    MetricList_call self y_true y_pred = (self', Raise e)
    /\ metrics self' = metrics self
    /\ forall n,
        PyDict.get (history self') n =
        option_map
          (fun old => (old ++ scores_of y_true y_pred (named n pre))%list)
          (PyDict.get (history self) n).
Proof.
  intros Hagg Hms Herr Hcall He.
  destruct (aggregator_well_keyed self Hagg) as [Hkeys _].
  destruct (loop_spec y_true y_pred pre Herr (history self) [])
    as (h1 & r1 & Hloop & Hh & _).
  { intros m' Hm'. apply Hkeys. rewrite Hms. apply in_or_app. now left. }
  exists {| metrics := metrics self; history := h1 |}.
  split; [| split; [reflexivity | exact Hh]].
  unfold MetricList_call. rewrite Hms at 1.
  rewrite (loop_app _ _ _ _ _ _ _ _ Hloop). simpl.
  rewrite (try_metric_raises _ _ _ _ _ Hcall), He. now rewrite Hms.
Qed.

Lemma accuracy_and_interrupted_init :
  MetricList_init [IdStr "accuracy"; IdCallable interrupted] =
  Ok accuracy_and_interrupted.
Proof. reflexivity. Qed.

Lemma non_exception_ends_call_witness :
  aggregator accuracy_and_interrupted
  /\ raises_only_errors [Accuracy] (NdArray [1]) (NdArray [1])
  /\ call (MetricWrapper_object "interrupted" interrupted)
       (NdArray [1]) (NdArray [1]) = Raise KeyboardInterrupt
  /\ is_Exception KeyboardInterrupt = false
  /\ exists self',
      MetricList_call accuracy_and_interrupted (NdArray [1]) (NdArray [1]) =
      (self', Raise KeyboardInterrupt)
      /\ PyDict.get (history self') "accuracy" =
         Some ([] ++ scores_of (NdArray [1]) (NdArray [1])
                       (named "accuracy" [Accuracy]))%list.
Proof.
  assert (Hagg : aggregator accuracy_and_interrupted).
  { exact (aggregator_init _ _ accuracy_and_interrupted_init). }
  assert (Herr : raises_only_errors [Accuracy] (NdArray [1]) (NdArray [1])).
  { intros m e [<- | []] H. discriminate H. }
  split; [exact Hagg |]. split; [exact Herr |].
  split; [reflexivity |]. split; [reflexivity |].
  destruct (non_exception_ends_call accuracy_and_interrupted
              (NdArray [1]) (NdArray [1]) [Accuracy] []
              (MetricWrapper_object "interrupted" interrupted)
              KeyboardInterrupt Hagg eq_refl Herr eq_refl eq_refl)
    as (self' & Hcall & _ & Hh).
  exists self'. split; [exact Hcall |]. exact (Hh "accuracy").
Defined.

(** What the validation raises is an error. *)
Lemma validate_raises_error (y_true y_pred : pyobj) (e : exn) :
  _validate_inputs y_true y_pred = Raise e -> is_Exception e = true.
Proof.
  unfold _validate_inputs.
  destruct y_true as [a | | | |], y_pred as [b | | | |];
    try (intros [= <-]; reflexivity).
  destruct (negb (List.length a =? List.length b)%nat);
    [intros [= <-]; reflexivity |].
  destruct (List.length a =? 0)%nat; [intros [= <-]; reflexivity | discriminate].
Qed.

Lemma resolved_validates_first (i : identifier) (m : Metric)
    (y_true y_pred : pyobj) (e : exn) :
  by_name_or_callable i ->
  get_metric i = Ok m ->
  _validate_inputs y_true y_pred = Raise e ->
  call m y_true y_pred = Raise e.
Proof.
  intros Hi Hm Hv. destruct i as [m0 | s | fn | o]; try destruct Hi.
  - apply pointwise_validates_first; [| assumption].
    unfold get_metric in Hm.
    destruct (PyDict.get metrics_map s) as [m' |] eqn:Hg; [| discriminate].
    injection Hm as ->. unfold metrics_map in Hg. simpl in Hg.
    repeat match type of Hg with
           | context [String.eqb s ?k] =>
               destruct (String.eqb s k);
               [injection Hg as <-; simpl; tauto |]
           end.
    discriminate Hg.
  - unfold get_metric, MetricWrapper in Hm.
    destruct (fn_name fn) as [nm |]; [| discriminate].
    injection Hm as <-. cbn [call MetricWrapper_object]. now rewrite Hv.
Qed.

Lemma loop_all_raise (y_true y_pred : pyobj) (ms : list Metric) :
  (forall m, In m ms ->
             exists e, call m y_true y_pred = Raise e /\ is_Exception e = true) ->
  forall (h : dict (list R)) (results : dict (option R)),
  exists results',
    MetricList_loop ms y_true y_pred h results = (h, Ok results')
    /\ (forall m, In m ms -> PyDict.get results' (name m) = Some None)
    /\ (forall n, ~ In n (map name ms) ->
                  PyDict.get results' n = PyDict.get results n).
Proof.
  induction ms as [| m ms IH]; intros Hall h results.
  - exists results. split; [reflexivity |]. split; [intros m [] | reflexivity].
  - destruct (Hall m (or_introl eq_refl)) as (e & Hcall & He).
    destruct (IH (fun m' Hm' => Hall m' (or_intror Hm')) h
                (PyDict.set results (name m) None))
      as (results' & Hloop & Hin & Hout).
    exists results'. split; [| split].
    + simpl. now rewrite (try_metric_raises _ _ _ _ _ Hcall), He.
    + intros m' [<- | Hm']; [| now apply Hin].
      destruct (in_dec string_dec (name m) (map name ms)) as [Hn | Hn].
      * apply in_map_iff in Hn. destruct Hn as (m1 & Hname & Hm1).
        rewrite <- Hname. now apply Hin.
      * rewrite (Hout _ Hn). apply get_set_eq.
    + intros n Hn. simpl in Hn. rewrite Hout by tauto.
      apply get_set_neq. tauto.
Qed.

(** An aggregator built from names and callables never lets a validation
    failure out: on inputs the validation refuses (not arrays, different
    lengths, empty) the call returns [None] for every metric and leaves the
    aggregator exactly as it was. *)
Theorem aggregator_swallows_invalid_inputs (ids : list identifier)
    (self : MetricList) (y_true y_pred : pyobj) (e : exn) :
  Forall by_name_or_callable ids ->
  MetricList_init ids = Ok self ->
  _validate_inputs y_true y_pred = Raise e ->
  exists results,
    MetricList_call self y_true y_pred = (self, Ok results)
    /\ forall m, In m (metrics self) ->
                 PyDict.get results (name m) = Some None.
Proof.
  intros Hids Hinit Hv.
  assert (Hres : resolve_to ids (metrics self)).
  { unfold MetricList_init in Hinit.
    destruct (get_metrics ids) as [ms |] eqn:Hg; simpl in Hinit;
      [| discriminate].
    injection Hinit as <-. now apply get_metrics_Ok_iff. }
  assert (Hall : forall m, In m (metrics self) ->
             exists e', call m y_true y_pred = Raise e'
                        /\ is_Exception e' = true).
  { intros m Hm. exists e. split; [| now apply (validate_raises_error y_true y_pred)].
    unfold resolve_to in Hres. clear Hinit.
    induction Hres as [| i m0 ids0 ms0 Hi Hrest IH]; [destruct Hm |].
    inversion Hids; subst.
    destruct Hm as [<- | Hm]; [| now apply IH].
    now apply (resolved_validates_first i). }
  destruct (loop_all_raise y_true y_pred (metrics self) Hall (history self) [])
    as (results & Hloop & Hnone & _).
  exists results. split; [| exact Hnone].
  unfold MetricList_call. rewrite Hloop. now destruct self.
Qed.

(** Lengths 3 and 4 handed to the aggregator of accuracy and the throwing
    callable. *)
Lemma aggregator_swallows_invalid_inputs_witness :
  Forall by_name_or_callable [IdStr "accuracy"; IdCallable broken_metric]
  /\ MetricList_init [IdStr "accuracy"; IdCallable broken_metric] =
     Ok accuracy_and_broken
  /\ _validate_inputs (NdArray [1; 2; 3]) (NdArray [1; 2; 3; 4]) =
     Raise (ValueError "Shape mismatch: y_true (3,) != y_pred (4,)")
  /\ exists results,
      MetricList_call accuracy_and_broken
        (NdArray [1; 2; 3]) (NdArray [1; 2; 3; 4]) =
      (accuracy_and_broken, Ok results)
      /\ forall m, In m (metrics accuracy_and_broken) ->
                   PyDict.get results (name m) = Some None.
Proof.
  assert (Hids : Forall by_name_or_callable
                   [IdStr "accuracy"; IdCallable broken_metric]).
  { repeat constructor. }
  split; [exact Hids |]. split; [reflexivity |]. split; [reflexivity |].
  exact (aggregator_swallows_invalid_inputs _ _ (NdArray [1; 2; 3])
           (NdArray [1; 2; 3; 4]) _ Hids accuracy_and_broken_init eq_refl).
Defined.

(** ** Impurity: order of the labels *)

Lemma sorted_permutation_eq (l1 l2 : list Z) :
  StronglySorted Z.le l1 -> StronglySorted Z.le l2 -> Permutation l1 l2 ->
  l1 = l2.
Proof.
  revert l2. induction l1 as [| a t1 IH]; intros l2 Hs1 Hs2 Hp.
  - apply Permutation_nil in Hp. now subst.
  - destruct l2 as [| b t2].
    + apply Permutation_sym, Permutation_nil in Hp. discriminate.
    + inversion Hs1 as [| ? ? Hs1' Ha]; subst.
      inversion Hs2 as [| ? ? Hs2' Hb]; subst.
      rewrite Forall_forall in Ha, Hb.
      assert (Hab : a = b).
      { assert (Hb_in : In b (a :: t1))
          by (apply (Permutation_in _ (Permutation_sym Hp)); now left).
        assert (Ha_in : In a (b :: t2))
          by (apply (Permutation_in _ Hp); now left).
        destruct Hb_in as [-> | Hb_in]; [reflexivity |].
        destruct Ha_in as [-> | Ha_in]; [reflexivity |].
        apply Ha in Hb_in. apply Hb in Ha_in. lia. }
      subst b. f_equal. apply IH; try assumption.
      now apply Permutation_cons_inv with (a := a).
Qed.

Lemma np_sort_permutation (y y' : list Z) :
  Permutation y y' -> np_sort y = np_sort y'.
Proof.
  intros Hp. apply sorted_permutation_eq; try apply np_sort_sorted.
  eapply perm_trans; [apply np_sort_perm |].
  eapply perm_trans; [exact Hp | apply Permutation_sym, np_sort_perm].
Qed.

(** The impurity metrics look at the labels as a bag: reordering the label
    vector changes neither the class proportions nor any of the three
    impurities. *)
Theorem impurity_order_independent (y y' : list Z) (imp : ImpurityMetric) :
  Permutation y y' ->
  In imp impurity_metrics ->
  compute_proportions y = compute_proportions y'
  /\ imp_call imp y = imp_call imp y'.
Proof.
  intros Hp Himp.
  assert (Hprop : compute_proportions y = compute_proportions y').
  { unfold compute_proportions, np_unique_counts.
    now rewrite (np_sort_permutation y y' Hp), (Permutation_length Hp). }
  split; [exact Hprop |].
  destruct Himp as [<- | [<- | [<- | []]]]; cbn [imp_call Entropy GiniImpurity
    MisclassificationError]; now rewrite Hprop.
Qed.

Lemma impurity_order_independent_witness :
  Permutation [0; 1; 1]%Z [1; 0; 1]%Z
  /\ In GiniImpurity impurity_metrics
  /\ imp_call GiniImpurity [0; 1; 1]%Z = imp_call GiniImpurity [1; 0; 1]%Z.
Proof.
  assert (Hp : Permutation [0; 1; 1]%Z [1; 0; 1]%Z) by apply perm_swap.
  assert (Hin : In GiniImpurity impurity_metrics) by (simpl; auto).
  split; [exact Hp |]. split; [exact Hin |].
  exact (proj2 (impurity_order_independent _ _ GiniImpurity Hp Hin)).
Defined.

(** ** Impurity: upper bounds *)

Lemma ln_le_minus_1 (x : R) : 0 < x -> ln x <= x - 1.
Proof.
  intros Hx. pose proof (exp_ineq1_le (ln x)) as H.
  rewrite exp_ln in H by assumption. lra.
Qed.

Lemma fold_max_ge_init (xs : list R) (x : R) : x <= fold_left Rmax xs x.
Proof.
  revert x. induction xs as [| z xs IH]; intros x; simpl; [lra |].
  eapply Rle_trans; [apply (Rmax_l x z) | apply IH].
Qed.

Lemma np_max_ge (x : R) (xs : list R) (p : R) :
  In p (x :: xs) -> p <= np_max (x :: xs).
Proof.
  simpl. intros [<- | Hin]; [apply fold_max_ge_init |].
  revert x. induction xs as [| z xs IH]; intros x; [destruct Hin |].
  simpl. destruct Hin as [<- | Hin].
  - eapply Rle_trans; [apply (Rmax_r x z) | apply fold_max_ge_init].
  - now apply IH.
Qed.

Lemma np_sum_le_bound (l : list R) (M : R) :
  (forall p, In p l -> p <= M) -> np_sum l <= INR (List.length l) * M.
Proof.
  induction l as [| x l IH]; intros H; [simpl; lra |].
  change (List.length (x :: l)) with (S (List.length l)). rewrite S_INR.
  simpl. pose proof (H x (or_introl eq_refl)).
  assert (np_sum l <= INR (List.length l) * M)
    by (apply IH; intros p Hp; apply H; now right).
  lra.
Qed.

Lemma plnp_term (p c : R) :
  0 < p -> 0 < c -> - (p * ln p) - ln c * p <= / c - p.
Proof.
  intros Hp Hc.
  assert (Hcp : 0 < c * p) by now apply Rmult_lt_0_compat.
  pose proof (ln_le_minus_1 (/ (c * p)) (Rinv_0_lt_compat _ Hcp)) as H.
  rewrite ln_Rinv, ln_mult in H by assumption.
  apply (Rmult_le_compat_l p) in H; [| lra].
  replace (p * (/ (c * p) - 1)) with (/ c - p) in H by (field; lra).
  lra.
Qed.

Lemma plnp_sum_bound (l : list R) (c : R) :
  Forall (fun p => 0 < p) l -> 0 < c ->
  - np_sum (map (fun p => p * ln p) l) - ln c * np_sum l
  <= INR (List.length l) / c - np_sum l.
Proof.
  intros Hall Hc. induction Hall as [| p l Hp _ IH].
  - simpl. lra.
  - change (List.length (p :: l)) with (S (List.length l)). rewrite S_INR.
    simpl. pose proof (plnp_term p c Hp Hc). unfold Rdiv in *. lra.
Qed.

Lemma plog2p_sum (l : list R) :
  np_sum (map (fun p => p * np_log2 p) l) =
  np_sum (map (fun p => p * ln p) l) / ln 2.
Proof.
  pose proof ln_2_pos. induction l as [| p l IH]; simpl.
  - unfold Rdiv. ring.
  - rewrite IH. unfold np_log2. field. lra.
Qed.

Lemma entropy_value (y : list Z) :
  y <> [] ->
  imp_call Entropy y =
  - np_sum (map (fun p => p * np_log2 p) (compute_proportions y)).
Proof.
  intros Hne. destruct (compute_proportions_facts y Hne) as (_ & Hall & _).
  cbn [imp_call Entropy].
  rewrite (select_pos_all _ (proportions_positive _ Hall)).
  now rewrite np_mul_map.
Qed.

Lemma misclassification_value (y : list Z) :
  y <> [] ->
  imp_call MisclassificationError y = 1 - np_max (compute_proportions y).
Proof.
  intros Hne. destruct (compute_proportions_facts y Hne) as (Hlen & _ & _).
  cbn [imp_call MisclassificationError]. rewrite Hlen.
  pose proof (n_distinct_nonempty y Hne) as Hk.
  destruct (n_distinct y); [lia | reflexivity].
Qed.

(** With k distinct classes no impurity exceeds that of k equally frequent
    classes: the entropy is at most log2 k, the Gini impurity and the
    misclassification error at most 1 - 1/k. *)
Theorem impurity_upper_bounds (y : list Z) :
  y <> [] ->
  imp_call Entropy y <= np_log2 (INR (n_distinct y))
  /\ imp_call GiniImpurity y <= 1 - 1 / INR (n_distinct y)
  /\ imp_call MisclassificationError y <= 1 - 1 / INR (n_distinct y).
Proof.
  intros Hne.
  destruct (compute_proportions_facts y Hne) as (Hlen & Hall & Hsum).
  pose proof (proportions_positive _ Hall) as Hpos.
  assert (Hk : 0 < INR (n_distinct y)).
  { apply lt_0_INR. pose proof (n_distinct_nonempty y Hne). lia. }
  set (ps := compute_proportions y) in *.
  set (k := INR (n_distinct y)) in *.
  split; [| split].
  - rewrite entropy_value by assumption. fold ps. rewrite plog2p_sum.
    pose proof (plnp_sum_bound ps k Hpos Hk) as H.
    rewrite Hsum, Hlen in H. fold k in H.
    replace (k / k - 1) with 0 in H by (field; lra).
    unfold np_log2. pose proof ln_2_pos as H2.
    pose proof (Rinv_0_lt_compat _ H2) as Hi.
    unfold Rdiv.
    replace (- (np_sum (map (fun p => p * ln p) ps) * / ln 2))
      with ((- np_sum (map (fun p => p * ln p) ps)) * / ln 2) by ring.
    apply Rmult_le_compat_r; lra.
  - cbn [imp_call GiniImpurity]. fold ps. unfold np_square.
    pose proof (sum_sq_mean ps) as H. rewrite Hsum, Hlen in H. fold k in H.
    assert (Hq : 1 / k <= np_sum (map (fun x => x * x) ps)).
    { apply (Rmult_le_reg_l k); [assumption |].
      replace (k * (1 / k)) with 1 by (field; lra). lra. }
    lra.
  - rewrite misclassification_value by assumption. fold ps.
    destruct ps as [| p0 ps0] eqn:E; [simpl in Hsum; lra |].
    pose proof (np_sum_le_bound (p0 :: ps0) (np_max (p0 :: ps0))
                  (np_max_ge p0 ps0)) as H.
    rewrite Hsum, Hlen in H. fold k in H.
    assert (Hq : 1 / k <= np_max (p0 :: ps0)).
    { apply (Rmult_le_reg_l k); [assumption |].
      replace (k * (1 / k)) with 1 by (field; lra). lra. }
    lra.
Qed.

Lemma impurity_upper_bounds_witness :
  [0; 1; 1]%Z <> []
  /\ imp_call GiniImpurity [0; 1; 1]%Z <= 1 - 1 / INR (n_distinct [0; 1; 1]%Z).
Proof.
  assert (Hne : [0; 1; 1]%Z <> []) by discriminate.
  split; [exact Hne |].
  exact (proj1 (proj2 (impurity_upper_bounds [0; 1; 1]%Z Hne))).
Defined.

Lemma np_log2_inv (x : R) : 0 < x -> np_log2 (/ x) = - np_log2 x.
Proof.
  intros Hx. unfold np_log2. rewrite ln_Rinv by assumption.
  unfold Rdiv. ring.
Qed.

(** The bounds are met by balanced labels: when every class occurs equally
    often, the entropy is log2 k and the Gini impurity and the
    misclassification error are 1 - 1/k, k the number of classes. *)
Theorem impurity_of_balanced_labels (y : list Z) :
  y <> [] ->
  balanced y ->
  imp_call Entropy y = np_log2 (INR (n_distinct y))
  /\ imp_call GiniImpurity y = 1 - 1 / INR (n_distinct y)
  /\ imp_call MisclassificationError y = 1 - 1 / INR (n_distinct y).
Proof.
  intros Hne Hbal.
  destruct (compute_proportions_facts y Hne) as (Hlen & Hall & Hsum).
  assert (Hk : 0 < INR (n_distinct y)).
  { apply lt_0_INR. pose proof (n_distinct_nonempty y Hne). lia. }
  pose proof (compute_proportions_classes y Hne) as Hps.
  set (ps := compute_proportions y) in *.
  set (k := INR (n_distinct y)) in *.
  assert (Hconst : forall p, In p ps -> p = / k).
  { destruct ps as [| p0 ps0] eqn:E; [intros p []|].
    assert (Hsame : forall p, In p (p0 :: ps0) -> p = p0).
    { intros p Hp. assert (Hp0 : In p0 (p0 :: ps0)) by now left.
      rewrite Hps in Hp, Hp0.
      apply in_map_iff in Hp. destruct Hp as (c & <- & Hc).
      apply in_map_iff in Hp0. destruct Hp0 as (c0 & <- & Hc0).
      apply (proj1 (classes_In y c)) in Hc.
      apply (proj1 (classes_In y c0)) in Hc0.
      now rewrite (Hbal c c0 Hc Hc0). }
    pose proof (np_sum_constant p0 (p0 :: ps0) Hsame) as Hs.
    rewrite Hsum, Hlen in Hs. fold k in Hs.
    intros p Hp. rewrite (Hsame p Hp).
    apply (Rmult_eq_reg_l k); [| lra]. rewrite <- Hs. field. lra. }
  assert (Hmap : forall g : R -> R, np_sum (map g ps) = k * g (/ k)).
  { intros g. rewrite (np_sum_constant (g (/ k)) (map g ps)).
    - rewrite length_map, Hlen. reflexivity.
    - intros x Hx. apply in_map_iff in Hx. destruct Hx as (p & <- & Hp).
      now rewrite (Hconst p Hp). }
  split; [| split].
  - rewrite entropy_value by assumption. fold ps. rewrite Hmap.
    rewrite np_log2_inv by assumption. field. lra.
  - cbn [imp_call GiniImpurity]. fold ps. unfold np_square. rewrite Hmap.
    field. lra.
  - rewrite misclassification_value by assumption. fold ps.
    destruct ps as [| p0 ps0] eqn:E; [simpl in Hsum; lra |].
    rewrite (Hconst _ (np_max_In p0 ps0)). field. lra.
Qed.

(** entropy([0,1,0,1]) is log2 2. *)
Lemma impurity_of_balanced_labels_witness :
  [0; 1; 0; 1]%Z <> []
  /\ balanced [0; 1; 0; 1]%Z
  /\ imp_call Entropy [0; 1; 0; 1]%Z = np_log2 (INR (n_distinct [0; 1; 0; 1]%Z)).
Proof.
  assert (Hne : [0; 1; 0; 1]%Z <> []) by discriminate.
  assert (Hbal : balanced [0; 1; 0; 1]%Z).
  { intros c c' Hc Hc'. simpl in Hc, Hc'.
    destruct Hc as [<- | [<- | [<- | [<- | []]]]];
      destruct Hc' as [<- | [<- | [<- | [<- | []]]]]; reflexivity. }
  split; [exact Hne |]. split; [exact Hbal |].
  exact (proj1 (impurity_of_balanced_labels [0; 1; 0; 1]%Z Hne Hbal)).
Defined.

(** ** Split quality: bounds and edge cases *)

Lemma impurity_nonneg (imp : ImpurityMetric) (y : list Z) :
  In imp impurity_metrics -> 0 <= imp_call imp y.
Proof.
  intros [<- | [<- | [<- | []]]].
  - apply entropy_impurity.
  - destruct y as [| x y']; [simpl; lra |].
    apply gini_impurity_nonempty. discriminate.
  - apply misclassification_impurity.
Qed.

(** The weighted impurity of a child that is empty or holds one class is
    0, for each of the three metrics. *)
Lemma pure_child_term (imp : ImpurityMetric) (y_parent child : list Z) :
  In imp impurity_metrics -> (n_distinct child <= 1)%nat ->
  spec_weight y_parent child * imp_call imp child = 0.
Proof.
  intros [<- | [<- | [<- | []]]] Hpure.
  - rewrite (proj2 (proj2 (entropy_impurity child)) Hpure). ring.
  - destruct child as [| x c']; [unfold spec_weight, Rdiv; simpl; ring |].
    rewrite (proj2 (proj2 (gini_impurity_nonempty (x :: c') ltac:(discriminate)))
               Hpure).
    ring.
  - rewrite (proj2 (proj2 (misclassification_impurity child)) Hpure). ring.
Qed.

(** For a non-empty parent and any of the three impurity metrics, the
    information gain never exceeds the impurity of the parent, and equals
    it when every child is empty or holds a single class. *)
Theorem information_gain_upper_bound (imp : ImpurityMetric)
    (y_parent : list Z) (y_children : list (list Z)) :
  y_parent <> [] ->
  In imp impurity_metrics ->
  exists ig,
    information_gain y_parent y_children imp = Ok ig
    /\ ig <= imp_call imp y_parent
    /\ ((forall c, In c y_children -> (n_distinct c <= 1)%nat) ->
        ig = imp_call imp y_parent).
Proof.
  intros Hne Himp. eexists. split; [now apply information_gain_spec |].
  unfold spec_information_gain.
  rewrite <- (sum_map_Sigma [] (fun c => spec_weight y_parent c * imp_call imp c)).
  assert (Hn : 0 < INR (List.length y_parent)) by now apply length_pos_INR.
  split.
  - assert (0 <= np_sum (map (fun c => spec_weight y_parent c * imp_call imp c)
                           y_children)); [| lra].
    apply np_sum_nonneg, Forall_forall. intros x Hx.
    apply in_map_iff in Hx. destruct Hx as (c & <- & _).
    apply Rmult_le_pos; [| now apply impurity_nonneg].
    unfold spec_weight. apply Rmult_le_pos; [apply pos_INR |].
    now apply Rlt_le, Rinv_0_lt_compat.
  - intros Hpure.
    rewrite (np_sum_constant 0); [ring |].
    intros x Hx. apply in_map_iff in Hx. destruct Hx as (c & <- & Hc).
    apply pure_child_term; auto.
Qed.

(** Labels [0,0,0,1,1,1] split into [0,0,0] and [1,1,1]. *)
Lemma information_gain_upper_bound_witness :
  [0; 0; 0; 1; 1; 1]%Z <> []
  /\ In GiniImpurity impurity_metrics
  /\ (forall c, In c [[0; 0; 0]%Z; [1; 1; 1]%Z] -> (n_distinct c <= 1)%nat)
  /\ information_gain [0; 0; 0; 1; 1; 1]%Z [[0; 0; 0]%Z; [1; 1; 1]%Z]
       GiniImpurity = Ok (imp_call GiniImpurity [0; 0; 0; 1; 1; 1]%Z).
Proof.
  assert (Hne : [0; 0; 0; 1; 1; 1]%Z <> []) by discriminate.
  assert (Hin : In GiniImpurity impurity_metrics) by (simpl; auto).
  assert (Hpure : forall c, In c [[0; 0; 0]%Z; [1; 1; 1]%Z] ->
                            (n_distinct c <= 1)%nat).
  { intros c [<- | [<- | []]]; vm_compute; lia. }
  split; [exact Hne |]. split; [exact Hin |]. split; [exact Hpure |].
  destruct (information_gain_upper_bound GiniImpurity [0; 0; 0; 1; 1; 1]%Z
              [[0; 0; 0]%Z; [1; 1; 1]%Z] Hne Hin) as (ig & Hig & _ & Heq).
  rewrite Hig. f_equal. exact (Heq Hpure).
Defined.

(** [gain_ratio] at its edges: without children it returns 0 whatever the
    parent, the empty one included; with an empty parent and at least one
    child it raises [ZeroDivisionError], raised by [information_gain]
    before any split information is computed. *)
Theorem gain_ratio_edge_cases (imp : ImpurityMetric) :
  (forall y_parent, gain_ratio y_parent [] imp = Ok 0)
  /\ (forall child y_children,
         gain_ratio [] (child :: y_children) imp =
         Raise (ZeroDivisionError "division by zero")
         /\ information_gain [] (child :: y_children) imp =
            Raise (ZeroDivisionError "division by zero")).
Proof.
  split.
  - intros y_parent.
    unfold gain_ratio, information_gain, py_sum, npf_sum, npf_ne. simpl.
    destruct (Req_dec_T (- 0) 0) as [_ | Hn]; [reflexivity | exfalso; lra].
  - intros child y_children.
    assert (Hig : information_gain [] (child :: y_children) imp =
                  Raise (ZeroDivisionError "division by zero")).
    { unfold information_gain.
      now rewrite (py_sum_first_raises _ child y_children
                     (ZeroDivisionError "division by zero")). }
    split; [| exact Hig]. unfold gain_ratio. now rewrite Hig.
Qed.

(** A split into k children of one size: the split information is log2 k,
    so the gain ratio is the information gain over log2 k for two or more
    children, and 0 for a single child. *)
Theorem gain_ratio_even_split (imp : ImpurityMetric) (y_parent : list Z)
    (y_children : list (list Z)) (size : nat) :
  y_children <> [] ->
  size <> O ->
  (forall c, In c y_children -> List.length c = size) ->
  List.length y_parent = (List.length y_children * size)%nat ->
  exists ig,
    information_gain y_parent y_children imp = Ok ig
    /\ gain_ratio y_parent y_children imp =
       Ok (if (List.length y_children =? 1)%nat then 0
           else ig / np_log2 (INR (List.length y_children))).
Proof.
  intros Hcs Hsize Hlen Hpar.
  assert (Hne : y_parent <> []).
  { intros ->. simpl in Hpar. apply length_nonempty in Hcs.
    destruct (List.length y_children); simpl in Hpar; lia. }
  eexists. split; [now apply information_gain_spec |].
  rewrite gain_ratio_value;
    [| assumption
     | intros c Hc ->; apply Hsize; symmetry; exact (Hlen [] Hc)].
  set (k := INR (List.length y_children)).
  assert (Hk : 0 < k) by now apply length_pos_INR.
  assert (Hs : 0 < INR size) by (apply lt_0_INR; lia).
  assert (Hw : forall c, In c y_children -> spec_weight y_parent c = / k).
  { intros c Hc. unfold spec_weight. rewrite (Hlen c Hc), Hpar, mult_INR.
    fold k. field. lra. }
  assert (Hsplit : spec_split_info y_parent y_children = np_log2 k).
  { unfold spec_split_info.
    rewrite <- (sum_map_Sigma []
                  (fun c => spec_weight y_parent c
                            * np_log2 (spec_weight y_parent c))).
    rewrite (np_sum_constant (/ k * np_log2 (/ k))).
    - rewrite length_map. fold k. rewrite np_log2_inv by assumption.
      field. lra.
    - intros x Hx. apply in_map_iff in Hx. destruct Hx as (c & <- & Hc).
      now rewrite (Hw c Hc). }
  rewrite Hsplit.
  destruct (Nat.eqb_spec (List.length y_children) 1) as [H1 | H1].
  - unfold k. rewrite H1. simpl INR. rewrite np_log2_1.
    destruct (Req_dec_T 0 0); [reflexivity | contradiction].
  - assert (Hk2 : 1 < k).
    { unfold k. apply length_nonempty in Hcs.
      change 1 with (INR 1). apply lt_INR. lia. }
    assert (Hlog : 0 < np_log2 k).
    { unfold np_log2. pose proof ln_2_pos.
      pose proof (ln_increasing 1 k ltac:(lra) Hk2) as Hln.
      rewrite ln_1 in Hln. apply Rdiv_lt_0_compat; assumption. }
    destruct (Req_dec_T (np_log2 k) 0); [lra | reflexivity].
Qed.

Lemma gain_ratio_even_split_witness :
  [[0; 0]%Z; [1; 1]%Z] <> []
  /\ 2%nat <> O
  /\ (forall c, In c [[0; 0]%Z; [1; 1]%Z] -> List.length c = 2%nat)
  /\ List.length [0; 0; 1; 1]%Z = (List.length [[0; 0]%Z; [1; 1]%Z] * 2)%nat
  /\ exists ig,
      information_gain [0; 0; 1; 1]%Z [[0; 0]%Z; [1; 1]%Z] Entropy = Ok ig
      /\ gain_ratio [0; 0; 1; 1]%Z [[0; 0]%Z; [1; 1]%Z] Entropy =
         Ok (ig / np_log2 (INR 2)).
Proof.
  assert (Hcs : [[0; 0]%Z; [1; 1]%Z] <> []) by discriminate.
  assert (Hsize : 2%nat <> O) by discriminate.
  assert (Hlen : forall c, In c [[0; 0]%Z; [1; 1]%Z] -> List.length c = 2%nat).
  { intros c [<- | [<- | []]]; reflexivity. }
  assert (Hpar : List.length [0; 0; 1; 1]%Z
                 = (List.length [[0; 0]%Z; [1; 1]%Z] * 2)%nat) by reflexivity.
  split; [exact Hcs |]. split; [exact Hsize |]. split; [exact Hlen |].
  split; [exact Hpar |].
  exact (gain_ratio_even_split Entropy [0; 0; 1; 1]%Z [[0; 0]%Z; [1; 1]%Z] 2
           Hcs Hsize Hlen Hpar).
Defined.

(** ** Plotting the histories *)

Lemma calls_keys (self : MetricList) (inputs : list (pyobj * pyobj)) :
  PyDict.keys (history (MetricList_calls self inputs)) =
  PyDict.keys (history self).
Proof.
  unfold MetricList_calls. revert self.
  induction inputs as [| [y_true y_pred] inputs IH]; intros self;
    [reflexivity |].
  cbn [fold_left fst snd]. rewrite IH, MetricList_call_unfold.
  cbn [fst history]. apply loop_keys.
Qed.

(** An aggregator without metrics cannot be plotted: whatever calls it
    has served, [plot_learning_curves] refuses its histories with a
    [ValueError] before it asks anything of the plotting library. *)
Theorem plot_aggregator_without_metrics
    (backend : list event -> plt_call -> option exn) (self : MetricList)
    (inputs : list (pyobj * pyobj)) (title : option string)
    (figsize : nat * nat) (save_path : option string) :
  MetricList_init [] = Ok self ->
  plot_learning_curves backend (history (MetricList_calls self inputs))
    title figsize save_path =
  ([], Raise (ValueError "History dictionary cannot be empty")).
Proof.
  intros [= <-].
  pose proof (calls_keys {| metrics := []; history := empty_histories [] |}
                inputs) as Hk.
  destruct (history (MetricList_calls _ inputs)) as [| kv h];
    [reflexivity | discriminate Hk].
Qed.

Lemma plot_aggregator_without_metrics_witness :
  MetricList_init [] = Ok {| metrics := []; history := [] |}
  /\ plot_learning_curves backend_ok
       (history (MetricList_calls {| metrics := []; history := [] |}
                   [(NdArray [1], NdArray [1])]))
       None (10, 6)%nat None =
     ([], Raise (ValueError "History dictionary cannot be empty")).
Proof.
  split; [reflexivity |].
  exact (plot_aggregator_without_metrics backend_ok _
           [(NdArray [1], NdArray [1])] None (10, 6)%nat None eq_refl).
Defined.

Lemma plot_series_ok (items : dict (list R)) (tr : list event) :
  plot_series backend_ok items tr = ((tr ++ series_events items)%list, Ok tt).
Proof.
  revert tr. induction items as [| [k v] items IH]; intros tr; simpl.
  - unfold plot_ret. now rewrite app_nil_r.
  - destruct v as [| x v]; unfold plot_bind, log_warning, plt; simpl;
      rewrite IH, <- app_assoc; reflexivity.
Qed.

Lemma plot_body_ok (history : dict (list R)) (title : option string)
    (figsize : nat * nat) (save_path : option string) :
  plot_learning_curves_body backend_ok history title figsize save_path [] =
  (full_record history title figsize save_path, Ok tt).
Proof.
  unfold plot_learning_curves_body, full_record, plot_bind.
  unfold plt at 1. cbn [backend_ok app]. rewrite plot_series_ok.
  unfold plt, backend_ok, plot_ret, save_events.
  destruct save_path as [[| a p] |]; cbn [app];
    rewrite <- ?app_assoc; cbn [app]; reflexivity.
Qed.

Lemma curves_of_series (items : dict (list R)) :
  curves_of (series_events items) = nonempty_series items.
Proof.
  induction items as [| [k v] items IH]; [reflexivity |].
  destruct v as [| x v]; simpl; now rewrite <- IH.
Qed.

Lemma warnings_of_series (items : dict (list R)) :
  warnings_of (series_events items) =
  map (fun k => "Empty values for metric " ++ k) (empty_series_names items).
Proof.
  unfold empty_series_names.
  induction items as [| [k v] items IH]; [reflexivity |].
  destruct v as [| x v]; simpl; [f_equal |]; exact IH.
Qed.

Lemma saved_to_series (items : dict (list R)) :
  saved_to (series_events items) = [].
Proof.
  induction items as [| [k v] items IH]; [reflexivity |].
  destruct v as [| x v]; simpl; exact IH.
Qed.

Lemma plot_run_ok (history : dict (list R)) (title : option string)
    (figsize : nat * nat) (save_path : option string) :
  history <> [] ->
  plot_learning_curves backend_ok history title figsize save_path =
  (full_record history title figsize save_path, Ok tt).
Proof.
  intros Hne. destruct history as [| kv h]; [congruence |].
  unfold plot_learning_curves. now rewrite plot_body_ok.
Qed.

Lemma full_record_curves (history : dict (list R)) (title : option string)
    (figsize : nat * nat) (save_path : option string) :
  curves_of (full_record history title figsize save_path) =
  nonempty_series history.
Proof.
  unfold full_record, curves_of at 1. cbn [flat_map app].
  rewrite !flat_map_app.
  fold (curves_of (series_events history)). rewrite curves_of_series.
  destruct save_path as [[| a p] |]; simpl; now rewrite app_nil_r.
Qed.

Lemma full_record_warnings (history : dict (list R)) (title : option string)
    (figsize : nat * nat) (save_path : option string) :
  warnings_of (full_record history title figsize save_path) =
  map (fun k => "Empty values for metric " ++ k) (empty_series_names history).
Proof.
  unfold full_record, warnings_of at 1. cbn [flat_map app].
  rewrite !flat_map_app.
  fold (warnings_of (series_events history)). rewrite warnings_of_series.
  destruct save_path as [[| a p] |]; simpl; now rewrite app_nil_r.
Qed.

(** When the plotting library plays along, [plot_learning_curves] on a
    non-empty dictionary returns; it draws one curve for each series that
    holds values, labelled with its name, in dictionary order; it logs one
    warning for each series without values and draws nothing for it; it
    saves the figure exactly when [save_path] is a non-empty string; and it
    shows the figure last. *)
Theorem plot_learning_curves_draws (history : dict (list R))
    (title : option string) (figsize : nat * nat) (save_path : option string) :
  history <> [] ->
  exists tr,
    plot_learning_curves backend_ok history title figsize save_path = (tr, Ok tt)
    /\ curves_of tr = nonempty_series history
    /\ warnings_of tr =
       map (fun k => "Empty values for metric " ++ k) (empty_series_names history)
    /\ saved_to tr = match save_path with
                     | None | Some EmptyString => []
                     | Some path => [path]
                     end
    /\ last tr (Call plt_grid) = Call plt_show
    /\ In (Call (plt_title (str_or title "Learning Curves"))) tr.
Proof.
  intros Hne. exists (full_record history title figsize save_path).
  split; [now apply plot_run_ok |].
  split; [apply full_record_curves |].
  split; [apply full_record_warnings |].
  unfold full_record. split; [| split].
  - unfold saved_to at 1. cbn [flat_map app]. rewrite !flat_map_app.
    fold (saved_to (series_events history)). rewrite saved_to_series.
    destruct save_path as [[| a p] |]; reflexivity.
  - rewrite app_comm_cons, !app_assoc. apply last_last.
  - right. apply in_or_app. right. simpl. auto.
Qed.

Lemma plot_learning_curves_draws_witness :
  [("accuracy", [1; 0]); ("mse", [])] <> []
  /\ exists tr,
      plot_learning_curves backend_ok [("accuracy", [1; 0]); ("mse", [])]
        None (10, 6)%nat (Some "curves.png") = (tr, Ok tt)
      /\ curves_of tr = [("accuracy", [1; 0])]
      /\ warnings_of tr = ["Empty values for metric mse"]
      /\ saved_to tr = ["curves.png"].
Proof.
  assert (Hne : [("accuracy", [1; 0]); ("mse", @nil R)] <> []) by discriminate.
  split; [exact Hne |].
  destruct (plot_learning_curves_draws [("accuracy", [1; 0]); ("mse", [])]
              None (10, 6)%nat (Some "curves.png") Hne)
    as (tr & Hrun & Hc & Hw & Hs & _).
  exists tr. repeat split; assumption.
Defined.

Lemma get_In_pair {V : Type} (d : dict V) (k : string) (v : V) :
  PyDict.get d k = Some v -> In (k, v) d.
Proof.
  induction d as [| [k' v'] d IH]; simpl; [discriminate |].
  destruct (String.eqb_spec k k') as [-> | _].
  - intros [= ->]. now left.
  - intros H. right. now apply IH.
Qed.

Lemma In_pair_get {V : Type} (d : dict V) (k : string) (v : V) :
  NoDup (PyDict.keys d) -> In (k, v) d -> PyDict.get d k = Some v.
Proof.
  induction d as [| [k' v'] d IH]; simpl; [intros _ [] |].
  intros Hnd Hin. inversion Hnd as [| ? ? Hnot Hnd']; subst.
  destruct Hin as [[= -> ->] | Hin].
  - now rewrite String.eqb_refl.
  - destruct (String.eqb_spec k k') as [-> | _]; [| now apply IH].
    exfalso. apply Hnot. apply in_map_iff. now exists (k', v).
Qed.

Lemma aggregator_calls (self : MetricList) (inputs : list (pyobj * pyobj)) :
  aggregator self -> aggregator (MetricList_calls self inputs).
Proof.
  unfold MetricList_calls. revert self.
  induction inputs as [| [y_true y_pred] inputs IH]; intros self Hagg;
    [assumption |].
  cbn [fold_left fst snd]. apply IH. now apply aggregator_call.
Qed.

Lemma init_histories_empty (ids : list identifier) (self : MetricList)
    (n : string) (v : list R) :
  MetricList_init ids = Ok self ->
  PyDict.get (history self) n = Some v -> v = [].
Proof.
  unfold MetricList_init.
  destruct (get_metrics ids) as [ms | e]; simpl; [| discriminate].
  intros [= <-]. cbn [history]. unfold empty_histories.
  pose proof (empty_histories_from ms []) as Hh. simpl in Hh. rewrite Hh.
  intros Hg. apply get_In_pair, in_map_iff in Hg.
  destruct Hg as (k & [= _ <-] & _). reflexivity.
Qed.

(** From evaluation to plot: build an aggregator, call it any number of
    times, plot its histories.  For a metric whose name no other metric
    bears, the figure has one curve under that name, made of the metric's
    scores in the order of the calls; when the metric never returned a
    score there is no such curve and a warning is logged instead. *)
Theorem plot_after_calls (ids : list identifier) (self : MetricList)
    (inputs : list (pyobj * pyobj)) (pre post : list Metric) (m : Metric)
    (title : option string) (figsize : nat * nat) (save_path : option string) :
  MetricList_init ids = Ok self ->
  metrics self = (pre ++ m :: post)%list ->
  ~ In (name m) (map name (pre ++ post)) ->
  (forall yy, In yy inputs ->
              raises_only_errors (metrics self) (fst yy) (snd yy)) ->
  exists tr,
    plot_learning_curves backend_ok (history (MetricList_calls self inputs))
      title figsize save_path = (tr, Ok tt)
    /\ (forall values, In (name m, values) (curves_of tr) ->
                       values = scores_over m inputs)
    /\ match scores_over m inputs with
       | [] => In ("Empty values for metric " ++ name m) (warnings_of tr)
               /\ forall values, ~ In (name m, values) (curves_of tr)
       | _ :: _ => In (name m, scores_over m inputs) (curves_of tr)
       end.
Proof.
  intros Hinit Hms Hname Herr.
  assert (Hagg : aggregator self) by exact (aggregator_init ids self Hinit).
  pose proof (history_after_calls inputs self pre post m Hagg Hms Hname Herr)
    as Hnew.
  destruct (aggregator_well_keyed self Hagg) as [Hkeys _].
  destruct (In_get_Some _ _ (Hkeys m ltac:(rewrite Hms; apply in_elt)))
    as [old Hold].
  rewrite Hold in Hnew.
  rewrite (init_histories_empty ids self _ _ Hinit Hold) in Hnew.
  cbn [app option_map] in Hnew.
  set (H := history (MetricList_calls self inputs)) in *.
  assert (Hnd : NoDup (PyDict.keys H)).
  { apply aggregator_well_keyed. now apply aggregator_calls. }
  assert (HneH : H <> []) by (intros E; rewrite E in Hnew; discriminate).
  exists (full_record H title figsize save_path).
  split; [now apply plot_run_ok |].
  rewrite full_record_curves, full_record_warnings.
  assert (Hcurve : forall values,
             In (name m, values) (nonempty_series H) ->
             values = scores_over m inputs).
  { intros values Hin. apply filter_In in Hin. destruct Hin as [Hin _].
    apply (In_pair_get _ _ _ Hnd) in Hin. congruence. }
  split; [exact Hcurve |].
  pose proof (get_In_pair _ _ _ Hnew) as Hpair.
  destruct (scores_over m inputs) as [| s ss] eqn:Hs.
  - split.
    + apply in_map. unfold empty_series_names.
      apply in_map_iff. exists (name m, []). split; [reflexivity |].
      apply filter_In. now split.
    + intros values Hin. pose proof (Hcurve values Hin) as ->.
      apply filter_In in Hin. destruct Hin as [_ Habs]. discriminate Habs.
  - apply filter_In. now split.
Qed.

Lemma plot_after_calls_witness :
  MetricList_init [IdStr "accuracy"; IdCallable broken_metric] =
  Ok accuracy_and_broken
  /\ metrics accuracy_and_broken =
     ([Accuracy] ++ MetricWrapper_object "broken_metric" broken_metric :: [])%list
  /\ exists tr,
      plot_learning_curves backend_ok
        (history (MetricList_calls accuracy_and_broken
                    [(NdArray [1], NdArray [1])]))
        None (10, 6)%nat None = (tr, Ok tt)
      /\ In "Empty values for metric broken_metric" (warnings_of tr).
Proof.
  split; [reflexivity |]. split; [reflexivity |].
  destruct (plot_after_calls [IdStr "accuracy"; IdCallable broken_metric]
              accuracy_and_broken [(NdArray [1], NdArray [1])]
              [Accuracy] [] (MetricWrapper_object "broken_metric" broken_metric)
              None (10, 6)%nat None eq_refl eq_refl)
    as (tr & Hrun & _ & Hcase).
  - simpl. intros [H | []]. discriminate H.
  - intros yy [<- | []] m e [<- | [<- | []]] H; simpl in H;
      try discriminate H; injection H as <-; reflexivity.
  - exists tr. split; [exact Hrun |]. exact (proj1 Hcase).
Defined.

Section PlottingErrors.

Variable backend : list event -> plt_call -> option exn.

Lemma faithful_ret : faithful backend (plot_ret tt).
Proof.
  intros tr tr' r. unfold plot_ret. intros [= <- <-]. split; [| discriminate].
  exists []. split; [now rewrite app_nil_r | intros msg []].
Qed.

Lemma faithful_plt (c : plt_call) : faithful backend (plt backend c).
Proof.
  intros tr tr' r. unfold plt. intros [= <- <-]. split.
  - exists [Call c]. split; [reflexivity |].
    intros msg [H | []]. discriminate H.
  - intros e He. exists tr, c. split; [reflexivity |].
    destruct (backend tr c); [now injection He as -> | discriminate].
Qed.

Lemma faithful_log_warning (msg : string) : faithful backend (log_warning msg).
Proof.
  intros tr tr' r. unfold log_warning. intros [= <- <-].
  split; [| discriminate].
  exists [LogWarning msg]. split; [reflexivity |].
  intros msg' [H | []]. discriminate H.
Qed.

Lemma faithful_bind (c1 c2 : plotting unit) :
  faithful backend c1 -> faithful backend c2 ->
  faithful backend (c1 ;;; c2).
Proof.
  intros H1 H2 tr tr' r. unfold plot_bind.
  destruct (c1 tr) as [tr1 [[] | e1]] eqn:E1.
  - intros E2. destruct (H1 _ _ _ E1) as [(a1 & -> & Hno1) _].
    destruct (H2 _ _ _ E2) as [(a2 & -> & Hno2) Hraise].
    split; [| exact Hraise].
    exists (a1 ++ a2)%list. split; [now rewrite app_assoc |].
    intros msg Hin. apply in_app_or in Hin.
    destruct Hin as [Hin | Hin]; [now apply (Hno1 msg) | now apply (Hno2 msg)].
  - intros [= <- <-]. exact (H1 _ _ _ E1).
Qed.

Lemma faithful_plot_series (items : dict (list R)) :
  faithful backend (plot_series backend items).
Proof.
  induction items as [| [k v] items IH]; simpl; [apply faithful_ret |].
  destruct v as [| x v]; apply faithful_bind; try assumption.
  - apply faithful_log_warning.
  - apply faithful_plt.
Qed.

Lemma faithful_body (history : dict (list R)) (title : option string)
    (figsize : nat * nat) (save_path : option string) :
  faithful backend
    (plot_learning_curves_body backend history title figsize save_path).
Proof.
  unfold plot_learning_curves_body.
  repeat (apply faithful_bind;
          [first [apply faithful_plt | apply faithful_plot_series | idtac] |]).
  - destruct save_path as [[| a p] |];
      [apply faithful_ret | apply faithful_plt | apply faithful_ret].
  - apply faithful_plt.
Qed.

(** [plot_learning_curves] neither hides nor invents a failure of the
    plotting library.  On a non-empty dictionary, a run that returns has
    logged no error; a run that raises raises exactly what the library
    raised at the last call made, makes no call after it, and, when the
    exception is an error, ends by logging it with its text. *)
Theorem plot_learning_curves_failure (history : dict (list R))
    (title : option string) (figsize : nat * nat) (save_path : option string)
    (tr : list event) (r : result unit) :
  history <> [] ->
  plot_learning_curves backend history title figsize save_path = (tr, r) ->
  match r with
  | Ok _ => forall msg, ~ In (LogError msg) tr
  | Raise e =>
      exists tr0 c0,
        backend tr0 c0 = Some e
        /\ tr = ((tr0 ++ [Call c0])
                 ++ (if is_Exception e
                     then [LogError ("Error plotting learning curves: "
                                     ++ str_exn e)]
                     else []))%list
  end.
Proof.
  intros Hne Hrun. destruct history as [| kv h]; [congruence |].
  unfold plot_learning_curves in Hrun.
  destruct (plot_learning_curves_body backend (kv :: h) title figsize save_path [])
    as [tr1 r1] eqn:Hbody.
  destruct (faithful_body (kv :: h) title figsize save_path _ _ _ Hbody)
    as [(added & Hadd & Hno) Hraise].
  simpl in Hadd. subst tr1.
  destruct r1 as [[] | e].
  - injection Hrun as <- <-. exact Hno.
  - destruct (Hraise e eq_refl) as (tr0 & c0 & Htr & Hb).
    destruct (is_Exception e) eqn:He; injection Hrun as <- <-;
      exists tr0, c0; (split; [exact Hb |]); rewrite He, Htr;
      [reflexivity | now rewrite app_nil_r].
Qed.

End PlottingErrors.

(** A figure that cannot be saved. *)
Lemma plot_learning_curves_failure_witness :
  [("accuracy", [1; 0])] <> []
  /\ exists tr,
      plot_learning_curves backend_read_only [("accuracy", [1; 0])]
        None (10, 6)%nat (Some "curves.png") =
      (tr, Raise (RuntimeError "read-only file system"))
      /\ exists tr0 c0,
          backend_read_only tr0 c0 = Some (RuntimeError "read-only file system")
          /\ tr = ((tr0 ++ [Call c0])
                   ++ [LogError "Error plotting learning curves: read-only file system"])%list.
Proof.
  assert (Hne : [("accuracy", [1; 0])] <> []) by discriminate.
  split; [exact Hne |].
  eexists. split; [reflexivity |].
  exact (plot_learning_curves_failure backend_read_only
           [("accuracy", [1; 0])] None (10, 6)%nat (Some "curves.png")
           _ _ Hne eq_refl).
Defined.
